(** * ai-app-forge: slug generation, prompt classification, template
    synthesis and the file-tree / project handlers

  A shallow embedding of the server handlers
  ([create_project.ts], [update_project.ts], [delete_project.ts],
  [create_file.ts], [delete_file.ts], [simulate_ai_generation.ts]) over an
  explicit model of the relational store declared in [db/schema.ts].

  Strings are Rocq strings; a character is one 7-bit ASCII code unit, which
  is the range on which [toLowerCase], the character classes of the regular
  expressions and the LIKE operator are modelled.  Ids are natural numbers:
  the handlers take any of them, the [integer] columns of the store hold
  those below 2^31, and a statement with an id beyond is rejected by the
  store. *)

From Stdlib Require Import String Ascii List Bool Arith NArith Lia FinFun Sorted Permutation.
From Stdlib Require Import Decimal DecimalNat DecimalString.
Import ListNotations.

Open Scope list_scope.
Open Scope string_scope.

(* ================================================================== *)
(** * Characters and strings *)
(* ================================================================== *)

Module Str.

Definition code (c : ascii) : nat := nat_of_ascii c.

Definition is_upper (c : ascii) : bool := ((65 <=? code c) && (code c <=? 90))%nat.
Definition is_lower (c : ascii) : bool := ((97 <=? code c) && (code c <=? 122))%nat.
Definition is_digit (c : ascii) : bool := ((48 <=? code c) && (code c <=? 57))%nat.

(** The class [[a-z0-9]]. *)
Definition is_alnum (c : ascii) : bool := is_lower c || is_digit c.

Definition is_hyphen (c : ascii) : bool := (c =? "-")%char.

(** The class [[a-z0-9-]]. *)
Definition is_slug_char (c : ascii) : bool := is_alnum c || is_hyphen c.

(** The class [\s] on ASCII: tab, line feed, vertical tab, form feed,
    carriage return and space. *)
Definition is_space (c : ascii) : bool :=
  ((9 <=? code c) && (code c <=? 13))%nat || (code c =? 32)%nat.

Definition lower_char (c : ascii) : ascii :=
  if is_upper c then ascii_of_nat (code c + 32) else c.

(** [String.prototype.toLowerCase]. *)
Fixpoint toLowerCase (s : string) : string :=
  match s with
  | EmptyString => EmptyString
  | String c s' => String (lower_char c) (toLowerCase s')
  end.

(** [s.startsWith(p)]. *)
Fixpoint startsWith (s p : string) {struct p} : bool :=
  match p, s with
  | EmptyString, _ => true
  | String _ _, EmptyString => false
  | String a p', String b s' => (a =? b)%char && startsWith s' p'
  end.

(** [s.endsWith("/")], the only use of [endsWith] in the handlers. *)
Fixpoint endsWithChar (s : string) (c : ascii) : bool :=
  match s with
  | EmptyString => false
  | String a EmptyString => (a =? c)%char
  | String _ s' => endsWithChar s' c
  end.

(** [s.includes(sub)]. *)
Fixpoint includes (s sub : string) : bool :=
  startsWith s sub ||
  match s with
  | EmptyString => false
  | String _ s' => includes s' sub
  end.

(** [s.replace(/[C]/g, r)] for a character class [C] given as [p]. *)
Fixpoint replace_each (p : ascii -> bool) (r : string) (s : string) : string :=
  match s with
  | EmptyString => EmptyString
  | String c s' =>
      if p c then r ++ replace_each p r s' else String c (replace_each p r s')
  end.

(** [s.replace(/[C]+/g, r)]: every maximal run of characters of the class is
    replaced by one copy of [r].  [in_run] records that the previous
    character belonged to the run being replaced. *)
Fixpoint replace_runs_from (p : ascii -> bool) (r : string) (in_run : bool)
         (s : string) : string :=
  match s with
  | EmptyString => EmptyString
  | String c s' =>
      if p c then
        if in_run then replace_runs_from p r true s'
        else r ++ replace_runs_from p r true s'
      else String c (replace_runs_from p r false s')
  end.

Definition replace_runs (p : ascii -> bool) (r : string) (s : string) : string :=
  replace_runs_from p r false s.

Definition strip_leading_hyphen (s : string) : string :=
  match s with
  | String c s' => if is_hyphen c then s' else s
  | EmptyString => EmptyString
  end.

Fixpoint strip_trailing_hyphen (s : string) : string :=
  match s with
  | EmptyString => EmptyString
  | String c EmptyString => if is_hyphen c then EmptyString else s
  | String c s' => String c (strip_trailing_hyphen s')
  end.

(** [s.replace(/^-|-$/g, '')]: one hyphen at the start and one at the end
    are removed (the two matches never overlap). *)
Definition strip_edge_hyphens (s : string) : string :=
  strip_trailing_hyphen (strip_leading_hyphen s).

(** Template interpolation of a non-negative integer, [`${n}`]. *)
Definition of_nat (n : nat) : string := NilEmpty.string_of_uint (Nat.to_uint n).

(** [Contains s sub]: [sub] occurs in [s] as a contiguous substring. *)
Definition Contains (s sub : string) : Prop :=
  exists a b, s = a ++ sub ++ b.

End Str.

(* ================================================================== *)
(** * The regular expression of a slug *)
(* ================================================================== *)

Module SlugRe.
Import Str.

(** States of the automaton of [^[a-z0-9]+(-[a-z0-9]+)*$]: at the start or
    just after a hyphen an alphanumeric is required; inside a word the
    string may end, go on, or take one hyphen. *)
Inductive state := NeedWord | InWord.

Fixpoint run (st : state) (s : string) : bool :=
  match s with
  | EmptyString => match st with InWord => true | NeedWord => false end
  | String c s' =>
      if is_alnum c then run InWord s'
      else if is_hyphen c then
             match st with InWord => run NeedWord s' | NeedWord => false end
           else false
  end.

(** [matches s]: [s] matches [^[a-z0-9]+(-[a-z0-9]+)*$]. *)
Definition matches (s : string) : bool := run NeedWord s.

(** The same language, as the grammar reads: a non-empty alphanumeric
    word, followed by any number of groups hyphen-word. *)
Inductive word : string -> Prop :=
| word_one c : is_alnum c = true -> word (String c EmptyString)
| word_more c w : is_alnum c = true -> word w -> word (String c w).

Inductive groups : string -> Prop :=
| groups_nil : groups EmptyString
| groups_cons w g : word w -> groups g -> groups (String "-" (w ++ g)).

Inductive slug : string -> Prop :=
| slug_intro w g : word w -> groups g -> slug (w ++ g).

End SlugRe.

(* ================================================================== *)
(** * The relational store ([db/schema.ts]) *)
(* ================================================================== *)

Module Db.

(** Rows of the five tables the handlers touch.  Field names are the column
    names, prefixed by the table's initial.  Timestamps are ticks of the
    store's clock. *)
Record User := mkUser {
  u_id : nat;
  u_email : string;
  u_password_hash : string;
  u_name : string;
  u_created_at : nat;
  u_updated_at : nat
}.

Record Project := mkProject {
  p_id : nat;
  p_user_id : nat;
  p_name : string;
  p_description : option string;
  p_ai_prompt : string;
  p_slug : string;
  p_is_deployed : bool;
  p_deployment_url : option string;
  p_created_at : nat;
  p_updated_at : nat
}.

Record File := mkFile {
  f_id : nat;
  f_project_id : nat;
  f_path : string;
  f_name : string;
  f_content : string;
  f_is_folder : bool;
  f_parent_path : option string;
  f_created_at : nat;
  f_updated_at : nat
}.

Record ChatMessage := mkChatMessage {
  m_id : nat;
  m_project_id : nat;
  m_user_id : nat;
  m_message : string;
  m_response : option string;
  m_is_ai_response : bool;
  m_created_at : nat
}.

Inductive DeploymentStatus := pending | building | deployed | failed.

Record Deployment := mkDeployment {
  d_id : nat;
  d_project_id : nat;
  d_status : DeploymentStatus;
  d_deployment_url : option string;
  d_build_logs : option string;
  d_created_at : nat;
  d_completed_at : option nat
}.

(** The store: one list of rows per table, the two [serial] sequences the
    handlers draw from, and the clock behind [defaultNow()] and [new Date()].
    The order of a list is one of the orders in which the store may scan the
    table.  The sequences are taken to have values left. *)
Record Store := mkStore {
  users : list User;
  projects : list Project;
  files : list File;
  chat_messages : list ChatMessage;
  deployments : list Deployment;
  projects_seq : nat;
  files_seq : nat;
  clock : nat
}.

(** What a handler can throw: an [Error] of its own with its message, or an
    error raised by the store: a violated constraint, or a parameter that is
    no value of the column's type ([OutOfRange]).  [LoopExhausted] is the
    model's bound on the [while (true)] loop of [createProject]; it is never
    returned (see [uniqueSlug_terminates]). *)
Inductive Error :=
| Err (message : string)
| UniqueViolation (constraint_name : string)
| ForeignKeyViolation (constraint_name : string)
| OutOfRange (type_name : string)
| LoopExhausted.

(** A handler is a function of the store that returns a value or throws, and
    the store it leaves behind.  There are no transactions: the effects of the
    statements run before a throw stay. *)
Definition M (A : Type) : Type := Store -> (Error + A) * Store.

Definition ret {A} (a : A) : M A := fun st => (inr a, st).

Definition throw {A} (e : Error) : M A := fun st => (inl e, st).

Definition bind {A B} (m : M A) (k : A -> M B) : M B :=
  fun st =>
    match m st with
    | (inl e, st') => (inl e, st')
    | (inr a, st') => k a st'
    end.

(** [for (const x of xs) { await body(x) }]. *)
Fixpoint for_each {A} (xs : list A) (body : A -> M unit) : M unit :=
  match xs with
  | [] => ret tt
  | x :: xs' => bind (body x) (fun _ => for_each xs' body)
  end.

(** The values of an [integer] or [serial] column are signed 32-bit
    integers: of the natural numbers, those up to 2^31 - 1.  The ids that
    reach the handlers are validated as numbers only ([z.number()]). *)
Definition int4 (n : nat) : bool := (N.of_nat n <=? 2147483647)%N.

(** The numbers a statement compares with integer columns, or writes to
    them, are its parameters.  PostgreSQL reads each as a value of the
    column's type, and rejects the statement, before it looks at any row,
    when one is out of range. *)
Definition params_ok (params : list nat) : bool := forallb int4 params.

Arguments int4 : simpl never.

Definition with_params {A} (params : list nat) (statement : M A) : M A :=
  fun st =>
    if params_ok params then statement st
    else (inl (OutOfRange "integer"), st).

(** [db.select().from(T).where(cond)], with the integer parameters of
    [cond].  Without [orderBy] the store may return the rows in any order:
    the model returns them in the order of its table, which stands for one
    of these orders, and what is proved of a result read as a list is proved
    of its permutations. *)
Definition select_users (params : list nat) (cond : User -> bool) : M (list User) :=
  with_params params (fun st => (inr (filter cond (users st)), st)).

Definition select_projects (params : list nat) (cond : Project -> bool) : M (list Project) :=
  with_params params (fun st => (inr (filter cond (projects st)), st)).

Definition select_files (params : list nat) (cond : File -> bool) : M (list File) :=
  with_params params (fun st => (inr (filter cond (files st)), st)).

(** The values of an [insert] into [projects]; [id] and the timestamps are
    filled in by the store. *)
Record NewProject := mkNewProject {
  np_user_id : nat;
  np_name : string;
  np_description : option string;
  np_ai_prompt : string;
  np_slug : string;
  np_is_deployed : bool;
  np_deployment_url : option string
}.

Record NewFile := mkNewFile {
  nf_project_id : nat;
  nf_path : string;
  nf_name : string;
  nf_content : string;
  nf_is_folder : bool;
  nf_parent_path : option string
}.

(** [db.insert(projectsTable).values(v).returning()], whose one row the
    handlers read as [result[0]]: the foreign key to [users] and the unique
    constraint on [slug] are checked, the row takes the next value of the
    sequence and the current time. *)
Definition insert_project (v : NewProject) : M Project :=
  with_params [np_user_id v] (fun st =>
    if negb (existsb (fun u => u_id u =? np_user_id v)%nat (users st)) then
      (inl (ForeignKeyViolation "projects_user_id_users_id_fk"), st)
    else if existsb (fun p => p_slug p =? np_slug v) (projects st) then
      (inl (UniqueViolation "projects_slug_unique"), st)
    else
      let row := mkProject (projects_seq st) (np_user_id v) (np_name v)
                   (np_description v) (np_ai_prompt v) (np_slug v)
                   (np_is_deployed v) (np_deployment_url v)
                   (clock st) (clock st) in
      (inr row,
       mkStore (users st) (projects st ++ [row])%list (files st)
         (chat_messages st) (deployments st)
         (S (projects_seq st)) (files_seq st) (clock st))).

(** [db.insert(filesTable).values(v).returning()] and its one row: the
    foreign key to [projects] is checked; [files] has no unique constraint
    beyond its key. *)
Definition insert_file (v : NewFile) : M File :=
  with_params [nf_project_id v] (fun st =>
    if negb (existsb (fun p => p_id p =? nf_project_id v)%nat (projects st)) then
      (inl (ForeignKeyViolation "files_project_id_projects_id_fk"), st)
    else
      let row := mkFile (files_seq st) (nf_project_id v) (nf_path v) (nf_name v)
                   (nf_content v) (nf_is_folder v) (nf_parent_path v)
                   (clock st) (clock st) in
      (inr row,
       mkStore (users st) (projects st) (files st ++ [row])%list
         (chat_messages st) (deployments st)
         (projects_seq st) (S (files_seq st)) (clock st))).

(** The [set] object of an update of [projects]: a column is written when it
    is present. *)
Record ProjectUpdate := mkProjectUpdate {
  set_name : option string;
  set_slug : option string;
  set_description : option (option string);
  set_ai_prompt : option string;
  set_is_deployed : option bool;
  set_deployment_url : option (option string);
  set_updated_at : option nat
}.

Definition or_keep {A} (o : option A) (old : A) : A :=
  match o with Some v => v | None => old end.

Definition apply_update (u : ProjectUpdate) (p : Project) : Project :=
  mkProject (p_id p) (p_user_id p)
    (or_keep (set_name u) (p_name p))
    (or_keep (set_description u) (p_description p))
    (or_keep (set_ai_prompt u) (p_ai_prompt p))
    (or_keep (set_slug u) (p_slug p))
    (or_keep (set_is_deployed u) (p_is_deployed p))
    (or_keep (set_deployment_url u) (p_deployment_url p))
    (p_created_at p)
    (or_keep (set_updated_at u) (p_updated_at p)).

(** No two rows of a table of projects carry the same slug: the unique
    constraint on [projects.slug], as a check on a list of rows. *)
Fixpoint slugs_unique (ps : list Project) : bool :=
  match ps with
  | [] => true
  | p :: ps' => negb (existsb (fun q => p_slug q =? p_slug p) ps') && slugs_unique ps'
  end.

(** [db.update(projectsTable).set(u).where(cond).returning()]: the statement
    is rejected as a whole when the table it would leave breaks the unique
    constraint on [slug]. *)
Definition update_projects (params : list nat) (u : ProjectUpdate)
           (cond : Project -> bool) : M (list Project) :=
  with_params params (fun st =>
    let rows := map (fun p => if cond p then apply_update u p else p) (projects st) in
    if slugs_unique rows then
      (inr (map (apply_update u) (filter cond (projects st))),
       mkStore (users st) rows (files st) (chat_messages st) (deployments st)
         (projects_seq st) (files_seq st) (clock st))
    else (inl (UniqueViolation "projects_slug_unique"), st)).

(** [db.delete(filesTable).where(cond)]; the result is [rowCount]. *)
Definition delete_files (params : list nat) (cond : File -> bool) : M nat :=
  with_params params (fun st =>
    (inr (length (filter cond (files st))),
     mkStore (users st) (projects st)
       (filter (fun f => negb (cond f)) (files st))
       (chat_messages st) (deployments st)
       (projects_seq st) (files_seq st) (clock st))).

(** [db.delete(projectsTable).where(cond)]: the rows of [files],
    [chat_messages] and [deployments] that reference a deleted project go
    with it ([onDelete: 'cascade']). *)
Definition delete_projects (params : list nat) (cond : Project -> bool) : M nat :=
  with_params params (fun st =>
    let gone := map p_id (filter cond (projects st)) in
    let refs (pid : nat) := existsb (Nat.eqb pid) gone in
    (inr (length gone),
     mkStore (users st)
       (filter (fun p => negb (cond p)) (projects st))
       (filter (fun f => negb (refs (f_project_id f))) (files st))
       (filter (fun m => negb (refs (m_project_id m))) (chat_messages st))
       (filter (fun d => negb (refs (d_project_id d))) (deployments st))
       (projects_seq st) (files_seq st) (clock st))).

(** [new Date()]. *)
Definition now : M nat := fun st => (inr (clock st), st).

(** [dangling_escape pat]: read from the left, with every backslash taking
    the character after it, the pattern ends in a backslash that has none.
    PostgreSQL rejects such a pattern; the patterns of the handlers end in
    [%] and never are of this kind (see [like_pattern_well_formed]). *)
Fixpoint dangling_escape (pat : string) : bool :=
  match pat with
  | EmptyString => false
  | String c pat' =>
      if (c =? "\")%char then
        match pat' with
        | EmptyString => true
        | String _ pat'' => dangling_escape pat''
        end
      else dangling_escape pat'
  end.

(** PostgreSQL's [LIKE] on a pattern without dangling escape: [%] matches
    any run of characters, [_] any one character, and a backslash makes the
    next character literal. *)
Fixpoint like (pat : string) : string -> bool :=
  match pat with
  | EmptyString => fun s => match s with EmptyString => true | _ => false end
  | String c pat' =>
      if (c =? "%")%char then
        fix any (s : string) : bool :=
          like pat' s ||
          match s with
          | EmptyString => false
          | String _ s' => any s'
          end
      else if (c =? "_")%char then
        fun s => match s with
                 | EmptyString => false
                 | String _ s' => like pat' s'
                 end
      else if (c =? "\")%char then
        match pat' with
        | EmptyString => fun _ => false
        | String e pat'' =>
            fun s => match s with
                     | EmptyString => false
                     | String d s' => (e =? d)%char && like pat'' s'
                     end
        end
      else
        fun s => match s with
                 | EmptyString => false
                 | String d s' => (c =? d)%char && like pat' s'
                 end
  end.

End Db.

Declare Scope handler_scope.
Delimit Scope handler_scope with handler.
Notation "x <- c ;; k" := (Db.bind c (fun x => k))
  (at level 61, c at next level, right associativity) : handler_scope.
Notation "c ;;; k" := (Db.bind c (fun _ => k))
  (at level 61, right associativity) : handler_scope.

(* ================================================================== *)
(** * The handlers *)
(* ================================================================== *)

(** Each handler is the body of its [try] block.  The [catch] block logs the
    error and throws it again, so what the caller sees is what the body
    threw.  Ids are natural numbers, as the [serial] and [integer] columns
    they are compared with. *)
Module Handlers.
Import Str Db.
Local Open Scope handler_scope.

(** ** [create_project.ts] *)

Record CreateProjectInput := mkCreateProjectInput {
  cp_user_id : nat;
  cp_name : string;
  cp_description : option string;
  cp_ai_prompt : string
}.

(** The expression bound to [baseSlug]:
    [name.toLowerCase().replace(/\s+/g,'-').replace(/[^a-z0-9-]/g,'-')
         .replace(/-+/g,'-').replace(/^-|-$/g,'')]. *)
Definition baseSlug (name : string) : string :=
  strip_edge_hyphens
    (replace_runs is_hyphen "-"
       (replace_each (fun c => negb (is_slug_char c)) "-"
          (replace_runs is_space "-" (toLowerCase name)))).

(** The candidate tried after [k] collisions: [baseSlug], then
    [`${baseSlug}-${counter}`] for [counter = 1, 2, ...]. *)
Definition candidate (base : string) (k : nat) : string :=
  match k with
  | O => base
  | S _ => base ++ "-" ++ of_nat k
  end.

(** The loop [while (true) { ... }] that looks for a free slug.  [fuel]
    bounds the number of iterations of the model; [createProject] gives it
    one more than the number of stored projects, which is always enough. *)
Fixpoint uniqueSlugLoop (fuel : nat) (base slug : string) (counter : nat) : M string :=
  match fuel with
  | O => throw LoopExhausted
  | S fuel' =>
      existingProject <- select_projects [] (fun p => p_slug p =? slug) ;;
      if (length existingProject =? 0)%nat then ret slug
      else uniqueSlugLoop fuel' base (base ++ "-" ++ of_nat counter) (S counter)
  end.

Definition uniqueSlug (base : string) : M string :=
  fun st => uniqueSlugLoop (S (length (projects st))) base base 1 st.

Definition createProject (input : CreateProjectInput) : M Project :=
  userExists <- select_users [cp_user_id input] (fun u => u_id u =? cp_user_id input)%nat ;;
  if (length userExists =? 0)%nat then
    throw (Err ("User with ID " ++ of_nat (cp_user_id input) ++ " does not exist"))
  else
    slug <- uniqueSlug (baseSlug (cp_name input)) ;;
    insert_project
      (mkNewProject (cp_user_id input) (cp_name input) (cp_description input)
         (cp_ai_prompt input) slug false None).

(** ** [update_project.ts] *)

Record UpdateProjectInput := mkUpdateProjectInput {
  up_id : nat;
  up_name : option string;
  up_description : option (option string);
  up_ai_prompt : option string;
  up_is_deployed : option bool;
  up_deployment_url : option (option string)
}.

(** The slug written on a rename:
    [name.toLowerCase().replace(/[^a-z0-9]+/g,'-').replace(/^-|-$/g,'')]. *)
Definition renameSlug (name : string) : string :=
  strip_edge_hyphens
    (replace_runs (fun c => negb (is_alnum c)) "-" (toLowerCase name)).

Definition updateProject (input : UpdateProjectInput) : M (option Project) :=
  existingProject <- select_projects [up_id input] (fun p => p_id p =? up_id input)%nat ;;
  if (length existingProject =? 0)%nat then
    throw (Err ("Project with id " ++ of_nat (up_id input) ++ " not found"))
  else
    t <- now ;;
    let updateData :=
      mkProjectUpdate
        (up_name input)
        (option_map renameSlug (up_name input))
        (up_description input)
        (up_ai_prompt input)
        (up_is_deployed input)
        (up_deployment_url input)
        (Some t) in
    result <- update_projects [up_id input] updateData (fun p => p_id p =? up_id input)%nat ;;
    ret (hd_error result).

(** ** [delete_project.ts] *)

Definition deleteProject (projectId userId : nat) : M bool :=
  existingProjects <-
    select_projects [projectId; userId]
      (fun p => (p_id p =? projectId)%nat && (p_user_id p =? userId)%nat) ;;
  if (length existingProjects =? 0)%nat then ret false
  else
    rowCount <-
      delete_projects [projectId; userId]
        (fun p => (p_id p =? projectId)%nat && (p_user_id p =? userId)%nat) ;;
    ret (0 <? rowCount)%nat.

(** ** [create_file.ts] *)

Record CreateFileInput := mkCreateFileInput {
  cf_project_id : nat;
  cf_path : string;
  cf_name : string;
  cf_content : string;
  cf_is_folder : bool;
  cf_parent_path : option string
}.

Definition createFile (input : CreateFileInput) : M File :=
  project <- select_projects [cf_project_id input] (fun p => p_id p =? cf_project_id input)%nat ;;
  if (length project =? 0)%nat then
    throw (Err ("Project with id " ++ of_nat (cf_project_id input) ++ " not found"))
  else
    insert_file
      (mkNewFile (cf_project_id input) (cf_path input) (cf_name input)
         (cf_content input) (cf_is_folder input) (cf_parent_path input)).

(** ** [delete_file.ts] *)

(** [file.path.endsWith('/') ? file.path : file.path + '/']. *)
Definition folderPathOf (path : string) : string :=
  if endsWithChar path "/" then path else path ++ "/".

Definition deleteFile (fileId projectId : nat) : M bool :=
  found <- select_files [fileId; projectId]
             (fun f => (f_id f =? fileId)%nat && (f_project_id f =? projectId)%nat) ;;
  match found with
  | [] => ret false
  | file :: _ =>
      (if f_is_folder file then
         let folderPath := folderPathOf (f_path file) in
         delete_files [projectId]
           (fun f => (f_project_id f =? projectId)%nat && like (folderPath ++ "%") (f_path f)) ;;;
         ret tt
       else ret tt) ;;;
      rowCount <-
        delete_files [fileId; projectId]
          (fun f => (f_id f =? fileId)%nat && (f_project_id f =? projectId)%nat) ;;
      ret (0 <? rowCount)%nat
  end.

(** ** [simulate_ai_generation.ts] *)

Record GeneratedFile := mkGeneratedFile {
  path : string;
  name : string;
  content : string;
  is_folder : bool
}.

(** [s.split(sep)] for a one-character separator. *)
Fixpoint split (sep : ascii) (s : string) : list string :=
  match s with
  | EmptyString => [EmptyString]
  | String c s' =>
      if (c =? sep)%char then EmptyString :: split sep s'
      else match split sep s' with
           | [] => [String c EmptyString]
           | w :: ws => String c w :: ws
           end
  end.

(** [parts.join(sep)]. *)
Fixpoint join (sep : string) (parts : list string) : string :=
  match parts with
  | [] => EmptyString
  | [w] => w
  | w :: ws => w ++ sep ++ join sep ws
  end.

Definition nonEmpty (s : string) : bool :=
  match s with EmptyString => false | _ => true end.

Definition getParentPath (filePath : string) : option string :=
  let parts := filter nonEmpty (split "/" filePath) in
  if (length parts <=? 1)%nat then None
  else Some ("/" ++ join "/" (removelast parts)).

(** [name.toLowerCase().replace(/[^a-z0-9\s-]/g,'').replace(/\s+/g,'-')
         .replace(/-+/g,'-').replace(/^-|-$/g,'')]. *)
Definition sanitizeProjectName (projectName : string) : string :=
  strip_edge_hyphens
    (replace_runs is_hyphen "-"
       (replace_runs is_space "-"
          (replace_each (fun c => negb (is_slug_char c || is_space c)) EmptyString
             (toLowerCase projectName)))).

(** The double quote, which the file templates are full of. *)
Definition dq : string := String (ascii_of_nat 34) EmptyString.

Definition generateReactProject (projectName : string) : list GeneratedFile :=
  [ mkGeneratedFile "/src" "src"
      EmptyString
      true;
    mkGeneratedFile "/public" "public"
      EmptyString
      true;
    mkGeneratedFile "/package.json" "package.json"
      ("{
  " ++ dq ++ "name" ++ dq ++ ": " ++ dq ++ sanitizeProjectName projectName ++ dq ++ ",
  " ++ dq ++ "version" ++ dq ++ ": " ++ dq ++ "1.0.0" ++ dq ++ ",
  " ++ dq ++ "private" ++ dq ++ ": true,
  " ++ dq ++ "dependencies" ++ dq ++ ": {
    " ++ dq ++ "react" ++ dq ++ ": " ++ dq ++ "^18.2.0" ++ dq ++ ",
    " ++ dq ++ "react-dom" ++ dq ++ ": " ++ dq ++ "^18.2.0" ++ dq ++ ",
    " ++ dq ++ "typescript" ++ dq ++ ": " ++ dq ++ "^4.9.5" ++ dq ++ "
  },
  " ++ dq ++ "scripts" ++ dq ++ ": {
    " ++ dq ++ "start" ++ dq ++ ": " ++ dq ++ "react-scripts start" ++ dq ++ ",
    " ++ dq ++ "build" ++ dq ++ ": " ++ dq ++ "react-scripts build" ++ dq ++ "
  }
}")
      false;
    mkGeneratedFile "/src/App.tsx" "App.tsx"
      ("import React from 'react';
import './App.css';

function App() {
  return (
    <div className=" ++ dq ++ "App" ++ dq ++ ">
      <header className=" ++ dq ++ "App-header" ++ dq ++ ">
        <h1>Welcome to " ++ projectName ++ "</h1>
        <p>Your React application is ready!</p>
      </header>
    </div>
  );
}

export default App;")
      false;
    mkGeneratedFile "/src/index.tsx" "index.tsx"
      "import React from 'react';
import ReactDOM from 'react-dom/client';
import App from './App';

const root = ReactDOM.createRoot(
  document.getElementById('root') as HTMLElement
);

root.render(
  <React.StrictMode>
    <App />
  </React.StrictMode>
);"
      false;
    mkGeneratedFile "/src/App.css" "App.css"
      ".App {
  text-align: center;
}

.App-header {
  background-color: #282c34;
  padding: 20px;
  color: white;
  min-height: 50vh;
  display: flex;
  flex-direction: column;
  align-items: center;
  justify-content: center;
}"
      false;
    mkGeneratedFile "/public/index.html" "index.html"
      ("<!DOCTYPE html>
<html lang=" ++ dq ++ "en" ++ dq ++ ">
<head>
    <meta charset=" ++ dq ++ "utf-8" ++ dq ++ " />
    <meta name=" ++ dq ++ "viewport" ++ dq ++ " content=" ++ dq ++ "width=device-width, initial-scale=1" ++ dq ++ " />
    <title>" ++ projectName ++ "</title>
</head>
<body>
    <div id=" ++ dq ++ "root" ++ dq ++ "></div>
</body>
</html>")
      false ].

Definition generateAPIProject (projectName : string) : list GeneratedFile :=
  [ mkGeneratedFile "/src" "src"
      EmptyString
      true;
    mkGeneratedFile "/package.json" "package.json"
      ("{
  " ++ dq ++ "name" ++ dq ++ ": " ++ dq ++ sanitizeProjectName projectName ++ dq ++ ",
  " ++ dq ++ "version" ++ dq ++ ": " ++ dq ++ "1.0.0" ++ dq ++ ",
  " ++ dq ++ "main" ++ dq ++ ": " ++ dq ++ "src/server.js" ++ dq ++ ",
  " ++ dq ++ "dependencies" ++ dq ++ ": {
    " ++ dq ++ "express" ++ dq ++ ": " ++ dq ++ "^4.18.2" ++ dq ++ ",
    " ++ dq ++ "cors" ++ dq ++ ": " ++ dq ++ "^2.8.5" ++ dq ++ "
  },
  " ++ dq ++ "scripts" ++ dq ++ ": {
    " ++ dq ++ "start" ++ dq ++ ": " ++ dq ++ "node src/server.js" ++ dq ++ ",
    " ++ dq ++ "dev" ++ dq ++ ": " ++ dq ++ "nodemon src/server.js" ++ dq ++ "
  }
}")
      false;
    mkGeneratedFile "/src/server.js" "server.js"
      ("const express = require('express');
const cors = require('cors');

const app = express();
const PORT = process.env.PORT || 3000;

// Middleware
app.use(cors());
app.use(express.json());

// Routes
app.get('/', (req, res) => {
    res.json({ message: 'Welcome to " ++ projectName ++ " API' });
});

app.get('/api/health', (req, res) => {
    res.json({ status: 'OK', timestamp: new Date().toISOString() });
});

app.listen(PORT, () => {
    console.log(`" ++ projectName ++ " API server running on port ${PORT}`);
});")
      false;
    mkGeneratedFile "/README.md" "README.md"
      ("# " ++ projectName ++ "

A Node.js API server built with Express.

## Getting Started

1. Install dependencies:
   ```
   npm install
   ```

2. Start the server:
   ```
   npm start
   ```

## Endpoints

- `GET /` - Welcome message
- `GET /api/health` - Health check")
      false ].

Definition generateFullStackProject (projectName : string) : list GeneratedFile :=
  [ mkGeneratedFile "/frontend" "frontend"
      EmptyString
      true;
    mkGeneratedFile "/backend" "backend"
      EmptyString
      true;
    mkGeneratedFile "/package.json" "package.json"
      ("{
  " ++ dq ++ "name" ++ dq ++ ": " ++ dq ++ sanitizeProjectName projectName ++ dq ++ ",
  " ++ dq ++ "version" ++ dq ++ ": " ++ dq ++ "1.0.0" ++ dq ++ ",
  " ++ dq ++ "private" ++ dq ++ ": true,
  " ++ dq ++ "workspaces" ++ dq ++ ": [
    " ++ dq ++ "frontend" ++ dq ++ ",
    " ++ dq ++ "backend" ++ dq ++ "
  ],
  " ++ dq ++ "scripts" ++ dq ++ ": {
    " ++ dq ++ "dev" ++ dq ++ ": " ++ dq ++ "concurrently \" ++ dq ++ "npm run dev --workspace=backend\" ++ dq ++ " \" ++ dq ++ "npm run dev --workspace=frontend\" ++ dq ++ dq ++ ",
    " ++ dq ++ "build" ++ dq ++ ": " ++ dq ++ "npm run build --workspace=frontend && npm run build --workspace=backend" ++ dq ++ "
  },
  " ++ dq ++ "devDependencies" ++ dq ++ ": {
    " ++ dq ++ "concurrently" ++ dq ++ ": " ++ dq ++ "^7.6.0" ++ dq ++ "
  }
}")
      false;
    mkGeneratedFile "/frontend/package.json" "package.json"
      ("{
  " ++ dq ++ "name" ++ dq ++ ": " ++ dq ++ sanitizeProjectName projectName ++ "-frontend" ++ dq ++ ",
  " ++ dq ++ "version" ++ dq ++ ": " ++ dq ++ "1.0.0" ++ dq ++ ",
  " ++ dq ++ "dependencies" ++ dq ++ ": {
    " ++ dq ++ "react" ++ dq ++ ": " ++ dq ++ "^18.2.0" ++ dq ++ ",
    " ++ dq ++ "react-dom" ++ dq ++ ": " ++ dq ++ "^18.2.0" ++ dq ++ ",
    " ++ dq ++ "axios" ++ dq ++ ": " ++ dq ++ "^1.3.0" ++ dq ++ "
  },
  " ++ dq ++ "scripts" ++ dq ++ ": {
    " ++ dq ++ "start" ++ dq ++ ": " ++ dq ++ "react-scripts start" ++ dq ++ ",
    " ++ dq ++ "build" ++ dq ++ ": " ++ dq ++ "react-scripts build" ++ dq ++ ",
    " ++ dq ++ "dev" ++ dq ++ ": " ++ dq ++ "react-scripts start" ++ dq ++ "
  }
}")
      false;
    mkGeneratedFile "/backend/package.json" "package.json"
      ("{
  " ++ dq ++ "name" ++ dq ++ ": " ++ dq ++ sanitizeProjectName projectName ++ "-backend" ++ dq ++ ",
  " ++ dq ++ "version" ++ dq ++ ": " ++ dq ++ "1.0.0" ++ dq ++ ",
  " ++ dq ++ "main" ++ dq ++ ": " ++ dq ++ "server.js" ++ dq ++ ",
  " ++ dq ++ "dependencies" ++ dq ++ ": {
    " ++ dq ++ "express" ++ dq ++ ": " ++ dq ++ "^4.18.2" ++ dq ++ ",
    " ++ dq ++ "cors" ++ dq ++ ": " ++ dq ++ "^2.8.5" ++ dq ++ "
  },
  " ++ dq ++ "scripts" ++ dq ++ ": {
    " ++ dq ++ "start" ++ dq ++ ": " ++ dq ++ "node server.js" ++ dq ++ ",
    " ++ dq ++ "dev" ++ dq ++ ": " ++ dq ++ "nodemon server.js" ++ dq ++ "
  }
}")
      false;
    mkGeneratedFile "/frontend/src" "src"
      EmptyString
      true;
    mkGeneratedFile "/frontend/src/App.js" "App.js"
      ("import React, { useState, useEffect } from 'react';
import axios from 'axios';

function App() {
  const [message, setMessage] = useState('');

  useEffect(() => {
    axios.get('http://localhost:3001/')
      .then(response => setMessage(response.data.message))
      .catch(error => console.error('Error:', error));
  }, []);

  return (
    <div className=" ++ dq ++ "App" ++ dq ++ ">
      <h1>" ++ projectName ++ "</h1>
      <p>Backend message: {message}</p>
    </div>
  );
}

export default App;")
      false;
    mkGeneratedFile "/backend/server.js" "server.js"
      ("const express = require('express');
const cors = require('cors');

const app = express();
const PORT = process.env.PORT || 3001;

app.use(cors());
app.use(express.json());

app.get('/', (req, res) => {
    res.json({ message: 'Hello from " ++ projectName ++ " backend!' });
});

app.listen(PORT, () => {
    console.log(`Backend server running on port ${PORT}`);
});")
      false ].

Definition generateBasicProject (projectName : string) : list GeneratedFile :=
  [ mkGeneratedFile "/README.md" "README.md"
      ("# " ++ projectName ++ "

A basic project generated from your AI prompt.

## Getting Started

This project structure has been created based on your requirements. Add your specific implementation details here.")
      false;
    mkGeneratedFile "/src" "src"
      EmptyString
      true;
    mkGeneratedFile "/src/index.js" "index.js"
      ("// " ++ projectName ++ "
// Generated from AI prompt

console.log('Hello from " ++ projectName ++ "!');

// Add your implementation here")
      false;
    mkGeneratedFile "/package.json" "package.json"
      ("{
  " ++ dq ++ "name" ++ dq ++ ": " ++ dq ++ sanitizeProjectName projectName ++ dq ++ ",
  " ++ dq ++ "version" ++ dq ++ ": " ++ dq ++ "1.0.0" ++ dq ++ ",
  " ++ dq ++ "main" ++ dq ++ ": " ++ dq ++ "src/index.js" ++ dq ++ ",
  " ++ dq ++ "scripts" ++ dq ++ ": {
    " ++ dq ++ "start" ++ dq ++ ": " ++ dq ++ "node src/index.js" ++ dq ++ "
  }
}")
      false ].

Definition generateFilesFromPrompt (aiPrompt projectName : string) : list GeneratedFile :=
  let promptLower := toLowerCase aiPrompt in
  if includes promptLower "full stack" || includes promptLower "fullstack" then
    generateFullStackProject projectName
  else if includes promptLower "api" || includes promptLower "backend"
          || includes promptLower "server" || includes promptLower "express"
          || includes promptLower "node.js" then
    generateAPIProject projectName
  else if includes promptLower "react" || includes promptLower "frontend"
          || includes promptLower "ui" then
    generateReactProject projectName
  else
    generateBasicProject projectName.

Definition simulateAIGeneration (projectId : nat) : M (Project * list GeneratedFile) :=
  found <- select_projects [projectId] (fun p => p_id p =? projectId)%nat ;;
  match found with
  | [] => throw (Err ("Project with id " ++ of_nat projectId ++ " not found"))
  | project :: _ =>
      let generatedFiles := generateFilesFromPrompt (p_ai_prompt project) (p_name project) in
      for_each generatedFiles
        (fun file =>
           insert_file
             (mkNewFile projectId (path file) (name file) (content file)
                (is_folder file) (getParentPath (path file))) ;;;
           ret tt) ;;;
      ret (project, generatedFiles)
  end.

End Handlers.

(* ================================================================== *)
(** * Notions the properties are stated with *)
(* ================================================================== *)

Module Props.
Import Str Db Handlers.

(** Every character of [s] is in the class [p]. *)
Fixpoint all_chars (p : ascii -> bool) (s : string) : bool :=
  match s with
  | EmptyString => true
  | String c s' => p c && all_chars p s'
  end.

(** The alphanumeric characters of [s], in order. *)
Fixpoint alnums (s : string) : string :=
  match s with
  | EmptyString => EmptyString
  | String c s' => if is_alnum c then String c (alnums s') else alnums s'
  end.

(** [s] has a character of [[a-z0-9]]. *)
Definition has_alnum (s : string) : bool :=
  match alnums s with EmptyString => false | String _ _ => true end.

Definition starts_with_hyphen (s : string) : bool :=
  match s with String c _ => is_hyphen c | EmptyString => false end.

(** [s] has two hyphens in a row. *)
Fixpoint double_hyphen (s : string) : bool :=
  match s with
  | EmptyString => false
  | String c s' => (is_hyphen c && starts_with_hyphen s') || double_hyphen s'
  end.

(** [slug_taken st slug]: some stored project carries [slug]. *)
Definition slug_taken (st : Store) (slug : string) : bool :=
  existsb (fun p => p_slug p =? slug) (projects st).

(** [user_known st uid]: the table of users has a row with id [uid]. *)
Definition user_known (st : Store) (uid : nat) : bool :=
  existsb (fun u => u_id u =? uid)%nat (users st).

(** [n] calls of [createProject] with the same input, one after the other;
    the result lists the created projects in order. *)
Fixpoint createMany (input : CreateProjectInput) (n : nat) : M (list Project) :=
  match n with
  | O => ret []
  | S n' =>
      bind (createProject input) (fun p =>
      bind (createMany input n') (fun ps =>
      ret (p :: ps)))
  end.

(** The least number beyond the range of an [integer] column, 2^31. *)
Definition beyond_int4 : nat := N.to_nat 2147483648.

(** A store for examples: one user, and one project named Test Project. *)
Definition demo_user : User :=
  mkUser 1 "test@example.com" "hashed_password" "Test User" 0 0.

Definition demo_project : Project :=
  mkProject 1 1 "Test Project" (Some "A project for testing")
    "Build a React frontend with TypeScript" "test-project" false None 0 0.

Definition demo_store : Store :=
  mkStore [demo_user] [demo_project] [] [] [] 2 1 5.

Definition demo_create_input : CreateProjectInput :=
  mkCreateProjectInput 1 "Test Project" (Some "A project for testing")
    "Build a React frontend with TypeScript".

(** A second project of the same owner, named Other Project. *)
Definition other_project : Project :=
  mkProject 2 1 "Other Project" None "Create an API" "other-project" false None 1 1.

Definition two_projects_store : Store :=
  mkStore [demo_user] [demo_project; other_project] [] [] [] 3 1 5.

(** Renaming the second project to the name of the first. *)
Definition rename_to_first : UpdateProjectInput :=
  mkUpdateProjectInput 2 (Some "Test Project") None None None None.

(** The tree invariant of the data model: a node with a parent path has, in
    the same project, another node that is a folder at that path. *)
Definition has_parent_folder (fs : list File) (f : File) (parent : string) : Prop :=
  exists g, In g fs /\ g <> f /\ f_project_id g = f_project_id f /\
            f_is_folder g = true /\ f_path g = parent.

Definition tree_invariant (st : Store) : Prop :=
  forall f, In f (files st) ->
  forall parent, f_parent_path f = Some parent ->
  has_parent_folder (files st) f parent.

(** [names_folder st pid parent]: [parent] is null, or the path of a stored
    folder of project [pid]. *)
Definition names_folder (st : Store) (pid : nat) (parent : option string) : Prop :=
  match parent with
  | None => True
  | Some q => exists g, In g (files st) /\ f_project_id g = pid /\
                        f_is_folder g = true /\ f_path g = q
  end.

(** A file under [/src]. *)
Definition app_js_input : CreateFileInput :=
  mkCreateFileInput 1 "/src/app.js" "app.js" "console.log(1);" false (Some "/src").

(** The example store once the folder [/src] of project 1 is stored. *)
Definition src_folder : File :=
  mkFile 1 1 "/src" "src" EmptyString true None 5 5.

Definition src_store : Store :=
  mkStore [demo_user] [demo_project] [src_folder] [] [] 2 2 5.

(** The characters [LIKE] does not read as themselves. *)
Definition like_meta (c : ascii) : bool :=
  (c =? "%")%char || (c =? "_")%char || (c =? "\")%char.

Definition plain_for_like (s : string) : bool :=
  all_chars (fun c => negb (like_meta c)) s.

(** [same_row F r]: [r] has the id and the project of [F]. *)
Definition same_row (F r : File) : bool :=
  (f_id r =? f_id F)%nat && (f_project_id r =? f_project_id F)%nat.

(** [in_subtree F r]: [r] is in the project of [F] and its path begins with
    the folder path of [F]. *)
Definition in_subtree (F r : File) : bool :=
  (f_project_id r =? f_project_id F)%nat &&
  startsWith (f_path r) (folderPathOf (f_path F)).

(** Two projects with the same paths; project 1 also has [/src2]. *)
Definition second_project : Project :=
  mkProject 2 1 "Second" None "Create an API" "second" false None 1 1.

Definition tree_files : list File :=
  [ mkFile 1 1 "/src" "src" EmptyString true None 5 5;
    mkFile 2 1 "/src/a.ts" "a.ts" "export {};" false (Some "/src") 5 5;
    mkFile 3 1 "/src/nested" "nested" EmptyString true (Some "/src") 5 5;
    mkFile 4 1 "/src/nested/deep.ts" "deep.ts" "export {};" false (Some "/src/nested") 5 5;
    mkFile 5 1 "/src2" "src2" EmptyString true None 5 5;
    mkFile 6 1 "/src2/b.ts" "b.ts" "export {};" false (Some "/src2") 5 5;
    mkFile 7 2 "/src" "src" EmptyString true None 5 5;
    mkFile 8 2 "/src/a.ts" "a.ts" "export {};" false (Some "/src") 5 5 ].

Definition tree_store : Store :=
  mkStore [demo_user] [demo_project; second_project] tree_files [] [] 3 9 5.

(** A folder stored with a path that ends in the separator. *)
Definition slash_files : list File :=
  [ mkFile 1 1 "/src/" "src" EmptyString true None 5 5;
    mkFile 2 1 "/src/a.ts" "a.ts" "export {};" false (Some "/src/") 5 5 ].

Definition slash_store : Store :=
  mkStore [demo_user] [demo_project] slash_files [] [] 2 3 5.

(** A folder whose name has an underscore, beside a folder that differs
    from it in that one character. *)
Definition underscore_files : list File :=
  [ mkFile 1 1 "/a_b" "a_b" EmptyString true None 5 5;
    mkFile 2 1 "/axb" "axb" EmptyString true None 5 5;
    mkFile 3 1 "/axb/keep.ts" "keep.ts" "export {};" false (Some "/axb") 5 5 ].

Definition underscore_store : Store :=
  mkStore [demo_user] [demo_project] underscore_files [] [] 2 4 5.

(** The four project archetypes, and the template of each. *)
Inductive Archetype := FullStack | API | Frontend | Basic.

Definition synthesize (a : Archetype) (projectName : string) : list GeneratedFile :=
  match a with
  | FullStack => generateFullStackProject projectName
  | API => generateAPIProject projectName
  | Frontend => generateReactProject projectName
  | Basic => generateBasicProject projectName
  end.

(** [mentions prompt kw]: some substring of the prompt is [kw] up to the
    case of its letters ([kw] is in lower case). *)
Definition mentions (prompt kw : string) : Prop :=
  exists a w b, prompt = a ++ w ++ b /\ toLowerCase w = kw.

Definition fullstack_wording (prompt : string) : Prop :=
  mentions prompt "full stack" \/ mentions prompt "fullstack".

Definition backend_wording (prompt : string) : Prop :=
  mentions prompt "api" \/ mentions prompt "backend" \/ mentions prompt "server" \/
  mentions prompt "express" \/ mentions prompt "node.js".

Definition frontend_wording (prompt : string) : Prop :=
  mentions prompt "react" \/ mentions prompt "frontend" \/ mentions prompt "ui".

(** Tree consistency of a list of generated nodes: a node whose path has a
    parent path has a folder of the list at that path. *)
Definition tree_consistent (fs : list GeneratedFile) : Prop :=
  forall f, In f fs ->
  forall parent, getParentPath (path f) = Some parent ->
  exists g, In g fs /\ is_folder g = true /\ path g = parent.

Definition tree_consistentb (fs : list GeneratedFile) : bool :=
  forallb
    (fun f =>
       match getParentPath (path f) with
       | None => true
       | Some parent => existsb (fun g => is_folder g && (path g =? parent)) fs
       end)
    fs.

(** The rows [simulateAIGeneration] inserts for a list of generated nodes,
    from the value [next] of the sequence on. *)
Fixpoint rows_of (projectId next time : nat) (fs : list GeneratedFile) : list File :=
  match fs with
  | [] => []
  | g :: fs' =>
      mkFile next projectId (path g) (name g) (content g) (is_folder g)
        (getParentPath (path g)) time time
      :: rows_of projectId (S next) time fs'
  end.

(** How a generated [package.json] begins, up to the opening quote of the
    value of its name. *)
Definition manifest_head : string :=
  "{
  " ++ dq ++ "name" ++ dq ++ ": " ++ dq.

Fixpoint strip_prefix (p s : string) {struct p} : option string :=
  match p with
  | EmptyString => Some s
  | String a p' =>
      match s with
      | EmptyString => None
      | String b s' => if (a =? b)%char then strip_prefix p' s' else None
      end
  end.

Definition is_quote (c : ascii) : bool := (code c =? 34)%nat.

Fixpoint until_quote (s : string) : string :=
  match s with
  | EmptyString => EmptyString
  | String c s' => if is_quote c then EmptyString else String c (until_quote s')
  end.

(** The manifest identifier of a [package.json]: the value of the name
    entry its content begins with. *)
Definition manifest_name (content : string) : option string :=
  option_map until_quote (strip_prefix manifest_head content).

(** The root manifest generated for the project of the handler's test. *)
Definition test_manifest : GeneratedFile :=
  nth 2 (generateFilesFromPrompt "Create a React app" "My React App @ 2024!")
    (mkGeneratedFile EmptyString EmptyString EmptyString false).

(** The identifier as C9 words it: lower-case, strip every character
    outside [[a-z0-9-]], collapse repeated hyphens, trim the edges. *)
Definition claimed_manifest_id (projectName : string) : string :=
  strip_edge_hyphens
    (replace_runs is_hyphen "-"
       (replace_each (fun c => negb (is_slug_char c)) EmptyString
          (toLowerCase projectName))).

(** The identifier as the amended C9 words it: lower-case, strip every
    character that is neither in [[a-z0-9-]] nor white space, turn each white
    space character into a hyphen, collapse repeated hyphens, trim the edges. *)
Definition manifest_id_spec (projectName : string) : string :=
  strip_edge_hyphens
    (replace_runs is_hyphen "-"
       (replace_each is_space "-"
          (replace_each (fun c => negb (is_slug_char c || is_space c)) EmptyString
             (toLowerCase projectName)))).

End Props.

(* ================================================================== *)
(** * The read handlers and the chat reply *)
(* ================================================================== *)

Module Queries.
Import Str Db Handlers.
Local Open Scope handler_scope.

(** [ORDER BY key DESC]: insertion of a row into rows already in descending
    order of [key].  The store leaves the order of rows with equal keys
    open; this model keeps them in table order. *)
Fixpoint insert_desc {A} (key : A -> nat) (x : A) (l : list A) : list A :=
  match l with
  | [] => [x]
  | y :: l' =>
      if (key y <=? key x)%nat then x :: l else y :: insert_desc key x l'
  end.

Definition order_by_desc {A} (key : A -> nat) (l : list A) : list A :=
  fold_right (insert_desc key) [] l.

(** ** [get_project_by_slug.ts] *)

Definition getProjectBySlug (slug : string) : M (option Project) :=
  results <- select_projects [] (fun p => p_slug p =? slug) ;;
  if (length results =? 0)%nat then ret None
  else ret (hd_error results).

(** ** [get_user_projects.ts] *)

Definition getUserProjects (userId : nat) : M (list Project) :=
  results <- select_projects [userId] (fun p => p_user_id p =? userId)%nat ;;
  ret (order_by_desc p_created_at results).

(** ** [get_project_files.ts] *)

(** The query has no [orderBy]: the list computed here is one of the
    orders in which the store may return the rows. *)
Definition getProjectFiles (projectId : nat) : M (list File) :=
  select_files [projectId] (fun f => f_project_id f =? projectId)%nat.

(** ** [create_chat_message.ts]: the canned reply *)

Definition generateAIResponse (userMessage : string) : string :=
  let message := toLowerCase userMessage in
  if includes message "bug" || includes message "error" || includes message "issue" then
    "I can help you debug this issue. Let me analyze the code and suggest some solutions. Can you share more details about when this occurs?"
  else if includes message "feature" || includes message "add"
          || includes message "implement" then
    "That's a great feature idea! I can help you implement this. Let me break down the steps and suggest the best approach for your project."
  else if includes message "deploy" || includes message "deployment" then
    "I can guide you through the deployment process. Let me check your current project setup and recommend the best deployment strategy."
  else if includes message "database" || includes message "data" then
    "For database-related tasks, I can help you design schemas, write queries, or optimize performance. What specific database work do you need assistance with?"
  else if includes message "test" || includes message "testing" then
    "Testing is crucial for reliable code! I can help you write unit tests, integration tests, or set up testing frameworks. What would you like to test?"
  else if includes message "performance" || includes message "optimize" then
    "Let's optimize your application! I can analyze your code for performance bottlenecks and suggest improvements. What specific performance issues are you experiencing?"
  else
    "I understand you're asking about: " ++ dq ++ userMessage ++ dq
    ++ ". I'm here to help with your development needs. Can you provide more specific details about what you'd like to accomplish?".

End Queries.

(* ================================================================== *)
(** * The file explorer of the client ([FileExplorer.tsx]) *)
(* ================================================================== *)

Module Explorer.
Import Str Db Handlers.

(** [String.prototype.trim] on ASCII white space. *)
Fixpoint trimStart (s : string) : string :=
  match s with
  | EmptyString => EmptyString
  | String c s' => if is_space c then trimStart s' else s
  end.

Fixpoint trimEnd (s : string) : string :=
  match s with
  | EmptyString => EmptyString
  | String c s' =>
      match trimEnd s' with
      | EmptyString => if is_space c then EmptyString else String c EmptyString
      | t => String c t
      end
  end.

Definition trim (s : string) : string := trimEnd (trimStart s).

(** The argument of [onFileCreate]. *)
Record FileData := mkFileData {
  fd_path : string;
  fd_name : string;
  fd_is_folder : bool;
  fd_parent_path : option string
}.

(** [handleCreateSubmit], as a function of the dialog's state
    ([createParentPath], [newItemName], and whether [createType] is
    ['folder']): the call of [onFileCreate] it makes, if any. *)
Definition handleCreateSubmit (createParentPath newItemName : string)
           (folder : bool) : option FileData :=
  match trim newItemName with
  | EmptyString => None
  | String _ _ =>
      let fullPath :=
        if createParentPath =? "/" then "/" ++ newItemName
        else createParentPath ++ "/" ++ newItemName in
      Some (mkFileData fullPath (trim newItemName) folder
              (if createParentPath =? "/" then None else Some createParentPath))
  end.

(** [handleFileCreate] of the workspace: the input of the [createFile]
    mutation for a payload of the explorer. *)
Definition handleFileCreate (projectId : nat) (fileData : FileData) : CreateFileInput :=
  mkCreateFileInput projectId (fd_path fileData) (fd_name fileData)
    (if fd_is_folder fileData then EmptyString else "// New file
")
    (fd_is_folder fileData) (fd_parent_path fileData).

End Explorer.

(* ================================================================== *)
(** * Further notions *)
(* ================================================================== *)

Module MoreProps.
Import Str Db Handlers Props Queries.

(** A path segment: not empty, and without the separator. *)
Definition segment (w : string) : Prop :=
  w <> EmptyString /\ all_chars (fun c => negb (c =? "/")%char) w = true.

(** Tree consistency with the folder found at another path than the node
    itself. *)
Definition strict_tree_consistentb (fs : list GeneratedFile) : bool :=
  forallb
    (fun f =>
       match getParentPath (path f) with
       | None => true
       | Some parent =>
           existsb (fun g => is_folder g && (path g =? parent)
                             && negb (path g =? path f)) fs
       end)
    fs.

(** Every stored file has an id the sequence has passed. *)
Definition ids_below_seq (st : Store) : Prop :=
  forall f, In f (files st) -> f_id f < files_seq st.

(** One call of [createProject] per input, one after the other; the result
    lists the created projects in order. *)
Fixpoint createEach (inputs : list CreateProjectInput) : M (list Project) :=
  match inputs with
  | [] => ret []
  | input :: rest =>
      bind (createProject input) (fun p =>
      bind (createEach rest) (fun ps =>
      ret (p :: ps)))
  end.

(** The lists [getProjectFiles] may return: the query has no [orderBy], so
    they are the rows the call computes, in any order; there is none when
    the call throws. *)
Definition may_list (projectId : nat) (st : Store) (rows : list File) : Prop :=
  exists l, getProjectFiles projectId st = (inr l, st) /\ Permutation rows l.

(** Newest first. *)
Definition newer_or_same (a b : Project) : Prop := p_created_at b <= p_created_at a.

(** The wordings [generateAIResponse] looks for, in the order it looks. *)
Definition debug_wording (m : string) : Prop :=
  mentions m "bug" \/ mentions m "error" \/ mentions m "issue".

Definition feature_wording (m : string) : Prop :=
  mentions m "feature" \/ mentions m "add" \/ mentions m "implement".

Definition performance_wording (m : string) : Prop :=
  mentions m "performance" \/ mentions m "optimize".

(** The reply for a message no rule applies to. *)
Definition default_reply (userMessage : string) : string :=
  "I understand you're asking about: " ++ dq ++ userMessage ++ dq
  ++ ". I'm here to help with your development needs. Can you provide more specific details about what you'd like to accomplish?".

(** A third project, of another owner, created last. *)
Definition third_project : Project :=
  mkProject 3 2 "Third" None "Create a UI" "third" false None 7 7.

Definition three_projects_store : Store :=
  mkStore [demo_user; mkUser 2 "b@example.com" "hashed_password" "B" 0 0]
    [demo_project; other_project; third_project] [] [] [] 4 1 9.

End MoreProps.

(* ================================================================== *)
(** * Facts about strings *)
(* ================================================================== *)

Section StringFacts.
Import Str Props.

Lemma append_nil_r (s : string) : s ++ EmptyString = s.
Proof. induction s as [|c s IH]; simpl; [reflexivity | now rewrite IH]. Qed.

Lemma is_hyphen_eq (c : ascii) : is_hyphen c = true -> c = "-"%char.
Proof. unfold is_hyphen. apply Ascii.eqb_eq. Qed.

Lemma alnum_not_hyphen (c : ascii) : is_alnum c = true -> is_hyphen c = false.
Proof.
  intros Ha. destruct (is_hyphen c) eqn:Hh; [|reflexivity].
  apply is_hyphen_eq in Hh. subst c. discriminate Ha.
Qed.

Lemma hyphen_not_alnum (c : ascii) : is_hyphen c = true -> is_alnum c = false.
Proof. intros Hh. apply is_hyphen_eq in Hh. subst c. reflexivity. Qed.

Lemma space_not_alnum (c : ascii) : is_space c = true -> is_alnum c = false.
Proof.
  unfold is_space, is_alnum, is_lower, is_digit. intros H.
  apply orb_true_iff in H. destruct H as [H|H].
  - apply andb_true_iff in H. destruct H as [H1 H2].
    apply Nat.leb_le in H1, H2.
    apply orb_false_iff. split; apply andb_false_iff; left; apply Nat.leb_gt; lia.
  - apply Nat.eqb_eq in H.
    apply orb_false_iff. split; apply andb_false_iff; left; apply Nat.leb_gt; lia.
Qed.

Lemma non_slug_char_not_alnum (c : ascii) :
  negb (is_slug_char c) = true -> is_alnum c = false.
Proof.
  unfold is_slug_char. intros H. apply negb_true_iff in H.
  apply orb_false_iff in H. tauto.
Qed.

(** *** What the replacements do to a class of characters *)

Variable p : ascii -> bool.

Lemma all_chars_replace_runs (q : ascii -> bool) (b : bool) (s : string) :
  q "-"%char = true ->
  all_chars q s = true ->
  all_chars q (replace_runs_from p "-" b s) = true.
Proof.
  intros Hq. revert b. induction s as [|c s IH]; intros b Hs; simpl in *.
  - reflexivity.
  - apply andb_true_iff in Hs. destruct Hs as [Hc Hs].
    destruct (p c).
    + destruct b; simpl; [|rewrite Hq; simpl]; now apply IH.
    + simpl. rewrite Hc. simpl. now apply IH.
Qed.

Lemma alnums_replace_runs (b : bool) (s : string) :
  (forall c, p c = true -> is_alnum c = false) ->
  alnums (replace_runs_from p "-" b s) = alnums s.
Proof.
  intros Hp. revert b. induction s as [|c s IH]; intros b; simpl.
  - reflexivity.
  - destruct (p c) eqn:Hc.
    + rewrite (Hp c Hc). destruct b; simpl; apply IH.
    + simpl. rewrite IH. reflexivity.
Qed.

Lemma alnums_replace_each (r s : string) :
  (forall c, p c = true -> is_alnum c = false) ->
  r = "-" \/ r = EmptyString ->
  alnums (replace_each p r s) = alnums s.
Proof.
  intros Hp Hr. induction s as [|c s IH]; simpl.
  - reflexivity.
  - destruct (p c) eqn:Hc.
    + rewrite (Hp c Hc). destruct Hr; subst r; simpl; exact IH.
    + simpl. rewrite IH. reflexivity.
Qed.

End StringFacts.

Section SlugShape.
Import Str Props.

Lemma all_chars_replace_non_slug (s : string) :
  all_chars is_slug_char (replace_each (fun c => negb (is_slug_char c)) "-" s) = true.
Proof.
  induction s as [|c s IH]; simpl; [reflexivity|].
  destruct (is_slug_char c) eqn:Hc; simpl; [rewrite Hc|]; exact IH.
Qed.

(** Collapsing runs of hyphens leaves no two hyphens in a row; when the
    scan is inside a run, the rest does not begin with a hyphen either. *)
Lemma collapse_no_double (b : bool) (s : string) :
  double_hyphen (replace_runs_from is_hyphen "-" b s) = false /\
  (b = true -> starts_with_hyphen (replace_runs_from is_hyphen "-" b s) = false).
Proof.
  revert b. induction s as [|c s IH]; intros b; simpl.
  - split; reflexivity.
  - destruct (is_hyphen c) eqn:Hc.
    + destruct b.
      * apply IH.
      * destruct (IH true) as [Hd Hs]. split; [|discriminate].
        simpl. rewrite Hd, (Hs eq_refl). reflexivity.
    + destruct (IH false) as [Hd _]. split.
      * simpl. rewrite Hc, Hd. reflexivity.
      * intros _. simpl. exact Hc.
Qed.

Lemma strip_leading_shape (s : string) :
  all_chars is_slug_char s = true ->
  double_hyphen s = false ->
  all_chars is_slug_char (strip_leading_hyphen s) = true /\
  double_hyphen (strip_leading_hyphen s) = false /\
  starts_with_hyphen (strip_leading_hyphen s) = false.
Proof.
  destruct s as [|c s]; simpl; [intros; repeat split; reflexivity|].
  intros Ha Hd.
  apply andb_true_iff in Ha. destruct Ha as [Hc Ha].
  apply orb_false_iff in Hd. destruct Hd as [Hcs Hd].
  destruct (is_hyphen c) eqn:Hh; simpl in *.
  - repeat split; assumption.
  - rewrite Hc, Ha, Hh, Hd. repeat split; reflexivity.
Qed.

Lemma strip_trailing_cons (c d : ascii) (s : string) :
  strip_trailing_hyphen (String c (String d s)) =
  String c (strip_trailing_hyphen (String d s)).
Proof. reflexivity. Qed.

Lemma strip_trailing_all_chars (q : ascii -> bool) (s : string) :
  all_chars q s = true -> all_chars q (strip_trailing_hyphen s) = true.
Proof.
  induction s as [|c s IH]; [reflexivity|].
  destruct s as [|d s].
  - simpl. intros H. destruct (is_hyphen c); [reflexivity | exact H].
  - rewrite strip_trailing_cons. intros H.
    change (q c && all_chars q (String d s) = true) in H.
    apply andb_true_iff in H. destruct H as [Hc H].
    change (q c && all_chars q (strip_trailing_hyphen (String d s)) = true).
    rewrite Hc. simpl. apply IH. exact H.
Qed.

Lemma strip_trailing_start (s : string) :
  starts_with_hyphen (strip_trailing_hyphen s) = true ->
  starts_with_hyphen s = true.
Proof.
  destruct s as [|c [|d s]]; simpl; try discriminate.
  - destruct (is_hyphen c) eqn:Hc; simpl; [auto | rewrite Hc; auto].
  - intros H; exact H.
Qed.

Lemma strip_trailing_double (s : string) :
  double_hyphen s = false -> double_hyphen (strip_trailing_hyphen s) = false.
Proof.
  induction s as [|c s IH]; [reflexivity|].
  destruct s as [|d s].
  - simpl. destruct (is_hyphen c) eqn:Hc; simpl; [reflexivity|].
    rewrite Hc. reflexivity.
  - rewrite strip_trailing_cons. intros H.
    change ((is_hyphen c && starts_with_hyphen (String d s))
            || double_hyphen (String d s) = false) in H.
    apply orb_false_iff in H. destruct H as [H1 H2].
    change ((is_hyphen c && starts_with_hyphen (strip_trailing_hyphen (String d s)))
            || double_hyphen (strip_trailing_hyphen (String d s)) = false).
    rewrite (IH H2), orb_false_r.
    destruct (is_hyphen c); [|reflexivity].
    rewrite andb_true_l in H1. rewrite andb_true_l.
    destruct (starts_with_hyphen (strip_trailing_hyphen (String d s))) eqn:E;
      [|reflexivity].
    apply strip_trailing_start in E. congruence.
Qed.

Lemma strip_trailing_end (s : string) :
  double_hyphen s = false ->
  endsWithChar (strip_trailing_hyphen s) "-" = false.
Proof.
  induction s as [|c s IH]; [reflexivity|].
  destruct s as [|d s].
  - intros _. simpl. destruct (is_hyphen c) eqn:Hc; [reflexivity|]. simpl. exact Hc.
  - rewrite strip_trailing_cons. intros H.
    change ((is_hyphen c && starts_with_hyphen (String d s))
            || double_hyphen (String d s) = false) in H.
    apply orb_false_iff in H. destruct H as [H1 H2].
    specialize (IH H2).
    destruct (strip_trailing_hyphen (String d s)) as [|e t] eqn:E.
    + (* the rest was a lone hyphen *)
      destruct s as [|d' s']; [|rewrite strip_trailing_cons in E; discriminate].
      simpl in E. destruct (is_hyphen d) eqn:Hd; [|discriminate].
      simpl in H1. rewrite Hd, andb_true_r in H1. simpl. exact H1.
    + exact IH.
Qed.

(** A string over [[a-z0-9-]] with no two hyphens in a row and none at
    either end is accepted from [InWord], and from [NeedWord] when it is not
    empty. *)
Lemma run_accepts (s : string) :
  all_chars is_slug_char s = true ->
  double_hyphen s = false ->
  endsWithChar s "-" = false ->
  forall st,
    (st = SlugRe.NeedWord -> starts_with_hyphen s = false /\ s <> EmptyString) ->
    SlugRe.run st s = true.
Proof.
  induction s as [|c s IH]; intros Ha Hd He st Hst.
  - destruct st; [|reflexivity]. destruct (Hst eq_refl) as [_ H]. now elim H.
  - simpl in Ha. apply andb_true_iff in Ha. destruct Ha as [Hc Ha].
    simpl in Hd. apply orb_false_iff in Hd. destruct Hd as [Hcs Hd].
    simpl. destruct (is_alnum c) eqn:Hal.
    + destruct s as [|d s]; [reflexivity|].
      apply IH; try assumption. discriminate.
    + unfold is_slug_char in Hc. rewrite Hal in Hc. simpl in Hc. rewrite Hc.
      destruct st.
      * destruct (Hst eq_refl) as [H _]. simpl in H. congruence.
      * rewrite Hc in Hcs. simpl in Hcs.
        destruct s as [|d s].
        -- simpl in He. unfold is_hyphen in Hc. congruence.
        -- apply IH; try assumption.
           intros _. split; [exact Hcs | discriminate].
Qed.

End SlugShape.

Section SlugLanguage.
Import Str Props SlugRe.

(** The automaton accepts exactly the strings of the grammar. *)
Lemma run_word (w : string) :
  word w -> forall st g, run InWord g = true -> run st (w ++ g) = true.
Proof.
  induction 1 as [c Hc | c w Hc Hw IH]; intros st g Hg; simpl; rewrite Hc.
  - exact Hg.
  - apply IH. exact Hg.
Qed.

Lemma run_groups (g : string) : groups g -> run InWord g = true.
Proof.
  induction 1 as [| w g Hw Hg IH]; [reflexivity|].
  simpl. apply run_word; assumption.
Qed.

Lemma run_grammar (s : string) :
  (run NeedWord s = true -> slug s) /\
  (run InWord s = true -> groups s \/ slug s).
Proof.
  induction s as [|c s [IHn IHw]]; simpl.
  - split; [discriminate | intros _; left; constructor].
  - destruct (is_alnum c) eqn:Hc.
    + assert (H : run InWord s = true -> slug (String c s)).
      { intros Hr. destruct (IHw Hr) as [Hg | Hs].
        - apply (slug_intro (String c EmptyString) s); [now constructor | exact Hg].
        - destruct Hs as [w g Hw Hg].
          apply (slug_intro (String c w) g); [now constructor | exact Hg]. }
      split; [exact H | intros Hr; right; now apply H].
    + destruct (is_hyphen c) eqn:Hh; [|split; discriminate].
      split; [discriminate|].
      intros Hr. left. apply is_hyphen_eq in Hh. subst c.
      destruct (IHn Hr) as [w g Hw Hg]. now constructor.
Qed.

Lemma matches_iff_slug (s : string) : matches s = true <-> slug s.
Proof.
  split.
  - apply run_grammar.
  - intros [w g Hw Hg]. apply run_word; [exact Hw | now apply run_groups].
Qed.

Lemma matches_has_alnum (s : string) : matches s = true -> has_alnum s = true.
Proof.
  unfold matches, has_alnum. destruct s as [|c s]; simpl; [discriminate|].
  destruct (is_alnum c); [reflexivity|].
  destruct (is_hyphen c); discriminate.
Qed.

Lemma alnums_strip_edges (s : string) : alnums (strip_edge_hyphens s) = alnums s.
Proof.
  unfold strip_edge_hyphens.
  assert (Ht : forall t, alnums (strip_trailing_hyphen t) = alnums t).
  { induction t as [|c t IH]; [reflexivity|].
    destruct t as [|d t].
    - simpl. destruct (is_hyphen c) eqn:Hc; [|reflexivity].
      now rewrite (hyphen_not_alnum c Hc).
    - rewrite strip_trailing_cons.
      change (alnums (String c (String d t)))
        with (if is_alnum c then String c (alnums (String d t)) else alnums (String d t)).
      rewrite <- IH. reflexivity. }
  rewrite Ht. destruct s as [|c s]; [reflexivity|]. simpl.
  destruct (is_hyphen c) eqn:Hc; [|reflexivity].
  now rewrite (hyphen_not_alnum c Hc).
Qed.

(** A string over [[a-z0-9-]], once its runs of hyphens are collapsed and
    its edges stripped, is empty or a slug. *)
Lemma collapsed_stripped_shape (s : string) :
  all_chars is_slug_char s = true ->
  let r := strip_edge_hyphens (replace_runs is_hyphen "-" s) in
  r = EmptyString \/ matches r = true.
Proof.
  intros Ha r. subst r. unfold replace_runs, strip_edge_hyphens.
  set (t := replace_runs_from is_hyphen "-" false s).
  assert (Hat : all_chars is_slug_char t = true)
    by (apply all_chars_replace_runs; [reflexivity | exact Ha]).
  assert (Hdt : double_hyphen t = false) by apply collapse_no_double.
  destruct (strip_leading_shape t Hat Hdt) as (A & B & C).
  set (u := strip_leading_hyphen t) in *.
  destruct (strip_trailing_hyphen u) as [|c v] eqn:E; [left; reflexivity|].
  right. rewrite <- E. apply run_accepts.
  - now apply strip_trailing_all_chars.
  - now apply strip_trailing_double.
  - now apply strip_trailing_end.
  - intros _. split.
    + destruct (starts_with_hyphen (strip_trailing_hyphen u)) eqn:F; [|reflexivity].
      apply strip_trailing_start in F. congruence.
    + rewrite E. discriminate.
Qed.

Lemma baseSlug_shape (name : string) :
  Handlers.baseSlug name = EmptyString \/ matches (Handlers.baseSlug name) = true.
Proof.
  unfold Handlers.baseSlug.
  apply collapsed_stripped_shape. apply all_chars_replace_non_slug.
Qed.

Lemma baseSlug_alnums (name : string) :
  alnums (Handlers.baseSlug name) = alnums (toLowerCase name).
Proof.
  unfold Handlers.baseSlug, replace_runs.
  rewrite alnums_strip_edges.
  rewrite alnums_replace_runs by apply hyphen_not_alnum.
  rewrite alnums_replace_each
    by (auto using non_slug_char_not_alnum).
  rewrite alnums_replace_runs by apply space_not_alnum.
  reflexivity.
Qed.

End SlugLanguage.

(* ================================================================== *)
(** * The base slug of a new project *)
(* ================================================================== *)

Section BaseSlug.
Import Str Props Handlers.

(** The normalisations on the names of the handlers' tests. *)
Example baseSlug_tests :
  baseSlug "A B  C!!" = "a-b-c" /\
  baseSlug "My Awesome App! #2024 (v2.0)" = "my-awesome-app-2024-v2-0" /\
  baseSlug "  Multiple   Spaces  --  And   Dashes  " = "multiple-spaces-and-dashes" /\
  renameSlug "@@@Start and End@@@" = "start-and-end" /\
  sanitizeProjectName "My React App @ 2024!" = "my-react-app-2024".
Proof. repeat split; reflexivity. Qed.

(** C6, the claim as it stands, at the name [!!!]: the base slug is the
    empty string, which the regular expression rejects, and no non-empty
    constant stands in for it. *)
Lemma baseSlug_can_be_empty :
  baseSlug "!!!" = EmptyString /\
  SlugRe.matches (baseSlug "!!!") = false /\
  ~ (exists fallback : string,
        fallback <> EmptyString /\
        forall name, SlugRe.matches (baseSlug name) = true \/ baseSlug name = fallback).
Proof.
  split; [reflexivity|]. split; [reflexivity|].
  intros [fallback [Hne H]].
  destruct (H "!!!") as [Hm | He].
  - discriminate Hm.
  - apply Hne. rewrite <- He. reflexivity.
Qed.

(** C6, amended: for every name, the base slug computed by [createProject]
    matches [^[a-z0-9]+(-[a-z0-9]+)*$] when the lower-cased name has a
    character of [[a-z0-9]], and is the empty string when it has none; there
    is no fallback constant. *)
Theorem baseSlug_slug_or_empty (name : string) :
  (has_alnum (toLowerCase name) = true /\ SlugRe.matches (baseSlug name) = true) \/
  (has_alnum (toLowerCase name) = false /\ baseSlug name = EmptyString).
Proof.
  pose proof (baseSlug_alnums name) as Hal.
  destruct (baseSlug_shape name) as [He | Hm].
  - right. split; [|exact He].
    unfold has_alnum. rewrite <- Hal, He. reflexivity.
  - left. split; [|exact Hm].
    apply matches_has_alnum in Hm. unfold has_alnum in *.
    rewrite <- Hal. exact Hm.
Qed.

End BaseSlug.

(* ================================================================== *)
(** * Parameters in and out of the range of the integer columns *)
(* ================================================================== *)

Section StoreParams.
Import Str Db Props.

Lemma params_ok_one (a : nat) : params_ok [a] = int4 a.
Proof. unfold params_ok. simpl. apply andb_true_r. Qed.

Lemma params_ok_two (a b : nat) : params_ok [a; b] = int4 a && int4 b.
Proof. unfold params_ok. simpl. now rewrite andb_true_r. Qed.

Lemma with_params_ok {A} (params : list nat) (m : M A) (st : Store) :
  params_ok params = true -> with_params params m st = m st.
Proof. unfold with_params. now intros ->. Qed.

Lemma with_params_one {A} (a : nat) (m : M A) (st : Store) :
  int4 a = true -> with_params [a] m st = m st.
Proof. intros H. apply with_params_ok. now rewrite params_ok_one. Qed.

Lemma with_params_two {A} (a b : nat) (m : M A) (st : Store) :
  int4 a = true -> int4 b = true -> with_params [a; b] m st = m st.
Proof. intros Ha Hb. apply with_params_ok. now rewrite params_ok_two, Ha, Hb. Qed.

Lemma with_params_none {A} (m : M A) (st : Store) : with_params [] m st = m st.
Proof. reflexivity. Qed.

Lemma with_params_rejected {A} (params : list nat) (m : M A) (st : Store) :
  params_ok params = false ->
  with_params params m st = (inl (OutOfRange "integer"), st).
Proof. unfold with_params. now intros ->. Qed.

(** 2^31 is out of range, and is no id of the example stores. *)
Lemma int4_beyond : int4 beyond_int4 = false.
Proof. unfold int4, beyond_int4. rewrite N2Nat.id. reflexivity. Qed.

Lemma beyond_int4_not_small (n : nat) : int4 n = true -> n <> beyond_int4.
Proof. intros H ->. rewrite int4_beyond in H. discriminate. Qed.

End StoreParams.

(* ================================================================== *)
(** * Project creation: the owner check and the search for a free slug *)
(* ================================================================== *)

Section CreateProject.
Import Str Db Props Handlers.

Lemma filter_length_zero {A} (f : A -> bool) (l : list A) :
  (length (filter f l) =? 0)%nat = negb (existsb f l).
Proof.
  induction l as [|x l IH]; simpl; [reflexivity|].
  destruct (f x); simpl; [reflexivity | exact IH].
Qed.

Lemma existsb_false_iff {A} (f : A -> bool) (l : list A) :
  existsb f l = false <-> forall x, In x l -> f x = false.
Proof.
  split.
  - intros H x Hx. destruct (f x) eqn:E; [|reflexivity].
    rewrite <- H. symmetry. apply existsb_exists. now exists x.
  - intros H. destruct (existsb f l) eqn:E; [|reflexivity].
    apply existsb_exists in E. destruct E as [x [Hx Hf]].
    rewrite (H x Hx) in Hf. discriminate.
Qed.

(** C10: when no stored user has the id [input.user_id], [createProject]
    throws before a slug is looked for or a row inserted, and the store (so
    the table of projects) is as it was.  The error is the handler's own when
    the id is in the range of the [integer] column; beyond it the query for
    the user is rejected by the store and that error is rethrown. *)
Theorem createProject_unknown_user (input : CreateProjectInput) (st : Store) :
  (forall u, In u (users st) -> u_id u <> cp_user_id input) ->
  createProject input st =
    (inl (if int4 (cp_user_id input)
          then Err ("User with ID " ++ of_nat (cp_user_id input) ++ " does not exist")
          else OutOfRange "integer"), st).
Proof.
  intros Hno. unfold createProject, bind, select_users, with_params.
  rewrite params_ok_one.
  destruct (int4 (cp_user_id input)); [|reflexivity].
  rewrite filter_length_zero.
  replace (existsb (fun u => (u_id u =? cp_user_id input)%nat) (users st)) with false.
  - reflexivity.
  - symmetry. apply existsb_false_iff. intros u Hu.
    apply Nat.eqb_neq. now apply Hno.
Qed.

(** The theorem at the example store, which has no user 99. *)
Lemma createProject_unknown_user_witness :
  (forall u, In u (users demo_store) -> u_id u <> 99) /\
  createProject (mkCreateProjectInput 99 "Test Project" None "Build an app") demo_store =
    (inl (Err "User with ID 99 does not exist"), demo_store).
Proof.
  assert (H : forall u, In u (users demo_store) -> u_id u <> 99)
    by (intros u [<-|[]]; discriminate).
  split; [exact H|].
  exact (createProject_unknown_user
           (mkCreateProjectInput 99 "Test Project" None "Build an app") demo_store H).
Defined.

(** *** Candidates are pairwise distinct *)

Lemma length_append (a b : string) :
  String.length (a ++ b) = String.length a + String.length b.
Proof. induction a as [|c a IH]; simpl; [reflexivity | now rewrite IH]. Qed.

Lemma append_cancel_l (a b c : string) : a ++ b = a ++ c -> b = c.
Proof.
  induction a as [|x a IH]; simpl; intros H; [exact H|].
  injection H as H. now apply IH.
Qed.

Lemma of_nat_inj (i j : nat) : of_nat i = of_nat j -> i = j.
Proof.
  unfold of_nat. intros H.
  assert (E : Some (Nat.to_uint i) = Some (Nat.to_uint j)).
  { rewrite <- !NilEmpty.usu. now rewrite H. }
  injection E as E.
  rewrite <- (Unsigned.of_to i), <- (Unsigned.of_to j). now rewrite E.
Qed.

Lemma candidate_inj (base : string) (i j : nat) :
  candidate base i = candidate base j -> i = j.
Proof.
  destruct i as [|i], j as [|j]; simpl; intros H.
  - reflexivity.
  - exfalso. apply (f_equal String.length) in H.
    rewrite length_append in H. simpl in H. lia.
  - exfalso. apply (f_equal String.length) in H.
    rewrite length_append in H. simpl in H. lia.
  - apply append_cancel_l in H. injection H as H. now apply of_nat_inj.
Qed.

Lemma candidate_next (base : string) (k : nat) :
  base ++ "-" ++ of_nat (S k) = candidate base (S k).
Proof. reflexivity. Qed.

(** *** The loop returns the first free candidate *)

Lemma uniqueSlugLoop_step (fuel : nat) (base slug : string) (counter : nat) (st : Store) :
  uniqueSlugLoop (S fuel) base slug counter st =
    if slug_taken st slug
    then uniqueSlugLoop fuel base (base ++ "-" ++ of_nat counter) (S counter) st
    else (inr slug, st).
Proof.
  cbn [uniqueSlugLoop]. unfold bind at 1. unfold select_projects.
  rewrite with_params_none.
  rewrite filter_length_zero. unfold slug_taken.
  destruct (existsb (fun p => p_slug p =? slug) (projects st)); reflexivity.
Qed.

Lemma uniqueSlugLoop_finds (base : string) (st : Store) (j : nat) :
  slug_taken st (candidate base j) = false ->
  (forall i, i < j -> slug_taken st (candidate base i) = true) ->
  forall fuel k,
    k <= j -> j - k < fuel ->
    uniqueSlugLoop fuel base (candidate base k) (S k) st =
      (inr (candidate base j), st).
Proof.
  intros Hfree Hbelow. induction fuel as [|fuel IH]; intros k Hk Hfuel; [lia|].
  rewrite uniqueSlugLoop_step.
  destruct (Nat.eq_dec k j) as [->|Hne].
  - rewrite Hfree. reflexivity.
  - rewrite Hbelow by lia.
    rewrite candidate_next. apply IH; lia.
Qed.

(** Among the first [length (projects st) + 1] candidates one is free. *)
Lemma free_candidate_exists (base : string) (st : Store) :
  exists j, j <= length (projects st) /\
            slug_taken st (candidate base j) = false /\
            forall i, i < j -> slug_taken st (candidate base i) = true.
Proof.
  set (n := length (projects st)).
  assert (Hsome : exists j, j <= n /\ slug_taken st (candidate base j) = false).
  { destruct (forallb (fun i => slug_taken st (candidate base i)) (seq 0 (S n))) eqn:E.
    - exfalso.
      assert (Hincl : incl (map (candidate base) (seq 0 (S n))) (map p_slug (projects st))).
      { intros s Hs. apply in_map_iff in Hs. destruct Hs as [i [<- Hi]].
        rewrite forallb_forall in E. specialize (E i Hi).
        unfold slug_taken in E. apply existsb_exists in E.
        destruct E as [p [Hp Hq]]. apply String.eqb_eq in Hq.
        apply in_map_iff. now exists p. }
      assert (Hnd : NoDup (map (candidate base) (seq 0 (S n)))).
      { apply Injective_map_NoDup.
        - intros a b. apply candidate_inj.
        - apply seq_NoDup. }
      pose proof (NoDup_incl_length Hnd Hincl) as Hlen.
      rewrite !length_map, length_seq in Hlen. unfold n in Hlen. lia.
    - assert (Hex : existsb (fun i => negb (slug_taken st (candidate base i))) (seq 0 (S n)) = true).
      { clear -E. induction (seq 0 (S n)) as [|a l IH]; simpl in *; [discriminate|].
        destruct (slug_taken st (candidate base a)); simpl in *; [now apply IH | reflexivity]. }
      apply existsb_exists in Hex. destruct Hex as [j [Hj Hf]].
      apply in_seq in Hj. apply negb_true_iff in Hf.
      exists j. split; [lia | exact Hf]. }
  destruct Hsome as [j0 [Hj0 Hf0]].
  clear -Hj0 Hf0. revert Hf0. revert Hj0.
  induction j0 as [j0 IH] using lt_wf_ind. intros Hj0 Hf0.
  destruct (forallb (fun i => slug_taken st (candidate base i)) (seq 0 j0)) eqn:E.
  - exists j0. split; [exact Hj0|]. split; [exact Hf0|].
    intros i Hi. rewrite forallb_forall in E. apply E. apply in_seq. lia.
  - assert (Hex : exists i, i < j0 /\ slug_taken st (candidate base i) = false).
    { clear -E. induction j0 as [|j IH]; [discriminate|].
      rewrite seq_S, forallb_app in E. simpl in E.
      apply andb_false_iff in E. destruct E as [E|E].
      - destruct (IH E) as [i [Hi Hf]]. exists i. split; [lia | exact Hf].
      - rewrite andb_true_r in E. exists j. split; [lia | exact E]. }
    destruct Hex as [i [Hi Hf]].
    apply (IH i Hi); [lia | exact Hf].
Qed.

Lemma uniqueSlug_terminates (base : string) (st : Store) :
  exists j,
    uniqueSlug base st = (inr (candidate base j), st) /\
    slug_taken st (candidate base j) = false /\
    forall i, i < j -> slug_taken st (candidate base i) = true.
Proof.
  destruct (free_candidate_exists base st) as [j (Hj & Hfree & Hbelow)].
  exists j. split; [|split; assumption].
  unfold uniqueSlug.
  apply (uniqueSlugLoop_finds base st j Hfree Hbelow (S (length (projects st))) 0); lia.
Qed.

(** The row [createProject] inserts and the store it leaves. *)
Lemma createProject_first_free (input : CreateProjectInput) (st : Store) :
  int4 (cp_user_id input) = true ->
  user_known st (cp_user_id input) = true ->
  exists k,
    let slug := candidate (baseSlug (cp_name input)) k in
    let row := mkProject (projects_seq st) (cp_user_id input) (cp_name input)
                 (cp_description input) (cp_ai_prompt input) slug false None
                 (clock st) (clock st) in
    createProject input st =
      (inr row,
       mkStore (users st) (projects st ++ [row])%list (files st)
         (chat_messages st) (deployments st)
         (S (projects_seq st)) (files_seq st) (clock st)) /\
    slug_taken st slug = false /\
    forall i, i < k -> slug_taken st (candidate (baseSlug (cp_name input)) i) = true.
Proof.
  intros Hid Hu.
  destruct (uniqueSlug_terminates (baseSlug (cp_name input)) st)
    as [k (Hloop & Hfree & Hbelow)].
  exists k. cbv zeta. split; [|split; assumption].
  unfold createProject. unfold bind at 1. unfold select_users.
  rewrite (with_params_one _ _ _ Hid).
  rewrite filter_length_zero.
  change (existsb (fun u => (u_id u =? cp_user_id input)%nat) (users st))
    with (user_known st (cp_user_id input)).
  rewrite Hu. cbn [negb]. unfold bind. rewrite Hloop.
  unfold insert_project. cbn [np_user_id np_slug np_name np_description
    np_ai_prompt np_is_deployed np_deployment_url].
  rewrite (with_params_one _ _ _ Hid).
  cbn [np_user_id np_slug np_name np_description
    np_ai_prompt np_is_deployed np_deployment_url].
  change (existsb (fun u => (u_id u =? cp_user_id input)%nat) (users st))
    with (user_known st (cp_user_id input)).
  rewrite Hu. cbn [negb].
  change (existsb (fun p => p_slug p =? candidate (baseSlug (cp_name input)) k) (projects st))
    with (slug_taken st (candidate (baseSlug (cp_name input)) k)).
  rewrite Hfree. reflexivity.
Qed.

Lemma slug_taken_after_insert (st : Store) (row : Project) (s : string)
      (us : list User) (fs : list File) (ms : list ChatMessage)
      (ds : list Deployment) (a b c : nat) :
  slug_taken (mkStore us (projects st ++ [row])%list fs ms ds a b c) s =
  slug_taken st s || (p_slug row =? s).
Proof.
  unfold slug_taken. cbn [projects]. rewrite existsb_app. simpl.
  now rewrite orb_false_r.
Qed.

(** [n] creations in a row, from a store where the candidates below [m] are
    all taken: the slugs are candidates of strictly increasing index, none
    below [m]; they are the next [n] candidates when these were all free. *)
Lemma createMany_indices (input : CreateProjectInput) (n : nat) :
  forall (m : nat) (st : Store),
    int4 (cp_user_id input) = true ->
    user_known st (cp_user_id input) = true ->
    (forall i, i < m -> slug_taken st (candidate (baseSlug (cp_name input)) i) = true) ->
    exists ks ps st',
      createMany input n st = (inr ps, st') /\
      map p_slug ps = map (candidate (baseSlug (cp_name input))) ks /\
      StronglySorted lt ks /\
      Forall (fun k => m <= k) ks /\
      ((forall i, m <= i < m + n ->
                  slug_taken st (candidate (baseSlug (cp_name input)) i) = false) ->
       ks = seq m n).
Proof.
  set (base := baseSlug (cp_name input)).
  induction n as [|n IH]; intros m st Hid Hu Hm.
  - exists [], [], st. repeat split; constructor.
  - destruct (createProject_first_free input st Hid Hu) as [k (Hc & Hfree & Hbelow)].
    cbv zeta in Hc, Hfree. fold base in Hc, Hfree, Hbelow.
    set (row := mkProject (projects_seq st) (cp_user_id input) (cp_name input)
                  (cp_description input) (cp_ai_prompt input) (candidate base k)
                  false None (clock st) (clock st)) in *.
    set (st1 := mkStore (users st) (projects st ++ [row])%list (files st)
                  (chat_messages st) (deployments st)
                  (S (projects_seq st)) (files_seq st) (clock st)) in *.
    assert (Hmk : m <= k).
    { destruct (le_lt_dec m k) as [H|H]; [exact H|].
      rewrite (Hm k H) in Hfree. discriminate. }
    assert (Hu1 : user_known st1 (cp_user_id input) = true) by exact Hu.
    assert (Ht1 : forall s, slug_taken st1 s = slug_taken st s || (candidate base k =? s)).
    { intros s. unfold st1. rewrite slug_taken_after_insert. reflexivity. }
    assert (Hm1 : forall i, i < S k -> slug_taken st1 (candidate base i) = true).
    { intros i Hi. rewrite Ht1.
      destruct (Nat.eq_dec i k) as [->|Hne].
      - rewrite String.eqb_refl. apply orb_true_r.
      - rewrite Hbelow by lia. reflexivity. }
    destruct (IH (S k) st1 Hid Hu1 Hm1)
      as (ks & ps & st' & Hrun & Hslugs & Hsort & Hge & Hseq).
    exists (k :: ks), (row :: ps), st'. split; [|split; [|split; [|split]]].
    + cbn [createMany]. unfold bind at 1. rewrite Hc.
      unfold bind at 1. rewrite Hrun. reflexivity.
    + cbn [map]. rewrite Hslugs. reflexivity.
    + constructor; [exact Hsort|].
      eapply Forall_impl; [|exact Hge]. intros a Ha. exact Ha.
    + constructor; [exact Hmk|].
      eapply Forall_impl; [|exact Hge]. intros a Ha. cbv beta in Ha. lia.
    + intros Hfree_all.
      assert (Hkm : k = m).
      { destruct (Nat.eq_dec k m) as [E|E]; [exact E|]. exfalso.
        assert (Hlt : m < k) by lia.
        specialize (Hbelow m Hlt).
        rewrite (Hfree_all m) in Hbelow by lia. discriminate. }
      subst k. cbn [seq]. f_equal. apply Hseq.
      intros i Hi. rewrite Ht1. rewrite Hfree_all by lia.
      cbn [orb]. apply String.eqb_neq. intros E.
      apply candidate_inj in E. lia.
Qed.

(** C4: for every name and every store that has the owner (whose id, being
    stored, is in the range of the [integer] column), [createProject]
    stores the first candidate of the sequence base, base-1, base-2, ... that
    no stored project carries; and [n] creations with the same name in a row
    yield candidates of strictly increasing index (so no suffix is reused),
    which are base, base-1, ..., base-(n-1) when none of these was taken at
    the start. *)
Theorem createProject_slug_sequence (input : CreateProjectInput) (st : Store) :
  int4 (cp_user_id input) = true ->
  user_known st (cp_user_id input) = true ->
  (exists k p st',
      createProject input st = (inr p, st') /\
      projects st' = (projects st ++ [p])%list /\
      p_slug p = candidate (baseSlug (cp_name input)) k /\
      slug_taken st (candidate (baseSlug (cp_name input)) k) = false /\
      forall i, i < k -> slug_taken st (candidate (baseSlug (cp_name input)) i) = true) /\
  (forall n,
      exists ks ps st',
        createMany input n st = (inr ps, st') /\
        map p_slug ps = map (candidate (baseSlug (cp_name input))) ks /\
        StronglySorted lt ks /\
        ((forall i, i < n ->
                    slug_taken st (candidate (baseSlug (cp_name input)) i) = false) ->
         ks = seq 0 n)).
Proof.
  intros Hid Hu. split.
  - destruct (createProject_first_free input st Hid Hu) as [k (Hc & Hfree & Hbelow)].
    cbv zeta in Hc, Hfree.
    eexists k, _, _. split; [exact Hc|].
    split; [reflexivity|]. split; [reflexivity|]. split; assumption.
  - intros n.
    destruct (createMany_indices input n 0 st Hid Hu) as (ks & ps & st' & H1 & H2 & H3 & _ & H5).
    { intros i Hi. lia. }
    exists ks, ps, st'. repeat split; try assumption.
    intros Hfree. apply H5. intros i Hi. apply Hfree. lia.
Qed.

(** The theorem at the example store, where [test-project] is taken. *)
Lemma createProject_slug_sequence_witness :
  int4 (cp_user_id demo_create_input) = true /\
  user_known demo_store (cp_user_id demo_create_input) = true /\
  ((exists k p st',
      createProject demo_create_input demo_store = (inr p, st') /\
      projects st' = (projects demo_store ++ [p])%list /\
      p_slug p = candidate (baseSlug (cp_name demo_create_input)) k /\
      slug_taken demo_store (candidate (baseSlug (cp_name demo_create_input)) k) = false /\
      forall i, i < k ->
        slug_taken demo_store (candidate (baseSlug (cp_name demo_create_input)) i) = true) /\
   (forall n,
      exists ks ps st',
        createMany demo_create_input n demo_store = (inr ps, st') /\
        map p_slug ps = map (candidate (baseSlug (cp_name demo_create_input))) ks /\
        StronglySorted lt ks /\
        ((forall i, i < n ->
            slug_taken demo_store (candidate (baseSlug (cp_name demo_create_input)) i) = false) ->
         ks = seq 0 n))).
Proof.
  split; [reflexivity|]. split; [reflexivity|].
  apply (createProject_slug_sequence demo_create_input demo_store); reflexivity.
Defined.

(** The slugs of three creations named Test Project after the first. *)
Example createMany_demo :
  exists ps st',
    createMany demo_create_input 3 demo_store = (inr ps, st') /\
    map p_slug ps = ["test-project-1"; "test-project-2"; "test-project-3"].
Proof. eexists _, _. split; reflexivity. Qed.

End CreateProject.

(* ================================================================== *)
(** * Deleting and renaming projects *)
(* ================================================================== *)

Section ProjectStore.
Import Str Db Props Handlers.

(** C7, as the claim has it, fails beyond the range of the [integer]
    columns: no project of the example store has the id 2^31, yet
    [deleteProject] does not return [false] for it; the query is rejected by
    the store and the handler rethrows that error. *)
Lemma deleteProject_id_out_of_range :
  (forall p, In p (projects demo_store) ->
             ~ (p_id p = beyond_int4 /\ p_user_id p = 1)) /\
  deleteProject beyond_int4 1 demo_store =
    (inl (OutOfRange "integer"), demo_store).
Proof.
  split.
  - intros p [<-|[]] [E _]. revert E. apply beyond_int4_not_small. reflexivity.
  - unfold deleteProject, bind, select_projects.
    rewrite with_params_rejected; [reflexivity|].
    rewrite params_ok_two, int4_beyond. reflexivity.
Qed.

(** C7: when no stored project has both the id and the owner given,
    [deleteProject] leaves the whole store as it was: the project row, if it
    exists under another owner, and every file, chat message and deployment.
    It returns [false] and throws nothing when both ids are in the range of
    the [integer] columns, and rethrows the store's error when one is not. *)
Theorem deleteProject_wrong_owner (projectId userId : nat) (st : Store) :
  (forall p, In p (projects st) -> ~ (p_id p = projectId /\ p_user_id p = userId)) ->
  deleteProject projectId userId st =
    (if int4 projectId && int4 userId then inr false else inl (OutOfRange "integer"),
     st).
Proof.
  intros Hno. unfold deleteProject, bind, select_projects, with_params.
  rewrite params_ok_two.
  destruct (int4 projectId && int4 userId); [|reflexivity].
  rewrite filter_length_zero.
  replace (existsb (fun p => (p_id p =? projectId)%nat && (p_user_id p =? userId)%nat)
             (projects st)) with false.
  - reflexivity.
  - symmetry. apply existsb_false_iff. intros p Hp.
    apply andb_false_iff.
    destruct (Nat.eq_dec (p_id p) projectId) as [E1|E1];
      destruct (Nat.eq_dec (p_user_id p) userId) as [E2|E2].
    + elim (Hno p Hp). now split.
    + right. now apply Nat.eqb_neq.
    + left. now apply Nat.eqb_neq.
    + left. now apply Nat.eqb_neq.
Qed.

(** The theorem at the example store: project 1 belongs to user 1, and
    user 2 asks for its deletion. *)
Lemma deleteProject_wrong_owner_witness :
  (forall p, In p (projects demo_store) -> ~ (p_id p = 1 /\ p_user_id p = 2)) /\
  deleteProject 1 2 demo_store = (inr false, demo_store).
Proof.
  assert (H : forall p, In p (projects demo_store) -> ~ (p_id p = 1 /\ p_user_id p = 2)).
  { intros p [<-|[]] [_ E]. discriminate E. }
  split; [exact H | exact (deleteProject_wrong_owner 1 2 demo_store H)].
Defined.

(** The owner's own request does delete the row. *)
Example deleteProject_owner :
  deleteProject 1 1 demo_store =
    (inr true, mkStore [demo_user] [] [] [] [] 2 1 5).
Proof. reflexivity. Qed.

(** [updateProject] writes [renameSlug name] as it is: no candidate with a
    suffix is tried. *)
Lemma updateProject_slug (input : UpdateProjectInput) (st st' : Store)
      (p : Project) (newName : string) :
  up_name input = Some newName ->
  updateProject input st = (inr (Some p), st') ->
  p_slug p = renameSlug newName.
Proof.
  intros Hn.
  unfold updateProject, bind, select_projects, now, update_projects, ret, with_params.
  destruct (params_ok [up_id input]); [|discriminate].
  destruct (length (filter (fun p0 => (p_id p0 =? up_id input)%nat) (projects st)) =? 0)%nat;
    [discriminate|].
  match goal with |- context [if ?c then _ else _] => destruct c end; [|discriminate].
  intros H. injection H as H _.
  destruct (filter (fun p0 => (p_id p0 =? up_id input)%nat) (projects st)) as [|q qs];
    [discriminate|].
  simpl in H. injection H as <-. simpl. rewrite Hn. reflexivity.
Qed.

(** The store's unique constraint is what keeps slugs distinct across an
    update: the statement is rejected when the new slug is another row's. *)
Lemma updateProject_keeps_slugs_unique (input : UpdateProjectInput) (st st' : Store)
      (r : Error + option Project) :
  slugs_unique (projects st) = true ->
  updateProject input st = (r, st') ->
  slugs_unique (projects st') = true.
Proof.
  intros Hu.
  unfold updateProject, bind, select_projects, now, update_projects, ret, with_params.
  destruct (params_ok [up_id input]); [|intros H; injection H as _ <-; exact Hu].
  destruct (length (filter (fun p0 => (p_id p0 =? up_id input)%nat) (projects st)) =? 0)%nat.
  - intros H. injection H as _ <-. exact Hu.
  - match goal with |- context [if ?c then _ else _] => destruct c eqn:E end.
    + intros H. injection H as _ <-. exact E.
    + intros H. injection H as _ <-. exact Hu.
Qed.

(** C5, at a rename of project 2 to the name of project 1: the recomputed
    slug is the slug of project 1, no other candidate is tried, and the call
    ends in the store's unique-constraint error, the store unchanged. *)
Theorem updateProject_rename_collides :
  renameSlug "Test Project" = p_slug demo_project /\
  updateProject rename_to_first two_projects_store =
    (inl (UniqueViolation "projects_slug_unique"), two_projects_store).
Proof. split; reflexivity. Qed.

(** [createProject] with the same name, on the same store, picks a free
    candidate instead. *)
Example createProject_same_name :
  exists p st',
    createProject demo_create_input two_projects_store = (inr p, st') /\
    p_slug p = "test-project-1".
Proof. eexists _, _. split; reflexivity. Qed.

End ProjectStore.

(* ================================================================== *)
(** * The file tree: creation *)
(* ================================================================== *)

Section CreateFile.
Import Str Db Props Handlers.

Lemma createFile_inserts (input : CreateFileInput) (st : Store) :
  int4 (cf_project_id input) = true ->
  (exists p, In p (projects st) /\ p_id p = cf_project_id input) ->
  let row := mkFile (files_seq st) (cf_project_id input) (cf_path input)
               (cf_name input) (cf_content input) (cf_is_folder input)
               (cf_parent_path input) (clock st) (clock st) in
  createFile input st =
    (inr row,
     mkStore (users st) (projects st) (files st ++ [row])%list
       (chat_messages st) (deployments st)
       (projects_seq st) (S (files_seq st)) (clock st)).
Proof.
  intros Hrange [p [Hp Hid]] row.
  assert (He : existsb (fun q => (p_id q =? cf_project_id input)%nat) (projects st) = true).
  { apply existsb_exists. exists p. split; [exact Hp | now apply Nat.eqb_eq]. }
  unfold createFile, bind, select_projects.
  rewrite (with_params_one _ _ _ Hrange).
  rewrite filter_length_zero, He. cbn [negb].
  unfold insert_file. cbn [nf_project_id].
  rewrite (with_params_one _ _ _ Hrange).
  cbn [nf_project_id]. rewrite He. reflexivity.
Qed.

(** C8, the claim as it stands, at a file under [/src] created in a project
    that has no node: the parent path names no stored folder, the call
    succeeds all the same, and the stored node breaks the tree invariant. *)
Lemma createFile_stores_orphan :
  tree_invariant demo_store /\
  ~ names_folder demo_store (cf_project_id app_js_input) (cf_parent_path app_js_input) /\
  exists f st',
    createFile app_js_input demo_store = (inr f, st') /\
    In f (files st') /\
    f_parent_path f = Some "/src" /\
    ~ tree_invariant st'.
Proof.
  split; [intros f []|].
  split; [intros [g [[] _]]|].
  eexists _, _. split; [reflexivity|].
  split; [left; reflexivity|]. split; [reflexivity|].
  intros Hinv.
  destruct (Hinv _ (or_introl eq_refl) "/src" eq_refl) as [g [Hg [Hne _]]].
  destruct Hg as [<-|[]]. now apply Hne.
Qed.

(** C8, amended: [createFile] checks that the project exists and nothing
    else; it stores the node with the parent path it was given.  The tree
    invariant is kept when that parent path is null or names a stored folder
    of the same project.  (The id of the project, being stored, is in the
    range of the [integer] column.) *)
Theorem createFile_keeps_tree (input : CreateFileInput) (st : Store) :
  int4 (cf_project_id input) = true ->
  (exists p, In p (projects st) /\ p_id p = cf_project_id input) ->
  (forall f, In f (files st) -> f_id f < files_seq st) ->
  tree_invariant st ->
  names_folder st (cf_project_id input) (cf_parent_path input) ->
  exists f st',
    createFile input st = (inr f, st') /\
    files st' = (files st ++ [f])%list /\
    f_project_id f = cf_project_id input /\
    f_path f = cf_path input /\
    f_is_folder f = cf_is_folder input /\
    f_parent_path f = cf_parent_path input /\
    tree_invariant st'.
Proof.
  intros Hrange Hp Hfresh Hinv Hpar.
  pose proof (createFile_inserts input st Hrange Hp) as Hc. cbv zeta in Hc.
  eexists _, _. split; [exact Hc|].
  repeat (split; [reflexivity|]).
  intros f Hf parent Hparent. cbn [files] in Hf |- *.
  apply in_app_or in Hf. destruct Hf as [Hf | [<- | []]].
  - destruct (Hinv f Hf parent Hparent) as [g (Hg & Hne & Hrest)].
    exists g. split; [apply in_or_app; now left|]. split; assumption.
  - cbn [f_parent_path] in Hparent. rewrite Hparent in Hpar.
    destruct Hpar as [g (Hg & Hpid & Hfolder & Hpath)].
    exists g. split; [apply in_or_app; now left|].
    split; [|split; [exact Hpid | split; assumption]].
    intros E. specialize (Hfresh g Hg). rewrite E in Hfresh.
    cbn [f_id] in Hfresh. lia.
Qed.

(** The theorem at the store that has the folder [/src], for a file under
    it. *)
Lemma createFile_keeps_tree_witness :
  int4 (cf_project_id app_js_input) = true /\
  (exists p, In p (projects src_store) /\ p_id p = cf_project_id app_js_input) /\
  (forall f, In f (files src_store) -> f_id f < files_seq src_store) /\
  tree_invariant src_store /\
  names_folder src_store (cf_project_id app_js_input) (cf_parent_path app_js_input) /\
  exists f st',
    createFile app_js_input src_store = (inr f, st') /\
    files st' = (files src_store ++ [f])%list /\
    f_project_id f = cf_project_id app_js_input /\
    f_path f = cf_path app_js_input /\
    f_is_folder f = cf_is_folder app_js_input /\
    f_parent_path f = cf_parent_path app_js_input /\
    tree_invariant st'.
Proof.
  assert (H1 : exists p, In p (projects src_store) /\ p_id p = cf_project_id app_js_input)
    by (exists demo_project; split; [left; reflexivity | reflexivity]).
  assert (H2 : forall f, In f (files src_store) -> f_id f < files_seq src_store)
    by (intros f [<-|[]]; simpl; lia).
  assert (H3 : tree_invariant src_store)
    by (intros f [<-|[]] parent E; discriminate E).
  assert (H4 : names_folder src_store (cf_project_id app_js_input)
                 (cf_parent_path app_js_input))
    by (exists src_folder; repeat split; left; reflexivity).
  split; [reflexivity|].
  split; [exact H1|]. split; [exact H2|]. split; [exact H3|]. split; [exact H4|].
  exact (createFile_keeps_tree app_js_input src_store eq_refl H1 H2 H3 H4).
Defined.

(** The other inputs: when the parent path is not null and names no stored
    folder of the project, the node is stored all the same, and the tree
    invariant does not hold afterwards. *)
Lemma createFile_breaks_tree (input : CreateFileInput) (st : Store) (parent : string) :
  int4 (cf_project_id input) = true ->
  (exists p, In p (projects st) /\ p_id p = cf_project_id input) ->
  cf_parent_path input = Some parent ->
  ~ names_folder st (cf_project_id input) (Some parent) ->
  exists f st',
    createFile input st = (inr f, st') /\
    In f (files st') /\
    f_parent_path f = Some parent /\
    ~ tree_invariant st'.
Proof.
  intros Hrange Hp Hparent Hno.
  pose proof (createFile_inserts input st Hrange Hp) as Hc. cbv zeta in Hc.
  eexists _, _. split; [exact Hc|]. cbn [files].
  split; [apply in_or_app; right; left; reflexivity|].
  split; [exact Hparent|].
  intros Hinv.
  set (row := mkFile (files_seq st) (cf_project_id input) (cf_path input)
                (cf_name input) (cf_content input) (cf_is_folder input)
                (cf_parent_path input) (clock st) (clock st)) in *.
  assert (Hrow : In row (files st ++ [row])%list)
    by (apply in_or_app; right; left; reflexivity).
  destruct (Hinv row Hrow parent Hparent)
    as [g (Hg & Hne & Hpid & Hfolder & Hpath)].
  cbn [files] in Hg. cbn [row f_project_id] in Hpid.
  apply in_app_or in Hg. destruct Hg as [Hg | [E | []]].
  - apply Hno. now exists g.
  - apply Hne. now symmetry.
Qed.

End CreateFile.

(* ================================================================== *)
(** * The file tree: deleting a folder *)
(* ================================================================== *)

Section DeleteFile.
Import Str Db Props Handlers.

Lemma startsWith_iff (s p : string) :
  startsWith s p = true <-> exists rest, s = p ++ rest.
Proof.
  revert s. induction p as [|a p IH]; intros s; simpl.
  - split; [intros _; now exists s | reflexivity].
  - destruct s as [|b s].
    + split; [discriminate | intros [rest H]; discriminate H].
    + rewrite andb_true_iff, IH. split.
      * intros [Hab [rest ->]]. apply Ascii.eqb_eq in Hab. subst b. now exists rest.
      * intros [rest H]. injection H as -> ->.
        split; [apply Ascii.eqb_refl | now exists rest].
Qed.

Lemma like_percent (s : string) : like "%" s = true.
Proof.
  induction s as [|c s IH]; [reflexivity|].
  change (like "%" (String c s)) with (like EmptyString (String c s) || like "%" s).
  rewrite IH. apply orb_true_r.
Qed.

Example like_tests :
  like "/src/%" "/src/nested/deep.ts" = true /\
  like "/src/%" "/src2/b.ts" = false /\
  like "/src/%" "/src" = false /\
  like "/a_b/%" "/axb/keep.ts" = true.
Proof. repeat split; reflexivity. Qed.

(** A pattern that ends in [%] has no dangling escape. *)
Lemma like_pattern_well_formed (p : string) :
  dangling_escape (p ++ "%") = false.
Proof.
  enough (H : dangling_escape (p ++ "%") = false /\
              forall c, dangling_escape (String c (p ++ "%")) = false) by apply H.
  induction p as [|d p [IH1 IH2]].
  - split; [reflexivity|]. intros c. simpl. destruct (c =? "\")%char; reflexivity.
  - split; [apply IH2|]. intros c.
    change (String d p ++ "%") with (String d (p ++ "%")).
    cbn [dangling_escape]. destruct (c =? "\")%char; [exact IH1 | apply IH2].
Qed.

(** On a pattern without [%], [_] and backslash, followed by [%], [LIKE] is
    the prefix test. *)
Lemma like_prefix (p : string) :
  plain_for_like p = true ->
  forall s, like (p ++ "%") s = startsWith s p.
Proof.
  unfold plain_for_like.
  induction p as [|c p IH]; intros Hp s.
  - simpl append. rewrite like_percent. reflexivity.
  - simpl in Hp. apply andb_true_iff in Hp. destruct Hp as [Hc Hp].
    unfold like_meta in Hc. apply negb_true_iff in Hc.
    apply orb_false_iff in Hc. destruct Hc as [Hc H3].
    apply orb_false_iff in Hc. destruct Hc as [H1 H2].
    change (String c p ++ "%") with (String c (p ++ "%")).
    cbn [like]. rewrite H1, H2, H3.
    destruct s as [|d s]; [reflexivity|].
    cbn [startsWith]. rewrite (IH Hp). reflexivity.
Qed.

Lemma all_chars_append (q : ascii -> bool) (a b : string) :
  all_chars q (a ++ b) = all_chars q a && all_chars q b.
Proof.
  induction a as [|c a IH]; simpl; [reflexivity|].
  rewrite IH. apply andb_assoc.
Qed.

Lemma folderPathOf_plain (path : string) :
  plain_for_like path = true -> plain_for_like (folderPathOf path) = true.
Proof.
  unfold folderPathOf, plain_for_like. intros H.
  destruct (endsWithChar path "/"); [exact H|].
  rewrite all_chars_append, H. reflexivity.
Qed.

Lemma filter_filter_and {A} (f g : A -> bool) (l : list A) :
  filter f (filter g l) = filter (fun x => g x && f x) l.
Proof.
  induction l as [|x l IH]; simpl; [reflexivity|].
  destruct (g x); simpl; [destruct (f x)|]; now rewrite IH.
Qed.

(** The primary key: a stored row is the only one with its id. *)
Lemma row_by_id (l : list File) (F r : File) :
  NoDup (map f_id l) -> In F l -> In r l -> f_id r = f_id F -> r = F.
Proof.
  induction l as [|x l IH]; intros Hnd HF Hr Hid; [contradiction|].
  simpl in Hnd. inversion Hnd as [|? ? Hx Hnd']; subst.
  destruct HF as [->|HF], Hr as [->|Hr].
  - reflexivity.
  - elim Hx. rewrite <- Hid. now apply in_map.
  - elim Hx. rewrite Hid. now apply in_map.
  - now apply IH.
Qed.

Lemma same_row_iff (l : list File) (F r : File) :
  NoDup (map f_id l) -> In F l -> In r l ->
  (same_row F r = true <-> r = F).
Proof.
  intros Hnd HF Hr. unfold same_row. split.
  - intros H. apply andb_true_iff in H. destruct H as [H _].
    apply Nat.eqb_eq in H. now apply (row_by_id l).
  - intros ->. now rewrite !Nat.eqb_refl.
Qed.

Lemma select_by_key (l : list File) (F : File) :
  NoDup (map f_id l) -> In F l ->
  exists rest, filter (same_row F) l = F :: rest.
Proof.
  intros Hnd HF.
  assert (Hin : In F (filter (same_row F) l)).
  { apply filter_In. split; [exact HF|]. now apply (same_row_iff l F F). }
  destruct (filter (same_row F) l) as [|x rest] eqn:E; [contradiction|].
  exists rest. f_equal.
  assert (Hx : In x (filter (same_row F) l)) by (rewrite E; now left).
  apply filter_In in Hx. destruct Hx as [Hx Hs].
  now apply (same_row_iff l F x).
Qed.

(** What [deleteFile] leaves of the table of files when the target is a
    folder: the rows that pass neither of the two [delete] conditions. *)
Lemma deleteFile_folder_files (st : Store) (F : File) :
  int4 (f_id F) = true ->
  int4 (f_project_id F) = true ->
  In F (files st) ->
  f_is_folder F = true ->
  NoDup (map f_id (files st)) ->
  exists b,
    deleteFile (f_id F) (f_project_id F) st =
      (inr b,
       mkStore (users st) (projects st)
         (filter
            (fun r => negb ((f_project_id r =? f_project_id F)%nat
                            && like (folderPathOf (f_path F) ++ "%") (f_path r))
                      && negb (same_row F r))
            (files st))
         (chat_messages st) (deployments st)
         (projects_seq st) (files_seq st) (clock st)).
Proof.
  intros Hid Hpid HF Hfolder Hnd.
  destruct (select_by_key (files st) F Hnd HF) as [rest Hsel].
  unfold deleteFile. unfold bind at 1. unfold select_files.
  rewrite (with_params_two _ _ _ _ Hid Hpid).
  change (fun f => (f_id f =? f_id F)%nat && (f_project_id f =? f_project_id F)%nat)
    with (same_row F).
  rewrite Hsel. rewrite Hfolder.
  unfold bind, delete_files, ret.
  rewrite (with_params_one _ _ _ Hpid).
  rewrite (with_params_two _ _ _ _ Hid Hpid).
  cbn [files users projects chat_messages
    deployments projects_seq files_seq clock].
  rewrite !filter_filter_and.
  eexists. reflexivity.
Qed.

(** C1, the claim as it stands, at a folder stored as [/src/]: the node
    [/src/a.ts] is deleted with it, and its path does not begin with the
    folder's path followed by the separator. *)
Lemma deleteFile_trailing_separator :
  In (mkFile 2 1 "/src/a.ts" "a.ts" "export {};" false (Some "/src/") 5 5)
     (files slash_store) /\
  startsWith "/src/a.ts" ("/src/" ++ "/") = false /\
  exists b st',
    deleteFile 1 1 slash_store = (inr b, st') /\ files st' = [].
Proof.
  split; [right; left; reflexivity|]. split; [reflexivity|].
  eexists _, _. split; reflexivity.
Qed.

(** C1, amended: for a stored folder [F] (its ids, being stored, in the
    range of the [integer] columns) whose path has none of the
    characters [%], [_] and backslash, [deleteFile] on [F] deletes [F] and
    the nodes of the project of [F] whose path begins with the folder path of
    [F] (the path of [F] itself when it ends in the separator, the path
    followed by the separator otherwise), and nothing else: the other rows of
    [files] stay, in order, and the other tables are untouched. *)
Theorem deleteFile_folder_subtree (st : Store) (F : File) :
  int4 (f_id F) = true ->
  int4 (f_project_id F) = true ->
  In F (files st) ->
  f_is_folder F = true ->
  NoDup (map f_id (files st)) ->
  plain_for_like (f_path F) = true ->
  exists b st',
    deleteFile (f_id F) (f_project_id F) st = (inr b, st') /\
    users st' = users st /\ projects st' = projects st /\
    chat_messages st' = chat_messages st /\ deployments st' = deployments st /\
    files st' = filter (fun r => negb (same_row F r || in_subtree F r)) (files st) /\
    forall r,
      In r (files st') <->
      In r (files st) /\ r <> F /\
      ~ (f_project_id r = f_project_id F /\
         exists rest, f_path r = folderPathOf (f_path F) ++ rest).
Proof.
  intros Hrange1 Hrange2 HF Hfolder Hnd Hplain.
  destruct (deleteFile_folder_files st F Hrange1 Hrange2 HF Hfolder Hnd) as [b Hdel].
  assert (Hfiles :
    filter (fun r => negb ((f_project_id r =? f_project_id F)%nat
                           && like (folderPathOf (f_path F) ++ "%") (f_path r))
                     && negb (same_row F r)) (files st) =
    filter (fun r => negb (same_row F r || in_subtree F r)) (files st)).
  { apply filter_ext. intros r. unfold in_subtree.
    rewrite (like_prefix _ (folderPathOf_plain _ Hplain)).
    rewrite negb_orb. apply andb_comm. }
  eexists b, _. split; [exact Hdel|].
  cbn [users projects chat_messages deployments files].
  repeat (split; [reflexivity|]).
  split; [exact Hfiles|].
  intros r. rewrite Hfiles, filter_In. split.
  - intros [Hr Hkeep]. split; [exact Hr|].
    apply negb_true_iff, orb_false_iff in Hkeep. destruct Hkeep as [Hsame Hsub].
    split.
    + intros ->. rewrite (proj2 (same_row_iff _ F F Hnd HF HF) eq_refl) in Hsame.
      discriminate.
    + intros [Hpid Hpre]. unfold in_subtree in Hsub.
      rewrite Hpid, Nat.eqb_refl in Hsub. cbn [andb] in Hsub.
      apply startsWith_iff in Hpre. congruence.
  - intros (Hr & Hne & Hout). split; [exact Hr|].
    apply negb_true_iff, orb_false_iff. split.
    + destruct (same_row F r) eqn:E; [|reflexivity].
      elim Hne. now apply (same_row_iff (files st) F r Hnd HF Hr).
    + unfold in_subtree.
      destruct ((f_project_id r =? f_project_id F)%nat) eqn:E1; [|reflexivity].
      destruct (startsWith (f_path r) (folderPathOf (f_path F))) eqn:E2; [|reflexivity].
      elim Hout. split; [now apply Nat.eqb_eq | now apply startsWith_iff].
Qed.

(** The theorem at the folder [/src] of project 1, in a store where
    project 1 also has [/src2] and project 2 has the same paths. *)
Lemma deleteFile_folder_subtree_witness :
  In (mkFile 1 1 "/src" "src" EmptyString true None 5 5) (files tree_store) /\
  NoDup (map f_id (files tree_store)) /\
  exists b st',
    deleteFile 1 1 tree_store = (inr b, st') /\
    users st' = users tree_store /\ projects st' = projects tree_store /\
    chat_messages st' = chat_messages tree_store /\
    deployments st' = deployments tree_store /\
    files st' =
      filter (fun r => negb (same_row (mkFile 1 1 "/src" "src" EmptyString true None 5 5) r
                             || in_subtree (mkFile 1 1 "/src" "src" EmptyString true None 5 5) r))
        (files tree_store) /\
    forall r,
      In r (files st') <->
      In r (files tree_store) /\ r <> mkFile 1 1 "/src" "src" EmptyString true None 5 5 /\
      ~ (f_project_id r = 1 /\ exists rest, f_path r = folderPathOf "/src" ++ rest).
Proof.
  assert (H1 : In (mkFile 1 1 "/src" "src" EmptyString true None 5 5) (files tree_store))
    by (left; reflexivity).
  assert (H2 : NoDup (map f_id (files tree_store))).
  { simpl. repeat (constructor; [simpl; intuition lia|]). constructor. }
  split; [exact H1|]. split; [exact H2|].
  exact (deleteFile_folder_subtree tree_store
           (mkFile 1 1 "/src" "src" EmptyString true None 5 5)
           eq_refl eq_refl H1 eq_refl H2 eq_refl).
Defined.

(** What is left of the example: [/src2] and its file, and all of
    project 2. *)
Example deleteFile_tree_store :
  exists st',
    deleteFile 1 1 tree_store = (inr true, st') /\
    map (fun f => (f_project_id f, f_path f)) (files st') =
      [(1, "/src2"); (1, "/src2/b.ts"); (2, "/src"); (2, "/src/a.ts")].
Proof. eexists. split; reflexivity. Qed.

(** Outside the amended claim: an underscore in the folder's path is read by
    [LIKE] as any character, and deleting [/a_b] takes [/axb/keep.ts] too. *)
Example deleteFile_underscore :
  exists st',
    deleteFile 1 1 underscore_store = (inr true, st') /\
    map f_path (files st') = ["/axb"].
Proof. eexists. split; reflexivity. Qed.

End DeleteFile.

(* ================================================================== *)
(** * The prompt classifier *)
(* ================================================================== *)

Section Classifier.
Import Str Db Props Handlers.

Lemma toLowerCase_append (a b : string) :
  toLowerCase (a ++ b) = toLowerCase a ++ toLowerCase b.
Proof. induction a as [|c a IH]; simpl; [reflexivity | now rewrite IH]. Qed.

Lemma toLowerCase_split (s x y : string) :
  toLowerCase s = x ++ y ->
  exists s1 s2, s = s1 ++ s2 /\ toLowerCase s1 = x /\ toLowerCase s2 = y.
Proof.
  revert s. induction x as [|c x IH]; intros s H.
  - exists EmptyString, s. repeat split. exact H.
  - destruct s as [|d s]; [discriminate|].
    simpl in H. injection H as Hc H.
    destruct (IH s H) as (s1 & s2 & -> & H1 & H2).
    exists (String d s1), s2. simpl. rewrite Hc, H1. repeat split. exact H2.
Qed.

Lemma includes_iff (s sub : string) : includes s sub = true <-> Contains s sub.
Proof.
  unfold Contains. induction s as [|c s IH].
  - simpl. rewrite orb_false_r, startsWith_iff. split.
    + intros [rest H]. exists EmptyString, rest. exact H.
    + intros (a & b & H). destruct a; [|discriminate H]. now exists b.
  - cbn [includes]. rewrite orb_true_iff, startsWith_iff, IH. split.
    + intros [[rest H] | (a & b & H)].
      * exists EmptyString, rest. exact H.
      * exists (String c a), b. simpl. now rewrite H.
    + intros (a & b & H). destruct a as [|d a].
      * left. now exists b.
      * right. simpl in H. injection H as _ H. now exists a, b.
Qed.

Lemma mentions_iff (prompt kw : string) :
  mentions prompt kw <-> includes (toLowerCase prompt) kw = true.
Proof.
  rewrite includes_iff. unfold mentions, Contains. split.
  - intros (a & w & b & -> & <-).
    exists (toLowerCase a), (toLowerCase b). now rewrite !toLowerCase_append.
  - intros (x & y & H).
    destruct (toLowerCase_split _ _ _ H) as (a & r & -> & Ha & Hr).
    destruct (toLowerCase_split _ _ _ Hr) as (w & b & -> & Hw & Hb).
    now exists a, w, b.
Qed.

Lemma fullstack_wording_iff (prompt : string) :
  fullstack_wording prompt <->
  includes (toLowerCase prompt) "full stack" || includes (toLowerCase prompt) "fullstack" = true.
Proof.
  unfold fullstack_wording. rewrite !mentions_iff, orb_true_iff. reflexivity.
Qed.

Lemma backend_wording_iff (prompt : string) :
  backend_wording prompt <->
  includes (toLowerCase prompt) "api" || includes (toLowerCase prompt) "backend"
  || includes (toLowerCase prompt) "server" || includes (toLowerCase prompt) "express"
  || includes (toLowerCase prompt) "node.js" = true.
Proof.
  unfold backend_wording. rewrite !mentions_iff, !orb_true_iff. tauto.
Qed.

Lemma frontend_wording_iff (prompt : string) :
  frontend_wording prompt <->
  includes (toLowerCase prompt) "react" || includes (toLowerCase prompt) "frontend"
  || includes (toLowerCase prompt) "ui" = true.
Proof.
  unfold frontend_wording. rewrite !mentions_iff, !orb_true_iff. tauto.
Qed.

(** C3: the template is chosen by the first rule that applies, in this
    order: the full-stack wording, whatever else the prompt mentions; else
    the backend wording ([api], [backend], [server], [express], [node.js]),
    even beside [react]; else the frontend wording ([react], [frontend],
    [ui]); else the basic template.  Keywords are searched as substrings,
    the case of letters ignored. *)
Theorem classifier_priority (prompt projectName : string) :
  (fullstack_wording prompt ->
   generateFilesFromPrompt prompt projectName = synthesize FullStack projectName) /\
  (~ fullstack_wording prompt -> backend_wording prompt ->
   generateFilesFromPrompt prompt projectName = synthesize API projectName) /\
  (~ fullstack_wording prompt -> ~ backend_wording prompt -> frontend_wording prompt ->
   generateFilesFromPrompt prompt projectName = synthesize Frontend projectName) /\
  (~ fullstack_wording prompt -> ~ backend_wording prompt -> ~ frontend_wording prompt ->
   generateFilesFromPrompt prompt projectName = synthesize Basic projectName).
Proof.
  rewrite fullstack_wording_iff, backend_wording_iff, frontend_wording_iff.
  unfold generateFilesFromPrompt, synthesize. cbv zeta.
  destruct (includes (toLowerCase prompt) "full stack"
            || includes (toLowerCase prompt) "fullstack");
  destruct (includes (toLowerCase prompt) "api" || includes (toLowerCase prompt) "backend"
            || includes (toLowerCase prompt) "server" || includes (toLowerCase prompt) "express"
            || includes (toLowerCase prompt) "node.js");
  destruct (includes (toLowerCase prompt) "react" || includes (toLowerCase prompt) "frontend"
            || includes (toLowerCase prompt) "ui");
  repeat split; intros; try reflexivity; try discriminate; exfalso; auto.
Qed.

(** The theorem at two prompts of the spec: full-stack wording beside
    [React], and [backend] beside [React]. *)
Lemma classifier_priority_witness :
  (fullstack_wording "A Full Stack app with React" /\
   generateFilesFromPrompt "A Full Stack app with React" "Shop" =
     synthesize FullStack "Shop") /\
  (~ fullstack_wording "A backend for my React app" /\
   backend_wording "A backend for my React app" /\
   generateFilesFromPrompt "A backend for my React app" "Shop" =
     synthesize API "Shop").
Proof.
  assert (H1 : fullstack_wording "A Full Stack app with React")
    by (apply fullstack_wording_iff; reflexivity).
  assert (H2 : ~ fullstack_wording "A backend for my React app")
    by (rewrite fullstack_wording_iff; discriminate).
  assert (H3 : backend_wording "A backend for my React app")
    by (apply backend_wording_iff; reflexivity).
  split.
  - split; [exact H1|].
    exact (proj1 (classifier_priority "A Full Stack app with React" "Shop") H1).
  - split; [exact H2|]. split; [exact H3|].
    exact (proj1 (proj2 (classifier_priority "A backend for my React app" "Shop")) H2 H3).
Defined.

End Classifier.

(* ================================================================== *)
(** * Generation: tree consistency of the generated nodes *)
(* ================================================================== *)

Section Generation.
Import Str Db Props Handlers.

Example getParentPath_tests :
  getParentPath "/src/App.tsx" = Some "/src" /\
  getParentPath "/frontend/src/App.js" = Some "/frontend/src" /\
  getParentPath "/package.json" = None /\
  getParentPath "/" = None.
Proof. repeat split; reflexivity. Qed.

Lemma tree_consistentb_sound (fs : list GeneratedFile) :
  tree_consistentb fs = true -> tree_consistent fs.
Proof.
  unfold tree_consistentb, tree_consistent. intros H f Hf parent Hp.
  rewrite forallb_forall in H. specialize (H f Hf). rewrite Hp in H.
  apply existsb_exists in H. destruct H as [g [Hg Hc]].
  apply andb_true_iff in Hc. destruct Hc as [Hfolder Hpath].
  apply String.eqb_eq in Hpath. now exists g.
Qed.

Lemma generateFilesFromPrompt_cases (prompt projectName : string) :
  generateFilesFromPrompt prompt projectName = generateFullStackProject projectName \/
  generateFilesFromPrompt prompt projectName = generateAPIProject projectName \/
  generateFilesFromPrompt prompt projectName = generateReactProject projectName \/
  generateFilesFromPrompt prompt projectName = generateBasicProject projectName.
Proof.
  unfold generateFilesFromPrompt. cbv zeta.
  repeat match goal with |- context [if ?c then _ else _] => destruct c end; auto.
Qed.

(** Every template is tree consistent, whatever the project's name. *)
Lemma generateFilesFromPrompt_tree_consistent (prompt projectName : string) :
  tree_consistent (generateFilesFromPrompt prompt projectName).
Proof.
  apply tree_consistentb_sound.
  destruct (generateFilesFromPrompt_cases prompt projectName) as [-> | [-> | [-> | ->]]];
    reflexivity.
Qed.

(** The loop that persists the generated nodes inserts one row per node, in
    order, with the parent path computed from the node's path. *)
Lemma persist_generated (projectId : nat) (fs : list GeneratedFile) :
  int4 projectId = true ->
  forall st,
    existsb (fun p => p_id p =? projectId)%nat (projects st) = true ->
    for_each fs
      (fun file =>
         bind (insert_file
                 (mkNewFile projectId (path file) (name file) (content file)
                    (is_folder file) (getParentPath (path file))))
              (fun _ => ret tt)) st =
    (inr tt,
     mkStore (users st) (projects st)
       (files st ++ rows_of projectId (files_seq st) (clock st) fs)%list
       (chat_messages st) (deployments st)
       (projects_seq st) (files_seq st + length fs) (clock st)).
Proof.
  intros Hrange. induction fs as [|g fs IH]; intros st Hp.
  - simpl. unfold ret. rewrite app_nil_r, Nat.add_0_r. now destruct st.
  - cbn [for_each]. unfold bind at 1. unfold bind at 1.
    unfold insert_file at 1. cbn [nf_project_id].
    rewrite (with_params_one _ _ _ Hrange).
    cbn [nf_project_id]. rewrite Hp. cbn [negb].
    unfold ret at 1. rewrite IH by exact Hp.
    cbn [users projects files chat_messages deployments projects_seq files_seq
         clock nf_path nf_name nf_content nf_is_folder nf_parent_path rows_of length].
    rewrite <- app_assoc. cbn [app]. rewrite Nat.add_succ_r. reflexivity.
Qed.

(** C2: when the project is stored (its id, being stored, in the range of
    the [integer] column), [simulateAIGeneration] returns it with
    the nodes generated from its prompt and name, and in the returned list
    every node whose path has a parent path has a folder of the same list at
    that path.  The rows it stores are those nodes, with that parent path. *)
Theorem simulateAIGeneration_tree_consistent (projectId : nat) (st : Store) (p : Project) :
  int4 projectId = true ->
  In p (projects st) ->
  p_id p = projectId ->
  exists project generatedFiles st',
    simulateAIGeneration projectId st = (inr (project, generatedFiles), st') /\
    In project (projects st) /\ p_id project = projectId /\
    generatedFiles = generateFilesFromPrompt (p_ai_prompt project) (p_name project) /\
    tree_consistent generatedFiles /\
    files st' =
      (files st ++ rows_of projectId (files_seq st) (clock st) generatedFiles)%list.
Proof.
  intros Hrange Hp Hid.
  assert (Hex : existsb (fun q => p_id q =? projectId)%nat (projects st) = true).
  { apply existsb_exists. exists p. split; [exact Hp | now apply Nat.eqb_eq]. }
  unfold simulateAIGeneration. unfold bind at 1. unfold select_projects.
  rewrite (with_params_one _ _ _ Hrange).
  destruct (filter (fun q => (p_id q =? projectId)%nat) (projects st))
    as [|project rest] eqn:Hsel.
  - exfalso. assert (Hin : In p (filter (fun q => (p_id q =? projectId)%nat) (projects st))).
    { apply filter_In. split; [exact Hp | now apply Nat.eqb_eq]. }
    rewrite Hsel in Hin. contradiction.
  - assert (Hproj : In project (projects st) /\ p_id project = projectId).
    { assert (Hin : In project (filter (fun q => (p_id q =? projectId)%nat) (projects st)))
        by (rewrite Hsel; now left).
      apply filter_In in Hin. destruct Hin as [H1 H2].
      split; [exact H1 | now apply Nat.eqb_eq]. }
    unfold bind at 1. rewrite (persist_generated projectId _ Hrange st Hex).
    eexists project, _, _. split; [reflexivity|].
    split; [apply Hproj|]. split; [apply Hproj|]. split; [reflexivity|].
    split; [apply generateFilesFromPrompt_tree_consistent | reflexivity].
Qed.

(** The theorem at the example store, whose project asks for a React
    frontend. *)
Lemma simulateAIGeneration_tree_consistent_witness :
  In demo_project (projects demo_store) /\
  exists project generatedFiles st',
    simulateAIGeneration 1 demo_store = (inr (project, generatedFiles), st') /\
    In project (projects demo_store) /\ p_id project = 1 /\
    generatedFiles = generateFilesFromPrompt (p_ai_prompt project) (p_name project) /\
    tree_consistent generatedFiles /\
    files st' =
      (files demo_store ++ rows_of 1 (files_seq demo_store) (clock demo_store) generatedFiles)%list.
Proof.
  split; [left; reflexivity|].
  exact (simulateAIGeneration_tree_consistent 1 demo_store demo_project
           eq_refl (or_introl eq_refl) eq_refl).
Defined.

(** The end-to-end scenario of the spec: the nodes generated for the
    example project, with the parent path each is stored with. *)
Example simulateAIGeneration_demo :
  fst (simulateAIGeneration 1 demo_store) =
    inr (demo_project, generateReactProject "Test Project") /\
  map (fun f => (f_path f, f_is_folder f, f_parent_path f))
      (files (snd (simulateAIGeneration 1 demo_store))) =
    [ ("/src", true, None); ("/public", true, None);
      ("/package.json", false, None);
      ("/src/App.tsx", false, Some "/src");
      ("/src/index.tsx", false, Some "/src");
      ("/src/App.css", false, Some "/src");
      ("/public/index.html", false, Some "/public") ].
Proof. split; vm_compute; reflexivity. Qed.

End Generation.

(* ================================================================== *)
(** * Generation: the manifest identifier *)
(* ================================================================== *)

Section Manifest.
Import Str Db Props Handlers.

Lemma space_not_hyphen (c : ascii) : is_space c = true -> is_hyphen c = false.
Proof.
  intros Hs. destruct (is_hyphen c) eqn:Hh; [|reflexivity].
  apply is_hyphen_eq in Hh. subst c. discriminate Hs.
Qed.

(** Collapsing hyphens after replacing runs of white space by one hyphen
    is collapsing hyphens after replacing each white space character. *)
Lemma collapse_after_spaces (s : string) :
  forall b b' : bool,
    (b' = true -> b = true) ->
    replace_runs_from is_hyphen "-" b (replace_runs_from is_space "-" b' s) =
    replace_runs_from is_hyphen "-" b (replace_each is_space "-" s).
Proof.
  induction s as [|c s IH]; intros b b' Hb; [reflexivity|].
  cbn [replace_runs_from replace_each].
  destruct (is_space c) eqn:Hs.
  - destruct b'.
    + rewrite (Hb eq_refl). cbn [append replace_runs_from].
      change (is_hyphen "-") with true. cbv iota. apply IH. reflexivity.
    + cbn [append replace_runs_from]. change (is_hyphen "-") with true. cbv iota.
      destruct b; [|f_equal]; apply IH; reflexivity.
  - cbn [replace_runs_from].
    destruct (is_hyphen c).
    + destruct b; [|f_equal]; apply IH; discriminate.
    + f_equal. apply IH. discriminate.
Qed.

Lemma sanitizeProjectName_spec (projectName : string) :
  sanitizeProjectName projectName = manifest_id_spec projectName.
Proof.
  unfold sanitizeProjectName, manifest_id_spec, replace_runs.
  f_equal. apply collapse_after_spaces. discriminate.
Qed.

Lemma all_chars_removed (q : ascii -> bool) (s : string) :
  all_chars q (replace_each (fun c => negb (q c)) EmptyString s) = true.
Proof.
  induction s as [|c s IH]; simpl; [reflexivity|].
  destruct (q c) eqn:Hc; simpl; [rewrite Hc|]; exact IH.
Qed.

Lemma all_chars_space_runs (b : bool) (s : string) :
  all_chars (fun c => is_slug_char c || is_space c) s = true ->
  all_chars is_slug_char (replace_runs_from is_space "-" b s) = true.
Proof.
  revert b. induction s as [|c s IH]; intros b Hs; simpl in *; [reflexivity|].
  apply andb_true_iff in Hs. destruct Hs as [Hc Hs].
  destruct (is_space c) eqn:Hsp.
  - destruct b; simpl; now apply IH.
  - rewrite orb_false_r in Hc. simpl. rewrite Hc. now apply IH.
Qed.

Lemma strip_edges_all_chars (q : ascii -> bool) (s : string) :
  all_chars q s = true -> all_chars q (strip_edge_hyphens s) = true.
Proof.
  intros H. unfold strip_edge_hyphens. apply strip_trailing_all_chars.
  destruct s as [|c s]; [reflexivity|]. simpl in *.
  apply andb_true_iff in H. destruct H as [Hc H].
  destruct (is_hyphen c); [exact H|]. simpl. now rewrite Hc, H.
Qed.

Lemma sanitizeProjectName_chars (projectName : string) :
  all_chars is_slug_char (sanitizeProjectName projectName) = true.
Proof.
  unfold sanitizeProjectName, replace_runs.
  apply strip_edges_all_chars.
  apply all_chars_replace_runs; [reflexivity|].
  apply all_chars_space_runs.
  apply (all_chars_removed (fun c => is_slug_char c || is_space c)).
Qed.

(** The identifier is empty or matches the slug expression. *)
Lemma sanitizeProjectName_shape (projectName : string) :
  sanitizeProjectName projectName = EmptyString \/
  SlugRe.matches (sanitizeProjectName projectName) = true.
Proof.
  unfold sanitizeProjectName.
  apply collapsed_stripped_shape.
  apply all_chars_space_runs.
  apply (all_chars_removed (fun c => is_slug_char c || is_space c)).
Qed.

Lemma slug_char_not_quote (c : ascii) : is_slug_char c = true -> is_quote c = false.
Proof.
  unfold is_slug_char, is_alnum, is_lower, is_digit, is_quote. intros H.
  apply Nat.eqb_neq. intros E.
  apply orb_true_iff in H. destruct H as [H|H].
  - apply orb_true_iff in H. destruct H as [H|H];
      apply andb_true_iff in H; destruct H as [H1 H2];
      apply Nat.leb_le in H1, H2; lia.
  - apply is_hyphen_eq in H. subst c. discriminate E.
Qed.

Lemma until_quote_append (x y : string) :
  all_chars is_slug_char x = true ->
  until_quote (x ++ y) = x ++ until_quote y.
Proof.
  induction x as [|c x IH]; intros H; [reflexivity|].
  simpl in H. apply andb_true_iff in H. destruct H as [Hc H].
  simpl. rewrite (slug_char_not_quote c Hc), (IH H). reflexivity.
Qed.

(** C9, the claim as it stands, at the name of the handler's own test: the
    root manifest of the generated project is named [my-react-app-2024],
    with hyphens where the name has spaces; stripping every character
    outside [[a-z0-9-]] gives [myreactapp2024]. *)
Lemma manifest_name_keeps_spaces_as_hyphens :
  exists f,
    In f (generateFilesFromPrompt "Create a React app" "My React App @ 2024!") /\
    name f = "package.json" /\
    manifest_name (content f) = Some "my-react-app-2024" /\
    claimed_manifest_id "My React App @ 2024!" = "myreactapp2024".
Proof.
  exists test_manifest.
  split; [right; right; left; reflexivity|].
  split; [reflexivity|]. split; vm_compute; reflexivity.
Qed.

(** C9, amended: for every prompt and project name, the identifier in the
    name entry of every generated [package.json] is the project name
    lower-cased, stripped of the characters that are neither in [[a-z0-9-]]
    nor white space, with white space turned into hyphens, repeated hyphens
    collapsed and the hyphens at the edges trimmed; the two workspace
    manifests of the full-stack template append [-frontend] and [-backend]
    to it. *)
Theorem manifest_name_sanitized (prompt projectName : string) (f : GeneratedFile) :
  In f (generateFilesFromPrompt prompt projectName) ->
  name f = "package.json" ->
  sanitizeProjectName projectName = manifest_id_spec projectName /\
  ((path f = "/package.json" /\
    manifest_name (content f) = Some (manifest_id_spec projectName)) \/
   (path f = "/frontend/package.json" /\
    manifest_name (content f) = Some (manifest_id_spec projectName ++ "-frontend")) \/
   (path f = "/backend/package.json" /\
    manifest_name (content f) = Some (manifest_id_spec projectName ++ "-backend"))).
Proof.
  intros Hf Hname. split; [apply sanitizeProjectName_spec|].
  rewrite <- sanitizeProjectName_spec.
  pose proof (sanitizeProjectName_chars projectName) as Hchars.
  set (id := sanitizeProjectName projectName) in *.
  assert (Hroot : forall rest,
             manifest_name (manifest_head ++ id ++ dq ++ rest) = Some id).
  { intros rest. unfold manifest_name.
    change (strip_prefix manifest_head (manifest_head ++ id ++ dq ++ rest))
      with (Some (id ++ dq ++ rest)).
    cbn [option_map]. rewrite until_quote_append by exact Hchars.
    cbn. now rewrite append_nil_r. }
  assert (Hsub : forall suffix rest,
             all_chars is_slug_char suffix = true ->
             manifest_name (manifest_head ++ id ++ suffix ++ dq ++ rest) =
               Some (id ++ suffix)).
  { intros suffix rest Hs. unfold manifest_name.
    change (strip_prefix manifest_head (manifest_head ++ id ++ suffix ++ dq ++ rest))
      with (Some (id ++ suffix ++ dq ++ rest)).
    cbn [option_map]. rewrite until_quote_append by exact Hchars.
    rewrite until_quote_append by exact Hs.
    cbn. now rewrite append_nil_r. }
  destruct (generateFilesFromPrompt_cases prompt projectName) as [E | [E | [E | E]]];
    rewrite E in Hf; clear E;
    unfold generateFullStackProject, generateAPIProject, generateReactProject,
      generateBasicProject in Hf; fold id in Hf;
    repeat (destruct Hf as [<- | Hf]; [try discriminate Hname|]);
    try contradiction; cbn [path content].
  all: first
    [ left; split; [reflexivity | apply Hroot]
    | right; left; split; [reflexivity | apply (Hsub "-frontend"); reflexivity]
    | right; right; split; [reflexivity | apply (Hsub "-backend"); reflexivity] ].
Qed.

(** The theorem at the name of the handler's own test. *)
Lemma manifest_name_sanitized_witness :
  In test_manifest (generateFilesFromPrompt "Create a React app" "My React App @ 2024!") /\
  name test_manifest = "package.json" /\
  sanitizeProjectName "My React App @ 2024!" = manifest_id_spec "My React App @ 2024!" /\
  ((path test_manifest = "/package.json" /\
    manifest_name (content test_manifest) =
      Some (manifest_id_spec "My React App @ 2024!")) \/
   (path test_manifest = "/frontend/package.json" /\
    manifest_name (content test_manifest) =
      Some (manifest_id_spec "My React App @ 2024!" ++ "-frontend")) \/
   (path test_manifest = "/backend/package.json" /\
    manifest_name (content test_manifest) =
      Some (manifest_id_spec "My React App @ 2024!" ++ "-backend"))).
Proof.
  assert (H : In test_manifest
                 (generateFilesFromPrompt "Create a React app" "My React App @ 2024!"))
    by (right; right; left; reflexivity).
  split; [exact H|]. split; [reflexivity|].
  exact (manifest_name_sanitized "Create a React app" "My React App @ 2024!"
           test_manifest H eq_refl).
Defined.

End Manifest.

(* ================================================================== *)
(** * Further properties of the file handlers *)
(* ================================================================== *)

Section FileHandlers.
Import Str Db Props Handlers Queries.

(** X1: when no stored node has both the id and the project given (the
    node does not exist, or belongs to another project), the store is as it
    was after [deleteFile]; the call returns [false] when both ids are in the
    range of the [integer] columns, and rethrows the store's error when one
    is not. *)
Theorem deleteFile_no_match (fileId projectId : nat) (st : Store) :
  (forall f, In f (files st) -> ~ (f_id f = fileId /\ f_project_id f = projectId)) ->
  deleteFile fileId projectId st =
    (if int4 fileId && int4 projectId then inr false else inl (OutOfRange "integer"),
     st).
Proof.
  intros Hno. unfold deleteFile. unfold bind at 1. unfold select_files, with_params.
  rewrite params_ok_two.
  destruct (int4 fileId && int4 projectId); [|reflexivity].
  replace (filter (fun f => (f_id f =? fileId)%nat && (f_project_id f =? projectId)%nat)
             (files st)) with (@nil File); [reflexivity|].
  symmetry.
  destruct (filter (fun f => (f_id f =? fileId)%nat && (f_project_id f =? projectId)%nat)
              (files st)) as [|x l] eqn:E; [reflexivity|].
  assert (Hx : In x (filter (fun f => (f_id f =? fileId)%nat
                                      && (f_project_id f =? projectId)%nat) (files st)))
    by (rewrite E; now left).
  apply filter_In in Hx. destruct Hx as [Hx Hc].
  apply andb_true_iff in Hc. destruct Hc as [H1 H2].
  apply Nat.eqb_eq in H1, H2. elim (Hno x Hx). now split.
Qed.

(** The theorem at node 7 of the example, which belongs to project 2, asked
    for under project 1. *)
Lemma deleteFile_no_match_witness :
  (forall f, In f (files tree_store) -> ~ (f_id f = 7 /\ f_project_id f = 1)) /\
  deleteFile 7 1 tree_store = (inr false, tree_store).
Proof.
  assert (H : forall f, In f (files tree_store) -> ~ (f_id f = 7 /\ f_project_id f = 1)).
  { intros f Hf [H1 H2]. simpl in Hf.
    repeat (destruct Hf as [<- | Hf]; [simpl in H1, H2; discriminate|]).
    exact Hf. }
  split; [exact H | exact (deleteFile_no_match 7 1 tree_store H)].
Defined.

(** X2: for a stored node that is not a folder (its ids, being stored, in
    the range of the [integer] columns), [deleteFile] returns [true]
    and removes that one row: every other row of [files] stays, in order, and
    the other tables are untouched. *)
Theorem deleteFile_plain_file (st : Store) (F : File) :
  int4 (f_id F) = true ->
  int4 (f_project_id F) = true ->
  In F (files st) ->
  f_is_folder F = false ->
  NoDup (map f_id (files st)) ->
  exists st',
    deleteFile (f_id F) (f_project_id F) st = (inr true, st') /\
    users st' = users st /\ projects st' = projects st /\
    chat_messages st' = chat_messages st /\ deployments st' = deployments st /\
    files st' = filter (fun r => negb (same_row F r)) (files st) /\
    forall r, In r (files st') <-> In r (files st) /\ r <> F.
Proof.
  intros Hrange1 Hrange2 HF Hfile Hnd.
  destruct (select_by_key (files st) F Hnd HF) as [rest Hsel].
  unfold deleteFile. unfold bind at 1. unfold select_files.
  rewrite (with_params_two _ _ _ _ Hrange1 Hrange2).
  change (fun f => (f_id f =? f_id F)%nat && (f_project_id f =? f_project_id F)%nat)
    with (same_row F).
  rewrite Hsel, Hfile.
  unfold bind, delete_files, ret.
  rewrite (with_params_two _ _ _ _ Hrange1 Hrange2).
  change (fun f => (f_id f =? f_id F)%nat && (f_project_id f =? f_project_id F)%nat)
    with (same_row F).
  rewrite Hsel.
  eexists. split; [reflexivity|].
  cbn [users projects chat_messages deployments files].
  repeat (split; [reflexivity|]).
  intros r. rewrite filter_In. split.
  - intros [Hr Hk]. split; [exact Hr|]. intros ->.
    rewrite (proj2 (same_row_iff _ F F Hnd HF HF) eq_refl) in Hk. discriminate.
  - intros [Hr Hne]. split; [exact Hr|].
    destruct (same_row F r) eqn:E; [|reflexivity].
    elim Hne. now apply (same_row_iff (files st) F r Hnd HF Hr).
Qed.

Lemma deleteFile_plain_file_witness :
  In (mkFile 2 1 "/src/a.ts" "a.ts" "export {};" false (Some "/src") 5 5) (files tree_store) /\
  NoDup (map f_id (files tree_store)) /\
  exists st',
    deleteFile 2 1 tree_store = (inr true, st') /\
    users st' = users tree_store /\ projects st' = projects tree_store /\
    chat_messages st' = chat_messages tree_store /\
    deployments st' = deployments tree_store /\
    files st' =
      filter (fun r => negb (same_row
                (mkFile 2 1 "/src/a.ts" "a.ts" "export {};" false (Some "/src") 5 5) r))
        (files tree_store) /\
    forall r, In r (files st') <->
      In r (files tree_store) /\
      r <> mkFile 2 1 "/src/a.ts" "a.ts" "export {};" false (Some "/src") 5 5.
Proof.
  assert (H1 : In (mkFile 2 1 "/src/a.ts" "a.ts" "export {};" false (Some "/src") 5 5)
                  (files tree_store)) by (right; left; reflexivity).
  assert (H2 : NoDup (map f_id (files tree_store))).
  { simpl. repeat (constructor; [simpl; intuition lia|]). constructor. }
  split; [exact H1|]. split; [exact H2|].
  exact (deleteFile_plain_file tree_store
           (mkFile 2 1 "/src/a.ts" "a.ts" "export {};" false (Some "/src") 5 5)
           eq_refl eq_refl H1 eq_refl H2).
Defined.

Lemma startsWith_folderPath (p : string) :
  startsWith p (folderPathOf p) = endsWithChar p "/".
Proof.
  unfold folderPathOf. destruct (endsWithChar p "/") eqn:E.
  - apply startsWith_iff. exists EmptyString. now rewrite append_nil_r.
  - destruct (startsWith p (p ++ "/")) eqn:S; [|reflexivity].
    apply startsWith_iff in S. destruct S as [rest S].
    apply (f_equal String.length) in S.
    rewrite !length_append in S. simpl in S. lia.
Qed.

(** X3: for a stored folder (its ids, being stored, in the range of the
    [integer] columns) whose path has none of [%], [_] and backslash,
    the result of [deleteFile] is [true] when the path does not end in the
    separator, and [false] when it does: the first [delete] then takes the
    folder itself, and the second finds no row. *)
Theorem deleteFile_folder_result (st : Store) (F : File) :
  int4 (f_id F) = true ->
  int4 (f_project_id F) = true ->
  In F (files st) ->
  f_is_folder F = true ->
  NoDup (map f_id (files st)) ->
  plain_for_like (f_path F) = true ->
  fst (deleteFile (f_id F) (f_project_id F) st) =
    inr (negb (endsWithChar (f_path F) "/")).
Proof.
  intros Hrange1 Hrange2 HF Hfolder Hnd Hplain.
  destruct (select_by_key (files st) F Hnd HF) as [rest Hsel].
  unfold deleteFile. unfold bind at 1. unfold select_files.
  rewrite (with_params_two _ _ _ _ Hrange1 Hrange2).
  change (fun f => (f_id f =? f_id F)%nat && (f_project_id f =? f_project_id F)%nat)
    with (same_row F).
  rewrite Hsel, Hfolder.
  unfold bind, delete_files, ret.
  rewrite (with_params_one _ _ _ Hrange2).
  rewrite (with_params_two _ _ _ _ Hrange1 Hrange2).
  cbn [files fst].
  rewrite filter_filter_and. f_equal.
  set (Q := fun r => (f_project_id r =? f_project_id F)%nat
                     && like (folderPathOf (f_path F) ++ "%") (f_path r)).
  assert (HQ : Q F = endsWithChar (f_path F) "/").
  { unfold Q. rewrite Nat.eqb_refl. cbn [andb].
    rewrite (like_prefix _ (folderPathOf_plain _ Hplain)).
    apply startsWith_folderPath. }
  rewrite <- HQ.
  match goal with
  | |- context [filter ?f (files st)] =>
      change f with (fun x => negb (Q x) && same_row F x)
  end.
  destruct (Q F) eqn:E; cbn [negb].
  - replace (filter (fun x => negb (Q x) && same_row F x) (files st)) with (@nil File);
      [reflexivity|].
    symmetry.
    destruct (filter (fun x => negb (Q x) && same_row F x) (files st)) as [|x l] eqn:Ef;
      [reflexivity|].
    assert (Hx : In x (filter (fun x => negb (Q x) && same_row F x) (files st)))
      by (rewrite Ef; now left).
    apply filter_In in Hx. destruct Hx as [Hx Hc].
    apply andb_true_iff in Hc. destruct Hc as [Hq Hs].
    apply (same_row_iff (files st) F x Hnd HF Hx) in Hs. subst x.
    rewrite E in Hq. discriminate.
  - assert (Hin : In F (filter (fun x => negb (Q x) && same_row F x) (files st))).
    { apply filter_In. split; [exact HF|]. rewrite E. cbn [negb andb].
      now apply (same_row_iff (files st) F F). }
    destruct (filter (fun x => negb (Q x) && same_row F x) (files st));
      [contradiction | reflexivity].
Qed.

Lemma deleteFile_folder_result_witness :
  In (mkFile 1 1 "/src/" "src" EmptyString true None 5 5) (files slash_store) /\
  NoDup (map f_id (files slash_store)) /\
  fst (deleteFile 1 1 slash_store) = inr false.
Proof.
  assert (H1 : In (mkFile 1 1 "/src/" "src" EmptyString true None 5 5) (files slash_store))
    by (left; reflexivity).
  assert (H2 : NoDup (map f_id (files slash_store))).
  { simpl. repeat (constructor; [simpl; intuition lia|]). constructor. }
  split; [exact H1|]. split; [exact H2|].
  exact (deleteFile_folder_result slash_store
           (mkFile 1 1 "/src/" "src" EmptyString true None 5 5)
           eq_refl eq_refl H1 eq_refl H2 eq_refl).
Defined.

(** X4: when the project of the input is not stored, [createFile] throws
    and stores nothing: its own not-found error when the project id is in
    the range of the [integer] column, and the error of the store, which
    rejects the query for the project, when it is not. *)
Theorem createFile_project_missing (input : CreateFileInput) (st : Store) :
  (forall p, In p (projects st) -> p_id p <> cf_project_id input) ->
  createFile input st =
    (inl (if int4 (cf_project_id input)
          then Err ("Project with id " ++ of_nat (cf_project_id input) ++ " not found")
          else OutOfRange "integer"), st).
Proof.
  intros Hno. unfold createFile, bind, select_projects, with_params.
  rewrite params_ok_one.
  destruct (int4 (cf_project_id input)); [|reflexivity].
  rewrite filter_length_zero.
  replace (existsb (fun p => (p_id p =? cf_project_id input)%nat) (projects st)) with false;
    [reflexivity|].
  symmetry. apply existsb_false_iff. intros p Hp. apply Nat.eqb_neq. now apply Hno.
Qed.

Lemma createFile_project_missing_witness :
  (forall p, In p (projects demo_store) -> p_id p <> 99) /\
  createFile (mkCreateFileInput 99 "/test.js" "test.js" "test content" false None)
    demo_store =
    (inl (Err "Project with id 99 not found"), demo_store).
Proof.
  assert (H : forall p, In p (projects demo_store) -> p_id p <> 99)
    by (intros p [<-|[]]; discriminate).
  split; [exact H|].
  exact (createFile_project_missing
           (mkCreateFileInput 99 "/test.js" "test.js" "test content" false None)
           demo_store H).
Defined.

End FileHandlers.

(* ================================================================== *)
(** * Further properties of the project handlers *)
(* ================================================================== *)

Section ProjectHandlers.
Import Str Db Props Handlers Queries.

Lemma existsb_all_equal (pid projectId : nat) (gone : list nat) :
  gone <> [] ->
  (forall x, In x gone -> x = projectId) ->
  existsb (Nat.eqb pid) gone = (pid =? projectId)%nat.
Proof.
  intros Hne Hall. destruct (pid =? projectId)%nat eqn:E.
  - destruct gone as [|x l]; [now elim Hne|].
    simpl. rewrite (Hall x (or_introl eq_refl)), E. reflexivity.
  - apply existsb_false_iff. intros x Hx. rewrite (Hall x Hx). exact E.
Qed.

(** X5: when the project is stored under the owner given (both ids, being
    stored, in the range of the [integer] columns), [deleteProject]
    returns [true]; the rows of [projects] with that id and owner go, and
    with them every file, chat message and deployment of that project, and
    no row of another project; users, sequences and clock stay. *)
Theorem deleteProject_owner_cascade (projectId userId : nat) (st : Store) (p : Project) :
  int4 projectId = true ->
  int4 userId = true ->
  In p (projects st) ->
  p_id p = projectId ->
  p_user_id p = userId ->
  deleteProject projectId userId st =
    (inr true,
     mkStore (users st)
       (filter (fun q => negb ((p_id q =? projectId)%nat && (p_user_id q =? userId)%nat))
          (projects st))
       (filter (fun f => negb (f_project_id f =? projectId)%nat) (files st))
       (filter (fun m => negb (m_project_id m =? projectId)%nat) (chat_messages st))
       (filter (fun d => negb (d_project_id d =? projectId)%nat) (deployments st))
       (projects_seq st) (files_seq st) (clock st)).
Proof.
  intros Hrange1 Hrange2 Hp Hid Hown.
  set (cond := fun q => (p_id q =? projectId)%nat && (p_user_id q =? userId)%nat).
  assert (Hin : In p (filter cond (projects st))).
  { apply filter_In. split; [exact Hp|]. unfold cond.
    now rewrite Hid, Hown, !Nat.eqb_refl. }
  assert (Hne : map p_id (filter cond (projects st)) <> []).
  { destruct (filter cond (projects st)); [contradiction | discriminate]. }
  assert (Hall : forall x, In x (map p_id (filter cond (projects st))) -> x = projectId).
  { intros x Hx. apply in_map_iff in Hx. destruct Hx as [q [<- Hq]].
    apply filter_In in Hq. destruct Hq as [_ Hq]. unfold cond in Hq.
    apply andb_true_iff in Hq. destruct Hq as [Hq _]. now apply Nat.eqb_eq. }
  unfold deleteProject. unfold bind at 1. unfold select_projects.
  rewrite (with_params_two _ _ _ _ Hrange1 Hrange2).
  fold cond. rewrite filter_length_zero.
  assert (He : existsb cond (projects st) = true).
  { apply existsb_exists. exists p. split; [exact Hp|].
    apply filter_In in Hin. apply Hin. }
  rewrite He. cbn [negb].
  unfold bind, delete_projects, ret.
  rewrite (with_params_two _ _ _ _ Hrange1 Hrange2).
  fold cond. rewrite length_map.
  assert (Hlen : (0 <? length (filter cond (projects st)))%nat = true).
  { destruct (filter cond (projects st)); [contradiction | reflexivity]. }
  rewrite Hlen. f_equal. f_equal.
  - apply filter_ext. intros f. now rewrite (existsb_all_equal _ projectId _ Hne Hall).
  - apply filter_ext. intros m. now rewrite (existsb_all_equal _ projectId _ Hne Hall).
  - apply filter_ext. intros d. now rewrite (existsb_all_equal _ projectId _ Hne Hall).
Qed.

(** The theorem at project 1 of the store with two projects and their
    files, deleted by its owner: what stays is project 2 and its two files. *)
Lemma deleteProject_owner_cascade_witness :
  In demo_project (projects tree_store) /\
  deleteProject 1 1 tree_store =
    (inr true,
     mkStore (users tree_store)
       (filter (fun q => negb ((p_id q =? 1)%nat && (p_user_id q =? 1)%nat))
          (projects tree_store))
       (filter (fun f => negb (f_project_id f =? 1)%nat) (files tree_store))
       (filter (fun m => negb (m_project_id m =? 1)%nat) (chat_messages tree_store))
       (filter (fun d => negb (d_project_id d =? 1)%nat) (deployments tree_store))
       (projects_seq tree_store) (files_seq tree_store) (clock tree_store)).
Proof.
  split; [left; reflexivity|].
  exact (deleteProject_owner_cascade 1 1 tree_store demo_project
           eq_refl eq_refl (or_introl eq_refl) eq_refl eq_refl).
Defined.

Lemma slugs_unique_snoc (ps : list Project) (row : Project) :
  slugs_unique (ps ++ [row]) =
  slugs_unique ps && negb (existsb (fun q => p_slug q =? p_slug row) ps).
Proof.
  induction ps as [|p ps IH]; [reflexivity|].
  simpl. rewrite IH, existsb_app. simpl.
  rewrite orb_false_r, (String.eqb_sym (p_slug row) (p_slug p)).
  destruct (existsb (fun q => p_slug q =? p_slug p) ps);
    destruct (p_slug p =? p_slug row);
    destruct (slugs_unique ps);
    destruct (existsb (fun q => p_slug q =? p_slug row) ps); reflexivity.
Qed.

(** X6: [createProject] keeps the slugs of the stored projects pairwise
    distinct: from a store with distinct slugs and the owner known (the
    owner's id, being stored, in the range of the [integer] column), the call
    succeeds (the unique constraint of the store is never hit) and the slugs
    are distinct afterwards. *)
Theorem createProject_keeps_slugs_unique (input : CreateProjectInput) (st : Store) :
  int4 (cp_user_id input) = true ->
  user_known st (cp_user_id input) = true ->
  slugs_unique (projects st) = true ->
  exists p st',
    createProject input st = (inr p, st') /\
    In p (projects st') /\
    slugs_unique (projects st') = true.
Proof.
  intros Hrange Hu Huniq.
  destruct (createProject_first_free input st Hrange Hu) as [k (Hc & Hfree & _)].
  cbv zeta in Hc, Hfree.
  eexists _, _. split; [exact Hc|]. cbn [projects]. split.
  - apply in_or_app. right. left. reflexivity.
  - rewrite slugs_unique_snoc, Huniq. cbn [p_slug andb].
    unfold slug_taken in Hfree. rewrite Hfree. reflexivity.
Qed.

Lemma createProject_keeps_slugs_unique_witness :
  user_known two_projects_store (cp_user_id demo_create_input) = true /\
  slugs_unique (projects two_projects_store) = true /\
  exists p st',
    createProject demo_create_input two_projects_store = (inr p, st') /\
    In p (projects st') /\
    slugs_unique (projects st') = true.
Proof.
  split; [reflexivity|]. split; [reflexivity|].
  exact (createProject_keeps_slugs_unique demo_create_input two_projects_store
           eq_refl eq_refl eq_refl).
Defined.

Lemma filter_slug_free (st : Store) (s : string) :
  slug_taken st s = false ->
  filter (fun p => p_slug p =? s) (projects st) = [].
Proof.
  unfold slug_taken. intros H.
  pose proof (filter_length_zero (fun p => p_slug p =? s) (projects st)) as L.
  rewrite H in L. cbn [negb] in L. apply Nat.eqb_eq in L.
  now apply length_zero_iff_nil.
Qed.

(** X7: a project just created (for a stored owner, whose id is in the
    range of the [integer] column) is the one [getProjectBySlug] returns for
    its slug. *)
Theorem getProjectBySlug_after_create (input : CreateProjectInput) (st : Store) :
  int4 (cp_user_id input) = true ->
  user_known st (cp_user_id input) = true ->
  exists p st',
    createProject input st = (inr p, st') /\
    getProjectBySlug (p_slug p) st' = (inr (Some p), st').
Proof.
  intros Hrange Hu.
  destruct (createProject_first_free input st Hrange Hu) as [k (Hc & Hfree & _)].
  cbv zeta in Hc, Hfree.
  eexists _, _. split; [exact Hc|].
  unfold getProjectBySlug, bind, select_projects, ret.
  rewrite with_params_none. cbn [projects p_slug].
  rewrite filter_app, (filter_slug_free st _ Hfree). cbn [filter p_slug app].
  rewrite String.eqb_refl. reflexivity.
Qed.

Lemma getProjectBySlug_after_create_witness :
  user_known demo_store (cp_user_id demo_create_input) = true /\
  exists p st',
    createProject demo_create_input demo_store = (inr p, st') /\
    getProjectBySlug (p_slug p) st' = (inr (Some p), st').
Proof.
  split; [reflexivity|].
  exact (getProjectBySlug_after_create demo_create_input demo_store eq_refl eq_refl).
Defined.

(** For a slug no stored project carries, [getProjectBySlug] returns null;
    for any slug, what it returns is a stored project with that slug. *)
Lemma getProjectBySlug_sound (slug : string) (st : Store) :
  exists r,
    getProjectBySlug slug st = (inr r, st) /\
    (slug_taken st slug = false -> r = None) /\
    (forall p, r = Some p -> In p (projects st) /\ p_slug p = slug) /\
    (slug_taken st slug = true -> exists p, r = Some p).
Proof.
  unfold getProjectBySlug, bind, select_projects, ret.
  rewrite with_params_none.
  rewrite filter_length_zero.
  change (existsb (fun p => p_slug p =? slug) (projects st)) with (slug_taken st slug).
  destruct (slug_taken st slug) eqn:E; cbn [negb].
  - destruct (filter (fun p => p_slug p =? slug) (projects st)) as [|q l] eqn:F.
    + unfold slug_taken in E. apply existsb_exists in E. destruct E as [x [Hx Hs]].
      assert (Hin : In x (filter (fun p => p_slug p =? slug) (projects st)))
        by (apply filter_In; now split).
      rewrite F in Hin. contradiction.
    + exists (Some q). split; [reflexivity|]. split; [discriminate|]. split.
      * intros p Hp. injection Hp as <-.
        assert (Hin : In q (filter (fun p => p_slug p =? slug) (projects st)))
          by (rewrite F; now left).
        apply filter_In in Hin. destruct Hin as [H1 H2].
        split; [exact H1 | now apply String.eqb_eq].
      * intros _. now exists q.
  - exists None. split; [reflexivity|]. split; [reflexivity|].
    split; [discriminate | discriminate].
Qed.

(** X8: when no project has the id of the input, [updateProject] throws
    and changes nothing: its own not-found error when the id is in the range
    of the [integer] column, and the error of the store, which rejects the
    query for the project, when it is not. *)
Theorem updateProject_not_found (input : UpdateProjectInput) (st : Store) :
  (forall p, In p (projects st) -> p_id p <> up_id input) ->
  updateProject input st =
    (inl (if int4 (up_id input)
          then Err ("Project with id " ++ of_nat (up_id input) ++ " not found")
          else OutOfRange "integer"), st).
Proof.
  intros Hno. unfold updateProject, bind, select_projects, with_params.
  rewrite params_ok_one.
  destruct (int4 (up_id input)); [|reflexivity].
  rewrite filter_length_zero.
  replace (existsb (fun p => (p_id p =? up_id input)%nat) (projects st)) with false;
    [reflexivity|].
  symmetry. apply existsb_false_iff. intros p Hp. apply Nat.eqb_neq. now apply Hno.
Qed.

Lemma updateProject_not_found_witness :
  (forall p, In p (projects demo_store) -> p_id p <> 99) /\
  updateProject (mkUpdateProjectInput 99 (Some "Should fail") None None None None)
    demo_store =
    (inl (Err "Project with id 99 not found"), demo_store).
Proof.
  assert (H : forall p, In p (projects demo_store) -> p_id p <> 99)
    by (intros p [<-|[]]; discriminate).
  split; [exact H|].
  exact (updateProject_not_found
           (mkUpdateProjectInput 99 (Some "Should fail") None None None None)
           demo_store H).
Defined.

Lemma slugs_unique_map (g : Project -> Project) (ps : list Project) :
  (forall p, p_slug (g p) = p_slug p) ->
  slugs_unique (map g ps) = slugs_unique ps.
Proof.
  intros Hg. induction ps as [|p ps IH]; [reflexivity|].
  cbn [map slugs_unique]. rewrite IH, Hg. f_equal. f_equal.
  clear IH. induction ps as [|q ps IH]; [reflexivity|].
  cbn [map existsb]. now rewrite IH, Hg.
Qed.

(** X9: an update that supplies no name cannot fail on a stored project
    (its id, being stored, in the range of the [integer] column):
    from a store with distinct slugs it returns the updated row, stamped with
    the current time, and the ids, owners, names, slugs and creation times of
    all projects are as before. *)
Theorem updateProject_without_name (input : UpdateProjectInput) (st : Store) :
  int4 (up_id input) = true ->
  up_name input = None ->
  slugs_unique (projects st) = true ->
  (exists p, In p (projects st) /\ p_id p = up_id input) ->
  exists q st',
    updateProject input st = (inr (Some q), st') /\
    p_id q = up_id input /\
    p_updated_at q = clock st /\
    map p_id (projects st') = map p_id (projects st) /\
    map p_user_id (projects st') = map p_user_id (projects st) /\
    map p_name (projects st') = map p_name (projects st) /\
    map p_slug (projects st') = map p_slug (projects st) /\
    map p_created_at (projects st') = map p_created_at (projects st) /\
    files st' = files st.
Proof.
  intros Hrange Hname Huniq [p [Hp Hid]].
  set (cond := fun r => (p_id r =? up_id input)%nat).
  set (u := mkProjectUpdate None None (up_description input) (up_ai_prompt input)
              (up_is_deployed input) (up_deployment_url input) (Some (clock st))).
  set (g := fun r => if cond r then apply_update u r else r).
  assert (Hg : forall r, p_id (g r) = p_id r /\ p_user_id (g r) = p_user_id r /\
                         p_name (g r) = p_name r /\ p_slug (g r) = p_slug r /\
                         p_created_at (g r) = p_created_at r).
  { intros r. unfold g. destruct (cond r); repeat split; reflexivity. }
  assert (He : existsb cond (projects st) = true).
  { apply existsb_exists. exists p. split; [exact Hp|]. unfold cond.
    now apply Nat.eqb_eq. }
  assert (Hu : slugs_unique (map g (projects st)) = true).
  { rewrite slugs_unique_map; [exact Huniq | intros r; apply Hg]. }
  unfold updateProject. unfold bind at 1. unfold select_projects.
  rewrite (with_params_one _ _ _ Hrange).
  fold cond. rewrite filter_length_zero, He. cbn [negb].
  unfold bind, now, update_projects, ret. rewrite Hname. cbn [option_map].
  rewrite (with_params_one _ _ _ Hrange).
  fold cond. fold u. fold g. rewrite Hu.
  destruct (filter cond (projects st)) as [|q l] eqn:F.
  { exfalso. assert (Hin : In p (filter cond (projects st)))
      by (apply filter_In; split; [exact Hp | unfold cond; now apply Nat.eqb_eq]).
    rewrite F in Hin. contradiction. }
  assert (Hq : p_id q = up_id input).
  { assert (Hin : In q (filter cond (projects st))) by (rewrite F; now left).
    apply filter_In in Hin. destruct Hin as [_ Hin]. now apply Nat.eqb_eq. }
  eexists _, _. split; [reflexivity|].
  cbn [map hd_error projects files].
  split; [exact Hq|]. split; [reflexivity|].
  repeat split; rewrite ?map_map; try reflexivity; apply map_ext; intros r; apply Hg.
Qed.

Lemma updateProject_without_name_witness :
  slugs_unique (projects two_projects_store) = true /\
  (exists p, In p (projects two_projects_store) /\ p_id p = 2) /\
  exists q st',
    updateProject (mkUpdateProjectInput 2 None (Some None) None (Some true) None)
      two_projects_store = (inr (Some q), st') /\
    p_id q = 2 /\
    p_updated_at q = clock two_projects_store /\
    map p_id (projects st') = map p_id (projects two_projects_store) /\
    map p_user_id (projects st') = map p_user_id (projects two_projects_store) /\
    map p_name (projects st') = map p_name (projects two_projects_store) /\
    map p_slug (projects st') = map p_slug (projects two_projects_store) /\
    map p_created_at (projects st') = map p_created_at (projects two_projects_store) /\
    files st' = files two_projects_store.
Proof.
  assert (H : exists p, In p (projects two_projects_store) /\ p_id p = 2)
    by (exists other_project; split; [right; left; reflexivity | reflexivity]).
  split; [reflexivity|]. split; [exact H|].
  exact (updateProject_without_name
           (mkUpdateProjectInput 2 None (Some None) None (Some true) None)
           two_projects_store eq_refl eq_refl eq_refl H).
Defined.

End ProjectHandlers.

(* ================================================================== *)
(** * Further properties of the slug normalisations *)
(* ================================================================== *)

Section Normalisations.
Import Str Db Props Handlers Queries.

(** The normalisation of [createProject] and the one of [updateProject]
    are written differently; both put one hyphen for each maximal run of
    characters outside [[a-z0-9]]. *)
Lemma create_chain_is_rename_chain (s : string) :
  forall b b1 : bool,
    (b1 = true -> b = true) ->
    replace_runs_from is_hyphen "-" b
      (replace_each (fun c => negb (is_slug_char c)) "-"
         (replace_runs_from is_space "-" b1 s)) =
    replace_runs_from (fun c => negb (is_alnum c)) "-" b s.
Proof.
  induction s as [|c s IH]; intros b b1 Hb; [reflexivity|].
  cbn [replace_runs_from].
  destruct (is_space c) eqn:Hs.
  - rewrite (space_not_alnum c Hs). cbn [negb].
    destruct b1.
    + rewrite (Hb eq_refl). apply IH. reflexivity.
    + simpl. destruct b; [|f_equal]; apply IH; reflexivity.
  - cbn [replace_each]. unfold is_slug_char at 1.
    destruct (is_alnum c) eqn:Ha; cbn [orb negb].
    + cbn [replace_runs_from]. rewrite (alnum_not_hyphen c Ha).
      f_equal. apply IH. discriminate.
    + destruct (is_hyphen c) eqn:Hh; cbn [negb].
      * cbn [replace_runs_from]. rewrite Hh.
        destruct b; [|f_equal]; apply IH; discriminate.
      * simpl. destruct b; [|f_equal]; apply IH; discriminate.
Qed.

Lemma rename_chain_baseSlug (name : string) :
  renameSlug name = baseSlug name.
Proof.
  unfold renameSlug, baseSlug, replace_runs. f_equal. symmetry.
  apply create_chain_is_rename_chain. discriminate.
Qed.

(** X10: the slug [updateProject] writes on a rename is the base slug
    [createProject] computes for the same name, whatever the name. *)
Theorem renameSlug_is_baseSlug (name : string) :
  renameSlug name = baseSlug name.
Proof. exact (rename_chain_baseSlug name). Qed.

(** What the automaton of the slug expression has checked of a string it
    accepts. *)
Lemma run_facts (s : string) :
  forall st,
    SlugRe.run st s = true ->
    all_chars is_slug_char s = true /\
    double_hyphen s = false /\
    endsWithChar s "-" = false /\
    (st = SlugRe.NeedWord -> starts_with_hyphen s = false).
Proof.
  induction s as [|c s IH]; intros st Hr.
  - repeat split; reflexivity.
  - simpl in Hr. destruct (is_alnum c) eqn:Ha.
    + destruct (IH _ Hr) as (A & B & C & _).
      pose proof (alnum_not_hyphen c Ha) as Hh.
      repeat split.
      * simpl. rewrite A. unfold is_slug_char. now rewrite Ha.
      * simpl. now rewrite Hh, B.
      * destruct s as [|d s]; [exact Hh | exact C].
      * intros _. exact Hh.
    + destruct (is_hyphen c) eqn:Hh; [|discriminate].
      destruct st; [discriminate|].
      destruct (IH _ Hr) as (A & B & C & D).
      repeat split.
      * simpl. rewrite A. unfold is_slug_char. now rewrite Hh, orb_true_r.
      * simpl. now rewrite (D eq_refl), andb_false_r, B.
      * destruct s as [|d s]; [discriminate Hr | exact C].
      * discriminate.
Qed.

Lemma slug_char_not_upper (c : ascii) : is_slug_char c = true -> is_upper c = false.
Proof.
  unfold is_slug_char, is_alnum, is_lower, is_digit, is_upper. intros H.
  apply andb_false_iff.
  apply orb_true_iff in H. destruct H as [H|H].
  - apply orb_true_iff in H. destruct H as [H|H];
      apply andb_true_iff in H; destruct H as [H1 H2];
      apply Nat.leb_le in H1, H2.
    + right. apply Nat.leb_gt. lia.
    + left. apply Nat.leb_gt. lia.
  - apply is_hyphen_eq in H. subst c. left. reflexivity.
Qed.

Lemma slug_char_not_space (c : ascii) : is_slug_char c = true -> is_space c = false.
Proof.
  intros H. destruct (is_space c) eqn:E; [|reflexivity].
  unfold is_slug_char in H. rewrite (space_not_alnum c E), (space_not_hyphen c E) in H.
  discriminate.
Qed.

Lemma toLowerCase_slug_chars (s : string) :
  all_chars is_slug_char s = true -> toLowerCase s = s.
Proof.
  induction s as [|c s IH]; [reflexivity|]. simpl. intros H.
  apply andb_true_iff in H. destruct H as [Hc H].
  unfold lower_char. now rewrite (slug_char_not_upper c Hc), (IH H).
Qed.

Lemma replace_runs_none (p : ascii -> bool) (r : string) (b : bool) (s : string) :
  all_chars (fun c => negb (p c)) s = true ->
  replace_runs_from p r b s = s.
Proof.
  revert b. induction s as [|c s IH]; intros b H; [reflexivity|].
  simpl in *. apply andb_true_iff in H. destruct H as [Hc H].
  apply negb_true_iff in Hc. now rewrite Hc, (IH false H).
Qed.

Lemma replace_each_none (p : ascii -> bool) (r : string) (s : string) :
  all_chars (fun c => negb (p c)) s = true ->
  replace_each p r s = s.
Proof.
  induction s as [|c s IH]; [reflexivity|].
  simpl. intros H. apply andb_true_iff in H. destruct H as [Hc H].
  apply negb_true_iff in Hc. now rewrite Hc, (IH H).
Qed.

Lemma all_chars_impl (p q : ascii -> bool) (s : string) :
  (forall c, p c = true -> q c = true) ->
  all_chars p s = true -> all_chars q s = true.
Proof.
  intros Hpq. induction s as [|c s IH]; [reflexivity|].
  simpl. intros H. apply andb_true_iff in H. destruct H as [Hc H].
  now rewrite (Hpq c Hc), (IH H).
Qed.

Lemma collapse_none (s : string) :
  forall b,
    double_hyphen s = false ->
    (b = true -> starts_with_hyphen s = false) ->
    replace_runs_from is_hyphen "-" b s = s.
Proof.
  induction s as [|c s IH]; intros b Hd Hb; [reflexivity|].
  simpl in Hd. apply orb_false_iff in Hd. destruct Hd as [Hcs Hd].
  simpl. destruct (is_hyphen c) eqn:Hc.
  - destruct b; [specialize (Hb eq_refl); simpl in Hb; congruence|].
    simpl. apply is_hyphen_eq in Hc. subst c. f_equal.
    apply IH; [exact Hd | intros _; exact Hcs].
  - f_equal. apply IH; [exact Hd | discriminate].
Qed.

Lemma strip_trailing_none (s : string) :
  endsWithChar s "-" = false -> strip_trailing_hyphen s = s.
Proof.
  induction s as [|c s IH]; [reflexivity|].
  destruct s as [|d s].
  - simpl. unfold is_hyphen. now intros ->.
  - rewrite strip_trailing_cons. intros H. f_equal. apply IH. exact H.
Qed.

(** A string the slug expression accepts is left as it is by every step
    of the three normalisations. *)
Lemma normalisations_fix_slugs (s : string) :
  SlugRe.matches s = true ->
  baseSlug s = s /\ sanitizeProjectName s = s.
Proof.
  intros Hm. destruct (run_facts s _ Hm) as (A & B & C & D).
  specialize (D eq_refl).
  assert (Hstrip : strip_edge_hyphens s = s).
  { unfold strip_edge_hyphens.
    replace (strip_leading_hyphen s) with s.
    - now apply strip_trailing_none.
    - destruct s as [|c s]; [reflexivity|]. simpl in D |- *. now rewrite D. }
  assert (Hcollapse : replace_runs is_hyphen "-" s = s)
    by (apply collapse_none; [exact B | intros _; exact D]).
  assert (Hspace : replace_runs is_space "-" s = s).
  { apply replace_runs_none. apply (all_chars_impl is_slug_char); [|exact A].
    intros c Hc. now rewrite (slug_char_not_space c Hc). }
  split.
  - unfold baseSlug. rewrite (toLowerCase_slug_chars s A), Hspace.
    rewrite replace_each_none.
    + now rewrite Hcollapse.
    + apply (all_chars_impl is_slug_char); [|exact A].
      intros c Hc. now rewrite Hc.
  - unfold sanitizeProjectName. rewrite (toLowerCase_slug_chars s A).
    rewrite replace_each_none.
    + now rewrite Hspace, Hcollapse.
    + apply (all_chars_impl is_slug_char); [|exact A].
      intros c Hc. now rewrite Hc.
Qed.

(** X11: a name that already matches [^[a-z0-9]+(-[a-z0-9]+)*$] is its own
    base slug (and so its own slug on a rename). *)
Theorem baseSlug_fixes_slugs (s : string) :
  SlugRe.matches s = true ->
  baseSlug s = s /\ renameSlug s = s.
Proof.
  intros Hm. rewrite rename_chain_baseSlug.
  split; apply (normalisations_fix_slugs s Hm).
Qed.

Lemma baseSlug_fixes_slugs_witness :
  SlugRe.matches "my-react-app-2024" = true /\
  baseSlug "my-react-app-2024" = "my-react-app-2024" /\
  renameSlug "my-react-app-2024" = "my-react-app-2024".
Proof.
  split; [reflexivity|].
  exact (baseSlug_fixes_slugs "my-react-app-2024" eq_refl).
Defined.

(** X12: the base slug is idempotent: normalising a base slug again
    changes nothing. *)
Theorem baseSlug_idempotent (name : string) :
  baseSlug (baseSlug name) = baseSlug name.
Proof.
  destruct (baseSlug_shape name) as [-> | Hm]; [reflexivity|].
  apply (normalisations_fix_slugs _ Hm).
Qed.

(** X13: the manifest identifier is empty or matches
    [^[a-z0-9]+(-[a-z0-9]+)*$], it is empty exactly when the lower-cased
    name has no character of [[a-z0-9]], and sanitising it again changes
    nothing. *)
Theorem sanitizeProjectName_slug (projectName : string) :
  ((has_alnum (toLowerCase projectName) = true /\
    SlugRe.matches (sanitizeProjectName projectName) = true) \/
   (has_alnum (toLowerCase projectName) = false /\
    sanitizeProjectName projectName = EmptyString)) /\
  sanitizeProjectName (sanitizeProjectName projectName) = sanitizeProjectName projectName.
Proof.
  assert (Hal : alnums (sanitizeProjectName projectName) = alnums (toLowerCase projectName)).
  { unfold sanitizeProjectName, replace_runs.
    rewrite alnums_strip_edges.
    rewrite alnums_replace_runs by apply hyphen_not_alnum.
    rewrite alnums_replace_runs by apply space_not_alnum.
    apply alnums_replace_each; [|now right].
    intros c Hc. apply negb_true_iff, orb_false_iff in Hc.
    destruct Hc as [Hc _]. unfold is_slug_char in Hc.
    apply orb_false_iff in Hc. tauto. }
  destruct (sanitizeProjectName_shape projectName) as [He | Hm].
  - split.
    + right. split; [|exact He]. unfold has_alnum. now rewrite <- Hal, He.
    + now rewrite He.
  - split.
    + left. split; [|exact Hm]. apply matches_has_alnum in Hm.
      unfold has_alnum in *. now rewrite <- Hal.
    + apply (normalisations_fix_slugs _ Hm).
Qed.

End Normalisations.

(* ================================================================== *)
(** * Paths: splitting, joining and the parent path *)
(* ================================================================== *)

Section Paths.
Import Str Db Props Handlers Queries Explorer MoreProps.

Lemma append_assoc_s (a b c : string) : (a ++ b) ++ c = a ++ (b ++ c).
Proof. induction a as [|x a IH]; simpl; [reflexivity | now rewrite IH]. Qed.

Lemma split_app_sep (w t : string) :
  all_chars (fun c => negb (c =? "/")%char) w = true ->
  split "/" (w ++ String "/" t) = w :: split "/" t.
Proof.
  induction w as [|c w IH]; intros H; [reflexivity|].
  simpl in H. apply andb_true_iff in H. destruct H as [Hc H].
  apply negb_true_iff in Hc.
  simpl. rewrite Hc, (IH H). reflexivity.
Qed.

Lemma split_no_sep (w : string) :
  all_chars (fun c => negb (c =? "/")%char) w = true ->
  split "/" w = [w].
Proof.
  induction w as [|c w IH]; intros H; [reflexivity|].
  simpl in H. apply andb_true_iff in H. destruct H as [Hc H].
  apply negb_true_iff in Hc.
  simpl. rewrite Hc, (IH H). reflexivity.
Qed.

(** Joining segments with the separator and splitting at it gives the
    segments back. *)
Lemma split_join (parts : list string) :
  parts <> [] ->
  Forall segment parts ->
  split "/" (join "/" parts) = parts.
Proof.
  induction parts as [|w parts IH]; intros Hne Hs; [now elim Hne|].
  inversion Hs as [|? ? [_ Hw] Hs']; subst.
  destruct parts as [|w2 parts].
  - simpl. now apply split_no_sep.
  - change (join "/" (w :: w2 :: parts)) with (w ++ String "/" (join "/" (w2 :: parts))).
    rewrite (split_app_sep _ _ Hw). f_equal. apply IH; [discriminate | exact Hs'].
Qed.

Lemma filter_segments (parts : list string) :
  Forall segment parts -> filter nonEmpty parts = parts.
Proof.
  induction 1 as [|w parts [Hw _] _ IH]; [reflexivity|].
  simpl. rewrite IH. destruct w; [now elim Hw | reflexivity].
Qed.

Lemma join_snoc (parts : list string) (w : string) :
  parts <> [] ->
  join "/" (parts ++ [w]) = join "/" parts ++ "/" ++ w.
Proof.
  induction parts as [|a parts IH]; intros Hne; [now elim Hne|].
  destruct parts as [|b parts].
  - reflexivity.
  - change (join "/" ((a :: b :: parts) ++ [w]))
      with (a ++ "/" ++ join "/" ((b :: parts) ++ [w])).
    rewrite IH by discriminate.
    change (join "/" (a :: b :: parts)) with (a ++ "/" ++ join "/" (b :: parts)).
    now rewrite !append_assoc_s.
Qed.

(** The parent path of a path written from its segments. *)
Lemma getParentPath_segments (parts : list string) :
  Forall segment parts ->
  getParentPath ("/" ++ join "/" parts) =
    if (length parts <=? 1)%nat then None
    else Some ("/" ++ join "/" (removelast parts)).
Proof.
  intros Hs. unfold getParentPath.
  destruct parts as [|w parts]; [reflexivity|].
  change ("/" ++ join "/" (w :: parts))
    with (EmptyString ++ String "/" (join "/" (w :: parts))).
  rewrite split_app_sep by reflexivity.
  rewrite split_join by (discriminate || exact Hs).
  replace (filter nonEmpty (EmptyString :: w :: parts))
    with (filter nonEmpty (w :: parts)) by reflexivity.
  rewrite (filter_segments _ Hs). reflexivity.
Qed.

Lemma getParentPath_child (parts : list string) (child : string) :
  Forall segment parts ->
  segment child ->
  getParentPath ("/" ++ child) = None /\
  (parts <> [] ->
   getParentPath (("/" ++ join "/" parts) ++ "/" ++ child) =
     Some ("/" ++ join "/" parts)).
Proof.
  intros Hs Hc. split.
  - apply (getParentPath_segments [child]). now constructor.
  - intros Hne.
    replace (("/" ++ join "/" parts) ++ "/" ++ child)
      with ("/" ++ join "/" (parts ++ [child])).
    + rewrite getParentPath_segments.
      * rewrite length_app, removelast_last. simpl length.
        destruct parts as [|a parts]; [now elim Hne|].
        simpl length. replace (S (length parts) + 1 <=? 1)%nat with false; [reflexivity|].
        symmetry. apply Nat.leb_gt. lia.
      * apply Forall_app. split; [exact Hs | now constructor].
    + rewrite join_snoc by exact Hne. now rewrite append_assoc_s.
Qed.

(** X14: the parent path computed from the path of a child is the path of
    its parent: for a folder path written from segments, followed by the
    separator and one more segment, [getParentPath] gives the folder path
    back; for a single segment under the root it gives null. *)
Theorem getParentPath_of_child (parts : list string) (child : string) :
  Forall segment parts ->
  segment child ->
  getParentPath ("/" ++ child) = None /\
  (parts <> [] ->
   getParentPath (("/" ++ join "/" parts) ++ "/" ++ child) =
     Some ("/" ++ join "/" parts)).
Proof. exact (getParentPath_child parts child). Qed.

Lemma getParentPath_of_child_witness :
  Forall segment ["src"; "components"] /\
  segment "Button.tsx" /\
  getParentPath ("/" ++ "Button.tsx") = None /\
  (["src"; "components"] <> [] ->
   getParentPath (("/" ++ join "/" ["src"; "components"]) ++ "/" ++ "Button.tsx") =
     Some ("/" ++ join "/" ["src"; "components"])).
Proof.
  assert (H1 : Forall segment ["src"; "components"])
    by (repeat constructor; discriminate).
  assert (H2 : segment "Button.tsx") by (split; [discriminate | reflexivity]).
  split; [exact H1|]. split; [exact H2|].
  exact (getParentPath_of_child ["src"; "components"] "Button.tsx" H1 H2).
Defined.

(** X15: a node created from the explorer's dialog carries the parent path
    the generator would compute from its path: for a new name that is one
    segment and not blank, under the root or under a folder path written
    from segments, the [createFile] input built by the client has
    [parent_path] equal to [getParentPath] of its [path]. *)
Theorem explorer_parent_path (parts : list string) (newItemName : string)
        (folder : bool) (projectId : nat) :
  Forall segment parts ->
  segment newItemName ->
  trim newItemName <> EmptyString ->
  exists fileData,
    handleCreateSubmit ("/" ++ join "/" parts) newItemName folder = Some fileData /\
    fd_name fileData = trim newItemName /\
    cf_path (handleFileCreate projectId fileData) =
      (if ("/" ++ join "/" parts =? "/") then "/" ++ newItemName
       else ("/" ++ join "/" parts) ++ "/" ++ newItemName) /\
    cf_parent_path (handleFileCreate projectId fileData) =
      getParentPath (cf_path (handleFileCreate projectId fileData)).
Proof.
  intros Hs Hn Ht. unfold handleCreateSubmit.
  destruct (trim newItemName) as [|c t] eqn:E; [now elim Ht|].
  eexists. split; [reflexivity|]. split; [reflexivity|]. split; [reflexivity|].
  cbn [handleFileCreate cf_path cf_parent_path fd_path fd_parent_path].
  destruct (getParentPath_child parts newItemName Hs Hn) as [Hroot Hchild].
  destruct ("/" ++ join "/" parts =? "/") eqn:Eroot.
  - now rewrite Hroot.
  - rewrite Hchild; [reflexivity|].
    intros ->. discriminate Eroot.
Qed.

Lemma explorer_parent_path_witness :
  Forall segment ["src"] /\
  segment "app.js" /\
  trim "app.js" <> EmptyString /\
  exists fileData,
    handleCreateSubmit ("/" ++ join "/" ["src"]) "app.js" false = Some fileData /\
    fd_name fileData = trim "app.js" /\
    cf_path (handleFileCreate 1 fileData) =
      (if ("/" ++ join "/" ["src"] =? "/") then "/" ++ "app.js"
       else ("/" ++ join "/" ["src"]) ++ "/" ++ "app.js") /\
    cf_parent_path (handleFileCreate 1 fileData) =
      getParentPath (cf_path (handleFileCreate 1 fileData)).
Proof.
  assert (H1 : Forall segment ["src"]) by (repeat constructor; discriminate).
  assert (H2 : segment "app.js") by (split; [discriminate | reflexivity]).
  assert (H3 : trim "app.js" <> EmptyString) by discriminate.
  split; [exact H1|]. split; [exact H2|]. split; [exact H3|].
  exact (explorer_parent_path ["src"] "app.js" false 1 H1 H2 H3).
Defined.

End Paths.

(* ================================================================== *)
(** * Listing the projects of a user *)
(* ================================================================== *)

Section UserProjects.
Import Str Db Props Handlers Queries MoreProps.

Lemma insert_desc_perm {A} (key : A -> nat) (x : A) (l : list A) :
  Permutation (insert_desc key x l) (x :: l).
Proof.
  induction l as [|y l IH]; simpl; [reflexivity|].
  destruct (key y <=? key x)%nat; [reflexivity|].
  rewrite IH. apply perm_swap.
Qed.

Lemma order_by_desc_perm {A} (key : A -> nat) (l : list A) :
  Permutation (order_by_desc key l) l.
Proof.
  induction l as [|x l IH]; simpl; [reflexivity|].
  rewrite insert_desc_perm. now constructor.
Qed.

Lemma insert_desc_sorted {A} (key : A -> nat) (x : A) (l : list A) :
  Sorted (fun a b => key b <= key a) l ->
  Sorted (fun a b => key b <= key a) (insert_desc key x l).
Proof.
  induction l as [|y l IH]; intros Hs; simpl.
  - repeat constructor.
  - destruct (key y <=? key x)%nat eqn:E.
    + constructor; [exact Hs|]. constructor. now apply Nat.leb_le.
    + apply Nat.leb_gt in E. inversion Hs as [|? ? Hs' Hhd]; subst.
      constructor; [now apply IH|].
      destruct l as [|z l]; simpl.
      * constructor. lia.
      * destruct (key z <=? key x)%nat; constructor; [lia|].
        inversion Hhd; subst. assumption.
Qed.

Lemma order_by_desc_sorted {A} (key : A -> nat) (l : list A) :
  StronglySorted (fun a b => key b <= key a) (order_by_desc key l).
Proof.
  apply Sorted_StronglySorted.
  - intros a b c Hab Hbc. lia.
  - induction l as [|x l IH]; simpl; [constructor|].
    now apply insert_desc_sorted.
Qed.

Lemma getUserProjects_listing (userId : nat) (st : Store) :
  int4 userId = true ->
  exists ps,
    getUserProjects userId st = (inr ps, st) /\
    Permutation ps (filter (fun p => p_user_id p =? userId)%nat (projects st)) /\
    StronglySorted newer_or_same ps /\
    forall p, In p ps <-> In p (projects st) /\ p_user_id p = userId.
Proof.
  intros Hrange. eexists. split.
  { unfold getUserProjects, bind, select_projects.
    rewrite (with_params_one _ _ _ Hrange). reflexivity. }
  pose proof (order_by_desc_perm p_created_at
                (filter (fun p => p_user_id p =? userId)%nat (projects st))) as Hperm.
  split; [exact Hperm|]. split; [apply order_by_desc_sorted|].
  intros p. split.
  - intros Hin. apply (Permutation_in _ Hperm) in Hin.
    apply filter_In in Hin. destruct Hin as [H1 H2].
    split; [exact H1 | now apply Nat.eqb_eq].
  - intros [H1 H2]. apply (Permutation_in _ (Permutation_sym Hperm)).
    apply filter_In. split; [exact H1 | now apply Nat.eqb_eq].
Qed.

(** X16: for a user id in the range of the [integer] column,
    [getUserProjects] returns the stored projects of the user, each as
    often as it is stored and none of another owner, the newest first; for
    an id beyond the range it rethrows the error of the store.  The store is
    not changed. *)
Theorem getUserProjects_newest_first (userId : nat) (st : Store) :
  (int4 userId = true ->
   exists ps,
     getUserProjects userId st = (inr ps, st) /\
     Permutation ps (filter (fun p => p_user_id p =? userId)%nat (projects st)) /\
     StronglySorted newer_or_same ps /\
     forall p, In p ps <-> In p (projects st) /\ p_user_id p = userId) /\
  (int4 userId = false ->
   getUserProjects userId st = (inl (OutOfRange "integer"), st)).
Proof.
  split; [exact (getUserProjects_listing userId st)|].
  intros Hrange. unfold getUserProjects, bind, select_projects.
  rewrite with_params_rejected; [reflexivity|].
  now rewrite params_ok_one.
Qed.

(** The listing of user 1 in a store with three projects, the last of
    another owner. *)
Example getUserProjects_demo :
  getUserProjects 1 three_projects_store =
    (inr [other_project; demo_project], three_projects_store).
Proof. reflexivity. Qed.

(** X17: a project just created is in the listing of its owner (a stored
    user, whose id is in the range of the [integer] column). *)
Theorem getUserProjects_after_create (input : CreateProjectInput) (st : Store) :
  int4 (cp_user_id input) = true ->
  user_known st (cp_user_id input) = true ->
  exists p st' ps,
    createProject input st = (inr p, st') /\
    getUserProjects (cp_user_id input) st' = (inr ps, st') /\
    In p ps /\
    length ps =
      S (length (filter (fun q => p_user_id q =? cp_user_id input)%nat (projects st))).
Proof.
  intros Hrange Hu.
  destruct (createProject_first_free input st Hrange Hu) as [k (Hc & _ & _)].
  cbv zeta in Hc.
  destruct (getUserProjects_listing (cp_user_id input)
              (mkStore (users st)
                 (projects st ++
                    [mkProject (projects_seq st) (cp_user_id input) (cp_name input)
                       (cp_description input) (cp_ai_prompt input)
                       (candidate (baseSlug (cp_name input)) k) false None
                       (clock st) (clock st)])%list
                 (files st) (chat_messages st) (deployments st)
                 (S (projects_seq st)) (files_seq st) (clock st)) Hrange)
    as [ps (Hg & Hperm & _ & Hin)].
  eexists _, _, ps. split; [exact Hc|]. split; [exact Hg|]. split.
  - apply Hin. cbn [projects p_user_id]. split; [|reflexivity].
    apply in_or_app. right. left. reflexivity.
  - rewrite (Permutation_length Hperm). cbn [projects].
    rewrite filter_app, length_app. cbn [filter p_user_id].
    rewrite Nat.eqb_refl. simpl. lia.
Qed.

Lemma getUserProjects_after_create_witness :
  user_known demo_store (cp_user_id demo_create_input) = true /\
  exists p st' ps,
    createProject demo_create_input demo_store = (inr p, st') /\
    getUserProjects (cp_user_id demo_create_input) st' = (inr ps, st') /\
    In p ps /\
    length ps =
      S (length (filter (fun q => p_user_id q =? cp_user_id demo_create_input)%nat
                   (projects demo_store))).
Proof.
  split; [reflexivity|].
  exact (getUserProjects_after_create demo_create_input demo_store eq_refl eq_refl).
Defined.

End UserProjects.

(* ================================================================== *)
(** * Further properties of generation *)
(* ================================================================== *)

Section GenerationStore.
Import Str Db Props Handlers Queries MoreProps.

(** X18: when no project has the id given, [simulateAIGeneration] throws
    before any node is generated or stored: its own not-found error when
    the id is in the range of the [integer] column, and the error of the
    store, which rejects the query for the project, when it is not. *)
Theorem simulateAIGeneration_not_found (projectId : nat) (st : Store) :
  (forall p, In p (projects st) -> p_id p <> projectId) ->
  simulateAIGeneration projectId st =
    (inl (if int4 projectId
          then Err ("Project with id " ++ of_nat projectId ++ " not found")
          else OutOfRange "integer"), st).
Proof.
  intros Hno. unfold simulateAIGeneration. unfold bind at 1.
  unfold select_projects, with_params. rewrite params_ok_one.
  destruct (int4 projectId); [|reflexivity].
  replace (filter (fun p => (p_id p =? projectId)%nat) (projects st)) with (@nil Project);
    [reflexivity|].
  symmetry.
  destruct (filter (fun p => (p_id p =? projectId)%nat) (projects st)) as [|x l] eqn:E;
    [reflexivity|].
  assert (Hx : In x (filter (fun p => (p_id p =? projectId)%nat) (projects st)))
    by (rewrite E; now left).
  apply filter_In in Hx. destruct Hx as [Hx Hc]. apply Nat.eqb_eq in Hc.
  elim (Hno x Hx Hc).
Qed.

Lemma simulateAIGeneration_not_found_witness :
  (forall p, In p (projects demo_store) -> p_id p <> 99) /\
  simulateAIGeneration 99 demo_store =
    (inl (Err "Project with id 99 not found"), demo_store).
Proof.
  assert (H : forall p, In p (projects demo_store) -> p_id p <> 99)
    by (intros p [<-|[]]; discriminate).
  split; [exact H | exact (simulateAIGeneration_not_found 99 demo_store H)].
Defined.

Lemma rows_of_in (projectId time : nat) (fs : list GeneratedFile) :
  forall next r,
    In r (rows_of projectId next time fs) <->
    exists g i,
      nth_error fs i = Some g /\
      r = mkFile (next + i) projectId (path g) (name g) (content g) (is_folder g)
            (getParentPath (path g)) time time.
Proof.
  induction fs as [|g fs IH]; intros next r.
  - simpl. split; [contradiction|]. intros (g & i & H & _). destruct i; discriminate.
  - cbn [rows_of In]. rewrite IH. split.
    + intros [<- | (h & i & Hi & ->)].
      * exists g, 0. split; [reflexivity|]. now rewrite Nat.add_0_r.
      * exists h, (S i). split; [exact Hi|]. now rewrite Nat.add_succ_r.
    + intros (h & i & Hi & ->). destruct i as [|i].
      * left. simpl in Hi. injection Hi as ->. now rewrite Nat.add_0_r.
      * right. exists h, i. split; [exact Hi|]. now rewrite Nat.add_succ_r.
Qed.

Lemma strict_tree_consistent_templates (prompt projectName : string) :
  strict_tree_consistentb (generateFilesFromPrompt prompt projectName) = true.
Proof.
  destruct (generateFilesFromPrompt_cases prompt projectName) as [-> | [-> | [-> | ->]]];
    reflexivity.
Qed.

(** X19: generation keeps the tree invariant of the store: when the stored
    nodes satisfy it and their ids are below the sequence, so do the stored
    nodes after [simulateAIGeneration], the generated ones included.  (The id
    of the project, being stored, is in the range of the [integer]
    column.) *)
Theorem simulateAIGeneration_keeps_tree (projectId : nat) (st : Store) (p : Project) :
  int4 projectId = true ->
  In p (projects st) ->
  p_id p = projectId ->
  ids_below_seq st ->
  tree_invariant st ->
  exists r st',
    simulateAIGeneration projectId st = (inr r, st') /\
    ids_below_seq st' /\
    tree_invariant st'.
Proof.
  intros Hrange Hp Hid Hfresh Hinv.
  assert (Hex : existsb (fun q => p_id q =? projectId)%nat (projects st) = true).
  { apply existsb_exists. exists p. split; [exact Hp | now apply Nat.eqb_eq]. }
  unfold simulateAIGeneration. unfold bind at 1. unfold select_projects.
  rewrite (with_params_one _ _ _ Hrange).
  destruct (filter (fun q => (p_id q =? projectId)%nat) (projects st))
    as [|project rest] eqn:Hsel.
  { exfalso. assert (Hin : In p (filter (fun q => (p_id q =? projectId)%nat) (projects st)))
      by (apply filter_In; split; [exact Hp | now apply Nat.eqb_eq]).
    rewrite Hsel in Hin. contradiction. }
  set (fs := generateFilesFromPrompt (p_ai_prompt project) (p_name project)).
  unfold bind at 1. cbv zeta. fold fs.
  rewrite (persist_generated projectId fs Hrange st Hex).
  eexists _, _. split; [reflexivity|].
  pose proof (strict_tree_consistent_templates (p_ai_prompt project) (p_name project))
    as Hstrict. fold fs in Hstrict.
  split.
  - intros f Hf. cbn [files files_seq] in Hf |- *.
    apply in_app_or in Hf. destruct Hf as [Hf | Hf].
    + specialize (Hfresh f Hf). lia.
    + apply rows_of_in in Hf. destruct Hf as (g & i & Hi & ->). cbn [f_id].
      assert (i < length fs) by (apply nth_error_Some; congruence). lia.
  - intros f Hf parent Hparent. cbn [files] in Hf |- *.
    apply in_app_or in Hf. destruct Hf as [Hf | Hf].
    + destruct (Hinv f Hf parent Hparent) as [g (Hg & Hrest)].
      exists g. split; [apply in_or_app; now left | exact Hrest].
    + apply rows_of_in in Hf. destruct Hf as (g & i & Hi & ->).
      cbn [f_parent_path] in Hparent.
      unfold strict_tree_consistentb in Hstrict. rewrite forallb_forall in Hstrict.
      specialize (Hstrict g (nth_error_In _ _ Hi)). rewrite Hparent in Hstrict.
      apply existsb_exists in Hstrict. destruct Hstrict as [h [Hh Hc]].
      apply andb_true_iff in Hc. destruct Hc as [Hc Hdiff].
      apply andb_true_iff in Hc. destruct Hc as [Hfolder Hpath].
      apply String.eqb_eq in Hpath. apply negb_true_iff, String.eqb_neq in Hdiff.
      destruct (In_nth_error _ _ Hh) as [j Hj].
      exists (mkFile (files_seq st + j) projectId (path h) (name h) (content h)
                (is_folder h) (getParentPath (path h)) (clock st) (clock st)).
      split.
      * apply in_or_app. right. apply rows_of_in. now exists h, j.
      * cbn [f_project_id f_is_folder f_path].
        split; [|split; [reflexivity | split; assumption]].
        intros E. apply (f_equal f_path) in E. cbn [f_path] in E. contradiction.
Qed.

Lemma simulateAIGeneration_keeps_tree_witness :
  In demo_project (projects src_store) /\
  ids_below_seq src_store /\
  tree_invariant src_store /\
  exists r st',
    simulateAIGeneration 1 src_store = (inr r, st') /\
    ids_below_seq st' /\
    tree_invariant st'.
Proof.
  assert (H1 : In demo_project (projects src_store)) by (left; reflexivity).
  assert (H2 : ids_below_seq src_store)
    by (intros f [<-|[]]; simpl; lia).
  assert (H3 : tree_invariant src_store)
    by (intros f [<-|[]] parent E; discriminate E).
  split; [exact H1|]. split; [exact H2|]. split; [exact H3|].
  exact (simulateAIGeneration_keeps_tree 1 src_store demo_project
           eq_refl H1 eq_refl H2 H3).
Defined.

Lemma filter_rows_of_same (projectId next time : nat) (fs : list GeneratedFile) :
  filter (fun f => f_project_id f =? projectId)%nat (rows_of projectId next time fs) =
  rows_of projectId next time fs.
Proof.
  revert next. induction fs as [|g fs IH]; intros next; [reflexivity|].
  cbn [rows_of filter f_project_id]. now rewrite Nat.eqb_refl, IH.
Qed.

Lemma filter_rows_of_other (projectId other next time : nat) (fs : list GeneratedFile) :
  other <> projectId ->
  filter (fun f => f_project_id f =? other)%nat (rows_of projectId next time fs) = [].
Proof.
  intros Hne. revert next. induction fs as [|g fs IH]; intros next; [reflexivity|].
  cbn [rows_of filter f_project_id].
  replace (projectId =? other)%nat with false; [apply IH|].
  symmetry. apply Nat.eqb_neq. congruence.
Qed.

(** The lists [getProjectFiles] may return are the permutations of the rows
    of the project, when the id is in the range of the [integer] column;
    beyond it there is none. *)
Lemma may_list_iff (projectId : nat) (st : Store) (rows : list File) :
  may_list projectId st rows <->
  int4 projectId = true /\
  Permutation rows (filter (fun f => f_project_id f =? projectId)%nat (files st)).
Proof.
  unfold may_list, getProjectFiles, select_files, with_params.
  rewrite params_ok_one. destruct (int4 projectId).
  - split.
    + intros [l [E Hperm]]. injection E as <-. now split.
    + intros [_ Hperm]. eexists. split; [reflexivity | exact Hperm].
  - split.
    + intros [l [E _]]. discriminate E.
    + intros [E _]. discriminate E.
Qed.

(** The table of files enters the listings by its rows only, not by their
    order. *)
Lemma may_list_order_free (projectId : nat) (st st' : Store) (rows : list File) :
  Permutation (files st) (files st') ->
  may_list projectId st rows -> may_list projectId st' rows.
Proof.
  intros Hperm. rewrite !may_list_iff. intros [Hrange Hrows].
  split; [exact Hrange|].
  rewrite Hrows. clear Hrows.
  induction Hperm as [|x l l' _ IH|x y l|l l' l'' _ IH1 _ IH2]; simpl.
  - constructor.
  - destruct (f_project_id x =? projectId)%nat; [now constructor | exact IH].
  - destruct (f_project_id x =? projectId)%nat, (f_project_id y =? projectId)%nat;
      try reflexivity. apply perm_swap.
  - now rewrite IH1.
Qed.

(** X20: after generation, the lists [getProjectFiles] may return for the
    project (the query has no [orderBy]) hold, in some order, the rows listed
    before and one row per generated node, with the node's path, name,
    content and folder flag; the lists it may return for any other project
    are those of before.  (The id of the project, being stored, is in the
    range of the [integer] column.) *)
Theorem getProjectFiles_after_generation (projectId : nat) (st : Store) (p : Project) :
  int4 projectId = true ->
  In p (projects st) ->
  p_id p = projectId ->
  exists project generatedFiles st' rows,
    simulateAIGeneration projectId st = (inr (project, generatedFiles), st') /\
    map (fun f => (f_path f, f_name f, f_content f, f_is_folder f)) rows =
      map (fun g => (path g, name g, content g, is_folder g)) generatedFiles /\
    (exists before, may_list projectId st before) /\
    (exists after, may_list projectId st' after) /\
    (forall before after,
       may_list projectId st before -> may_list projectId st' after ->
       Permutation after (before ++ rows)%list) /\
    forall other l,
      other <> projectId -> (may_list other st' l <-> may_list other st l).
Proof.
  intros Hrange Hp Hid.
  assert (Hex : existsb (fun q => p_id q =? projectId)%nat (projects st) = true).
  { apply existsb_exists. exists p. split; [exact Hp | now apply Nat.eqb_eq]. }
  unfold simulateAIGeneration. unfold bind at 1. unfold select_projects.
  rewrite (with_params_one _ _ _ Hrange).
  destruct (filter (fun q => (p_id q =? projectId)%nat) (projects st))
    as [|project rest] eqn:Hsel.
  { exfalso. assert (Hin : In p (filter (fun q => (p_id q =? projectId)%nat) (projects st)))
      by (apply filter_In; split; [exact Hp | now apply Nat.eqb_eq]).
    rewrite Hsel in Hin. contradiction. }
  set (fs := generateFilesFromPrompt (p_ai_prompt project) (p_name project)).
  unfold bind at 1. cbv zeta. fold fs.
  rewrite (persist_generated projectId fs Hrange st Hex).
  exists project, fs. eexists.
  exists (rows_of projectId (files_seq st) (clock st) fs).
  split; [reflexivity|]. split; [|split; [|split; [|split]]].
  - generalize (files_seq st). induction fs as [|g l IH]; intros n; [reflexivity|].
    cbn [rows_of map f_path f_name f_content f_is_folder]. now rewrite IH.
  - eexists. apply may_list_iff. split; [exact Hrange | reflexivity].
  - eexists. apply may_list_iff. split; [exact Hrange | reflexivity].
  - intros before after Hb Ha.
    apply may_list_iff in Hb. apply may_list_iff in Ha.
    destruct Hb as [_ Hb]. destruct Ha as [_ Ha]. cbn [files] in Ha.
    rewrite filter_app, filter_rows_of_same in Ha.
    rewrite Ha, Hb. reflexivity.
  - intros other l Hne. rewrite !may_list_iff. cbn [files].
    rewrite filter_app, (filter_rows_of_other _ _ _ _ _ Hne), app_nil_r.
    reflexivity.
Qed.

Lemma getProjectFiles_after_generation_witness :
  In demo_project (projects src_store) /\
  exists project generatedFiles st' rows,
    simulateAIGeneration 1 src_store = (inr (project, generatedFiles), st') /\
    map (fun f => (f_path f, f_name f, f_content f, f_is_folder f)) rows =
      map (fun g => (path g, name g, content g, is_folder g)) generatedFiles /\
    (exists before, may_list 1 src_store before) /\
    (exists after, may_list 1 st' after) /\
    (forall before after,
       may_list 1 src_store before -> may_list 1 st' after ->
       Permutation after (before ++ rows)%list) /\
    forall other l,
      other <> 1 -> (may_list other st' l <-> may_list other src_store l).
Proof.
  split; [left; reflexivity|].
  exact (getProjectFiles_after_generation 1 src_store demo_project
           eq_refl (or_introl eq_refl) eq_refl).
Defined.

(** Generating twice stores every node twice: nothing looks for a node
    already at the path. *)
Example simulateAIGeneration_twice :
  map f_path (files (snd (simulateAIGeneration 1 (snd (simulateAIGeneration 1 src_store))))) =
    [ "/src"; "/src"; "/public"; "/package.json"; "/src/App.tsx"; "/src/index.tsx";
      "/src/App.css"; "/public/index.html";
      "/src"; "/public"; "/package.json"; "/src/App.tsx"; "/src/index.tsx";
      "/src/App.css"; "/public/index.html" ].
Proof. vm_compute. reflexivity. Qed.

End GenerationStore.

(* ================================================================== *)
(** * The canned chat reply *)
(* ================================================================== *)

Section ChatReply.
Import Str Db Props Handlers Queries MoreProps.

Lemma includes_longer (s k x : string) :
  includes s (k ++ x) = true -> includes s k = true.
Proof.
  rewrite !includes_iff. intros (a & b & ->).
  exists a, (x ++ b). now rewrite append_assoc_s.
Qed.

Lemma includes_or_longer (s k x : string) :
  includes s k || includes s (k ++ x) = includes s k.
Proof.
  destruct (includes s k) eqn:E; [reflexivity|].
  destruct (includes s (k ++ x)) eqn:F; [|reflexivity].
  apply includes_longer in F. congruence.
Qed.

Lemma includes_longer_or (s k x : string) :
  includes s (k ++ x) || includes s k = includes s k.
Proof. rewrite orb_comm. apply includes_or_longer. Qed.

Lemma debug_wording_iff (m : string) :
  debug_wording m <->
  includes (toLowerCase m) "bug" || includes (toLowerCase m) "error"
  || includes (toLowerCase m) "issue" = true.
Proof. unfold debug_wording. rewrite !mentions_iff, !orb_true_iff. tauto. Qed.

Lemma feature_wording_iff (m : string) :
  feature_wording m <->
  includes (toLowerCase m) "feature" || includes (toLowerCase m) "add"
  || includes (toLowerCase m) "implement" = true.
Proof. unfold feature_wording. rewrite !mentions_iff, !orb_true_iff. tauto. Qed.

Lemma performance_wording_iff (m : string) :
  performance_wording m <->
  includes (toLowerCase m) "performance" || includes (toLowerCase m) "optimize" = true.
Proof. unfold performance_wording. rewrite !mentions_iff, !orb_true_iff. tauto. Qed.

(** X21: the reply is chosen by the first rule that applies, the case of
    letters ignored: the debugging reply for [bug], [error] or [issue]; else
    the feature reply for [feature], [add] or [implement]; else the
    deployment reply for [deploy]; else the database reply for [data]; else
    the testing reply for [test]; else the performance reply for
    [performance] or [optimize]; else the default reply, which quotes the
    message as it was typed.  The keywords [deployment], [database] and
    [testing] of the source never decide: each contains the keyword tested
    beside it. *)
Theorem generateAIResponse_priority (m : string) :
  (debug_wording m ->
   generateAIResponse m = generateAIResponse "bug") /\
  (~ debug_wording m -> feature_wording m ->
   generateAIResponse m = generateAIResponse "feature") /\
  (~ debug_wording m -> ~ feature_wording m -> mentions m "deploy" ->
   generateAIResponse m = generateAIResponse "deploy") /\
  (~ debug_wording m -> ~ feature_wording m -> ~ mentions m "deploy" ->
   mentions m "data" ->
   generateAIResponse m = generateAIResponse "data") /\
  (~ debug_wording m -> ~ feature_wording m -> ~ mentions m "deploy" ->
   ~ mentions m "data" -> mentions m "test" ->
   generateAIResponse m = generateAIResponse "test") /\
  (~ debug_wording m -> ~ feature_wording m -> ~ mentions m "deploy" ->
   ~ mentions m "data" -> ~ mentions m "test" -> performance_wording m ->
   generateAIResponse m = generateAIResponse "optimize") /\
  (~ debug_wording m -> ~ feature_wording m -> ~ mentions m "deploy" ->
   ~ mentions m "data" -> ~ mentions m "test" -> ~ performance_wording m ->
   generateAIResponse m = default_reply m).
Proof.
  rewrite debug_wording_iff, feature_wording_iff, performance_wording_iff, !mentions_iff.
  unfold generateAIResponse at 1 3 5 7 9 11 13. cbv zeta.
  pose proof (includes_or_longer (toLowerCase m) "deploy" "ment") as H1.
  pose proof (includes_longer_or (toLowerCase m) "data" "base") as H2.
  pose proof (includes_or_longer (toLowerCase m) "test" "ing") as H3.
  simpl append in H1, H2, H3. rewrite H1, H2, H3. clear H1 H2 H3.
  destruct (includes (toLowerCase m) "bug" || includes (toLowerCase m) "error"
            || includes (toLowerCase m) "issue");
  destruct (includes (toLowerCase m) "feature" || includes (toLowerCase m) "add"
            || includes (toLowerCase m) "implement");
  destruct (includes (toLowerCase m) "deploy");
  destruct (includes (toLowerCase m) "data");
  destruct (includes (toLowerCase m) "test");
  destruct (includes (toLowerCase m) "performance"
            || includes (toLowerCase m) "optimize");
  repeat split; intros; try reflexivity; try discriminate; exfalso; auto.
Qed.

(** The replies the theorem names, and a message two rules apply to. *)
Example generateAIResponse_replies :
  generateAIResponse "bug" =
    "I can help you debug this issue. Let me analyze the code and suggest some solutions. Can you share more details about when this occurs?" /\
  generateAIResponse "Please ADD a test for the bug" = generateAIResponse "bug" /\
  generateAIResponse "Update my address" = generateAIResponse "feature" /\
  generateAIResponse "Hello" = default_reply "Hello".
Proof. repeat split; reflexivity. Qed.

End ChatReply.

(* ================================================================== *)
(** * Creations under one name, renaming to a free slug, listing a created file *)
(* ================================================================== *)

Section RenameAndList.
Import Str Db Props Handlers Queries MoreProps.

(** Writing the slug [s] on the rows with id [i] keeps slugs distinct when
    ids are distinct and no other row carries [s]. *)
Lemma slugs_unique_after_rename (g : Project -> Project) (i : nat) (s : string)
      (ps : list Project) :
  (forall p, p_id p = i -> p_slug (g p) = s) ->
  (forall p, p_id p <> i -> g p = p) ->
  slugs_unique ps = true ->
  NoDup (map p_id ps) ->
  (forall q, In q ps -> p_id q <> i -> p_slug q <> s) ->
  slugs_unique (map g ps) = true.
Proof.
  intros Hhit Hmiss. induction ps as [|p ps IH]; intros Hu Hnd Hfree; [reflexivity|].
  simpl in Hu. apply andb_true_iff in Hu. destruct Hu as [Hhead Hu].
  apply negb_true_iff in Hhead.
  inversion Hnd as [|? ? Hnot Hnd']; subst.
  cbn [map slugs_unique]. apply andb_true_iff. split.
  - apply negb_true_iff, existsb_false_iff. intros q' Hq'.
    apply in_map_iff in Hq'. destruct Hq' as [q [<- Hq]].
    apply String.eqb_neq.
    destruct (Nat.eq_dec (p_id p) i) as [Ep | Ep].
    + assert (Eq : p_id q <> i).
      { intros E. apply Hnot. rewrite Ep, <- E. now apply in_map. }
      rewrite (Hmiss q Eq), (Hhit p Ep).
      apply (Hfree q); [now right | exact Eq].
    + rewrite (Hmiss p Ep).
      destruct (Nat.eq_dec (p_id q) i) as [Eq | Eq].
      * rewrite (Hhit q Eq). intros E. apply (Hfree p); [now left | exact Ep | now symmetry].
      * rewrite (Hmiss q Eq).
        apply String.eqb_neq.
        exact (proj1 (existsb_false_iff _ _) Hhead q Hq).
  - apply IH; [exact Hu | exact Hnd' |].
    intros q Hq. apply Hfree. now right.
Qed.

(** Creations with the same name by any owners, with any descriptions and
    prompts: the slugs are candidates of strictly increasing index, none
    below [m] when the candidates below [m] were taken, and the next
    candidates when these were free. *)
Lemma createEach_indices (name : string) (inputs : list CreateProjectInput) :
  forall (m : nat) (st : Store),
    Forall (fun input => cp_name input = name /\
                         int4 (cp_user_id input) = true /\
                         user_known st (cp_user_id input) = true) inputs ->
    (forall i, i < m -> slug_taken st (candidate (baseSlug name) i) = true) ->
    exists ks ps st',
      createEach inputs st = (inr ps, st') /\
      map p_slug ps = map (candidate (baseSlug name)) ks /\
      map p_user_id ps = map cp_user_id inputs /\
      StronglySorted lt ks /\
      Forall (fun k => m <= k) ks /\
      ((forall i, m <= i < m + length inputs ->
                  slug_taken st (candidate (baseSlug name) i) = false) ->
       ks = seq m (length inputs)).
Proof.
  set (base := baseSlug name).
  induction inputs as [|input inputs IH]; intros m st Hall Hm.
  - exists [], [], st. repeat split; constructor.
  - inversion Hall as [|? ? (Hname & Hrange & Hu) Hrest]; subst.
    destruct (createProject_first_free input st Hrange Hu) as [k (Hc & Hfree & Hbelow)].
    cbv zeta in Hc, Hfree. fold base in Hc, Hfree, Hbelow.
    set (row := mkProject (projects_seq st) (cp_user_id input) (cp_name input)
                  (cp_description input) (cp_ai_prompt input) (candidate base k)
                  false None (clock st) (clock st)) in *.
    set (st1 := mkStore (users st) (projects st ++ [row])%list (files st)
                  (chat_messages st) (deployments st)
                  (S (projects_seq st)) (files_seq st) (clock st)) in *.
    assert (Hmk : m <= k).
    { destruct (le_lt_dec m k) as [H|H]; [exact H|].
      rewrite (Hm k H) in Hfree. discriminate. }
    assert (Hall1 : Forall (fun i => cp_name i = cp_name input /\
                                     int4 (cp_user_id i) = true /\
                                     user_known st1 (cp_user_id i) = true) inputs)
      by exact Hrest.
    assert (Ht1 : forall s, slug_taken st1 s = slug_taken st s || (candidate base k =? s)).
    { intros s. unfold st1. rewrite slug_taken_after_insert. reflexivity. }
    assert (Hm1 : forall i, i < S k -> slug_taken st1 (candidate base i) = true).
    { intros i Hi. rewrite Ht1.
      destruct (Nat.eq_dec i k) as [->|Hne].
      - rewrite String.eqb_refl. apply orb_true_r.
      - rewrite Hbelow by lia. reflexivity. }
    destruct (IH (S k) st1 Hall1 Hm1)
      as (ks & ps & st' & Hrun & Hslugs & Howners & Hsort & Hge & Hseq).
    exists (k :: ks), (row :: ps), st'. split; [|split; [|split; [|split; [|split]]]].
    + cbn [createEach]. unfold bind at 1. rewrite Hc.
      unfold bind at 1. rewrite Hrun. reflexivity.
    + cbn [map]. rewrite Hslugs. reflexivity.
    + cbn [map]. rewrite Howners. reflexivity.
    + constructor; [exact Hsort|].
      eapply Forall_impl; [|exact Hge]. intros a Ha. exact Ha.
    + constructor; [exact Hmk|].
      eapply Forall_impl; [|exact Hge]. intros a Ha. cbv beta in Ha. lia.
    + intros Hfree_all. cbn [length] in Hfree_all.
      assert (Hkm : k = m).
      { destruct (Nat.eq_dec k m) as [E|E]; [exact E|]. exfalso.
        assert (Hlt : m < k) by lia.
        specialize (Hbelow m Hlt).
        rewrite (Hfree_all m) in Hbelow by lia. discriminate. }
      subst k. cbn [seq length]. f_equal. apply Hseq.
      intros i Hi. rewrite Ht1. rewrite Hfree_all by lia.
      cbn [orb]. apply String.eqb_neq. intros E.
      apply candidate_inj in E. lia.
Qed.

(** Three users create a project named Test Project each, after the first
    of that name. *)
Example createEach_demo :
  exists ps st',
    createEach
      [ mkCreateProjectInput 1 "Test Project" None "Build an app";
        mkCreateProjectInput 2 "Test Project" (Some "mine") "Create an API";
        mkCreateProjectInput 1 "Test Project" None "Create a UI" ]
      three_projects_store = (inr ps, st') /\
    map p_slug ps = ["test-project-1"; "test-project-2"; "test-project-3"] /\
    map p_user_id ps = [1; 2; 1].
Proof. eexists _, _. repeat split; reflexivity. Qed.

(** X22: a rename succeeds when no other project carries the slug of the
    new name: from a store with distinct ids and slugs, for a stored project
    (whose id is in the range of the [integer] column), [updateProject]
    returns the project with the new name and [renameSlug] of it as slug, and
    the slugs stay distinct. *)
Theorem updateProject_rename_free (input : UpdateProjectInput) (st : Store)
        (newName : string) :
  int4 (up_id input) = true ->
  up_name input = Some newName ->
  (exists p, In p (projects st) /\ p_id p = up_id input) ->
  NoDup (map p_id (projects st)) ->
  slugs_unique (projects st) = true ->
  (forall q, In q (projects st) -> p_id q <> up_id input ->
             p_slug q <> renameSlug newName) ->
  exists r st',
    updateProject input st = (inr (Some r), st') /\
    p_id r = up_id input /\
    p_name r = newName /\
    p_slug r = renameSlug newName /\
    slugs_unique (projects st') = true.
Proof.
  intros Hrange Hname [p [Hp Hid]] Hnd Hu Hfree.
  set (cond := fun r => (p_id r =? up_id input)%nat).
  set (u := mkProjectUpdate (Some newName) (Some (renameSlug newName))
              (up_description input) (up_ai_prompt input)
              (up_is_deployed input) (up_deployment_url input) (Some (clock st))).
  set (g := fun r => if cond r then apply_update u r else r).
  assert (Hrows : slugs_unique (map g (projects st)) = true).
  { apply (slugs_unique_after_rename g (up_id input) (renameSlug newName));
      try assumption.
    - intros q Hq. unfold g, cond. rewrite Hq, Nat.eqb_refl. reflexivity.
    - intros q Hq. unfold g, cond. apply Nat.eqb_neq in Hq. now rewrite Hq. }
  assert (He : existsb cond (projects st) = true).
  { apply existsb_exists. exists p. split; [exact Hp|]. unfold cond.
    now apply Nat.eqb_eq. }
  unfold updateProject. unfold bind at 1. unfold select_projects.
  rewrite (with_params_one _ _ _ Hrange).
  fold cond. rewrite filter_length_zero, He. cbn [negb].
  unfold bind, now, update_projects, ret. rewrite Hname. cbn [option_map].
  rewrite (with_params_one _ _ _ Hrange).
  fold cond. fold u. fold g. rewrite Hrows.
  destruct (filter cond (projects st)) as [|q l] eqn:F.
  { exfalso. assert (Hin : In p (filter cond (projects st)))
      by (apply filter_In; split; [exact Hp | unfold cond; now apply Nat.eqb_eq]).
    rewrite F in Hin. contradiction. }
  assert (Hq : p_id q = up_id input).
  { assert (Hin : In q (filter cond (projects st))) by (rewrite F; now left).
    apply filter_In in Hin. destruct Hin as [_ Hin]. now apply Nat.eqb_eq. }
  eexists _, _. split; [reflexivity|].
  cbn [projects]. repeat split; [exact Hq | exact Hrows].
Qed.

(** The theorem at the rename of project 2 to a name no project has. *)
Lemma updateProject_rename_free_witness :
  (exists p, In p (projects two_projects_store) /\ p_id p = 2) /\
  NoDup (map p_id (projects two_projects_store)) /\
  slugs_unique (projects two_projects_store) = true /\
  (forall q, In q (projects two_projects_store) -> p_id q <> 2 ->
             p_slug q <> renameSlug "Updated Project Name") /\
  exists r st',
    updateProject (mkUpdateProjectInput 2 (Some "Updated Project Name") None None None None)
      two_projects_store = (inr (Some r), st') /\
    p_id r = 2 /\
    p_name r = "Updated Project Name" /\
    p_slug r = renameSlug "Updated Project Name" /\
    slugs_unique (projects st') = true.
Proof.
  assert (H1 : exists p, In p (projects two_projects_store) /\ p_id p = 2)
    by (exists other_project; split; [right; left; reflexivity | reflexivity]).
  assert (H2 : NoDup (map p_id (projects two_projects_store))).
  { simpl. repeat (constructor; [simpl; intuition lia|]). constructor. }
  assert (H3 : forall q, In q (projects two_projects_store) -> p_id q <> 2 ->
                         p_slug q <> renameSlug "Updated Project Name").
  { intros q [<- | [<- | []]] Hq; [discriminate | now elim Hq]. }
  split; [exact H1|]. split; [exact H2|]. split; [reflexivity|]. split; [exact H3|].
  exact (updateProject_rename_free
           (mkUpdateProjectInput 2 (Some "Updated Project Name") None None None None)
           two_projects_store "Updated Project Name" eq_refl eq_refl H1 H2 eq_refl H3).
Defined.

(** X23: a file just created is in every list [getProjectFiles] may return
    for its project (the query has no [orderBy]): such a list holds, in some
    order, the new row and the rows listed before; the lists it may return
    for any other project are those of before.  (The id of the project,
    being stored, is in the range of the [integer] column.) *)
Theorem getProjectFiles_after_create (input : CreateFileInput) (st : Store) :
  int4 (cf_project_id input) = true ->
  (exists p, In p (projects st) /\ p_id p = cf_project_id input) ->
  exists f st',
    createFile input st = (inr f, st') /\
    (exists before, may_list (cf_project_id input) st before) /\
    (exists after, may_list (cf_project_id input) st' after) /\
    (forall before after,
       may_list (cf_project_id input) st before ->
       may_list (cf_project_id input) st' after ->
       Permutation after (f :: before) /\ In f after) /\
    forall other l,
      other <> cf_project_id input ->
      (may_list other st' l <-> may_list other st l).
Proof.
  intros Hrange Hp.
  pose proof (createFile_inserts input st Hrange Hp) as Hc. cbv zeta in Hc.
  eexists _, _. split; [exact Hc|]. split; [|split; [|split]].
  - eexists. apply may_list_iff. split; [exact Hrange | reflexivity].
  - eexists. apply may_list_iff. split; [exact Hrange | reflexivity].
  - intros before after Hb Ha.
    apply may_list_iff in Hb. apply may_list_iff in Ha.
    destruct Hb as [_ Hb]. destruct Ha as [_ Ha]. cbn [files] in Ha.
    rewrite filter_app in Ha. cbn [filter f_project_id] in Ha.
    rewrite Nat.eqb_refl in Ha.
    assert (Hperm : Permutation after
              (mkFile (files_seq st) (cf_project_id input) (cf_path input)
                 (cf_name input) (cf_content input) (cf_is_folder input)
                 (cf_parent_path input) (clock st) (clock st) :: before)).
    { rewrite Ha, Hb. symmetry. apply Permutation_cons_append. }
    split; [exact Hperm|].
    apply (Permutation_in _ (Permutation_sym Hperm)). now left.
  - intros other l Hne. rewrite !may_list_iff. cbn [files].
    rewrite filter_app. cbn [filter f_project_id].
    replace (cf_project_id input =? other)%nat with false;
      [now rewrite app_nil_r|].
    symmetry. apply Nat.eqb_neq. congruence.
Qed.

Lemma getProjectFiles_after_create_witness :
  (exists p, In p (projects src_store) /\ p_id p = cf_project_id app_js_input) /\
  exists f st',
    createFile app_js_input src_store = (inr f, st') /\
    (exists before, may_list (cf_project_id app_js_input) src_store before) /\
    (exists after, may_list (cf_project_id app_js_input) st' after) /\
    (forall before after,
       may_list (cf_project_id app_js_input) src_store before ->
       may_list (cf_project_id app_js_input) st' after ->
       Permutation after (f :: before) /\ In f after) /\
    forall other l,
      other <> cf_project_id app_js_input ->
      (may_list other st' l <-> may_list other src_store l).
Proof.
  assert (H : exists p, In p (projects src_store) /\ p_id p = cf_project_id app_js_input)
    by (exists demo_project; split; [left; reflexivity | reflexivity]).
  split; [exact H|].
  exact (getProjectFiles_after_create app_js_input src_store eq_refl H).
Defined.

End RenameAndList.
